(** * repomgmt.models: build records, build nodes and the remote transport

    A shallow embedding of the scheduling core of [repomgmt/models.py]:
    [BuildRecord] (state updates, the pending queue, the atomic claim of
    [pick_build]) and [BuildNode] (the remote command transport, [prepare],
    [build], [start_new], [delete]).

    Conventions of the model:
    - The database is an explicit store of tables, each a list of rows in
      table order; the ORM calls the code makes ([filter(...).update],
      [get], [save], [delete], [order_by]) are functions on these lists.
    - A method of a model object runs on a context that holds the object
      (Python mutates it in place) next to the world.
    - Everything outside the process (the remote shell, the cloud API, the
      local helper commands of [repomgmt.utils], the random generator) is an
      environment, which is asked for the outcome of each external call; the
      calls made are recorded in order.
    - A Python exception is an error result.  [exn] ranges over the
      subclasses of [Exception], which is what the ORM, the transport and the
      helpers raise and what [except Exception] catches.
    - A loop without a bound takes fuel; running out of fuel is the
      outcome [Diverge].
    - Time passes in [time.sleep] only. *)

From Stdlib Require Import List ZArith Lia Bool String Ascii Arith PeanoNat Permutation DecimalString.
Import ListNotations.
Local Open Scope string_scope.
Local Open Scope list_scope.
Local Open Scope Z_scope.

Set Implicit Arguments.

(** ** Python values and exceptions *)

(** A Python 2 [str] holding command output: a sequence of bytes. *)
Abbreviation bytes := (list ascii) (only parsing).

Definition b (s : string) : bytes := list_ascii_of_string s.

Inductive exn : Type :=
| AttributeError (attr : string)
| TypeError (msg : string)
| ValueError (msg : string)
| IndexError
| UnboundLocalError (var : string)
| DoesNotExist
| MultipleObjectsReturned
| PyException (msg : string)        (* raise Exception(msg) *)
| FieldError (field : string)       (* a filter keyword that names no field *)
| ExternalError (what : string).    (* raised by a library outside the repository *)

Inductive result (A : Type) : Type :=
| Ok (a : A)
| Raise (e : exn).
Arguments Ok {A} a.
Arguments Raise {A} e.

(** ** The data model (rows as [models.Model] subclasses declare them) *)

Module BuildState.
Definition BUILDING : Z := 1.
Definition SUCCESFULLY_BUILT : Z := 2.
Definition CHROOT_PROBLEM : Z := 3.
Definition BUILD_FOR_SUPERSEDED_SOURCE : Z := 4.
Definition FAILED_TO_BUILD : Z := 5.
Definition DEPENDENCY_WAIT : Z := 6.
Definition FAILED_TO_UPLOAD : Z := 7.
Definition NEEDS_BUILDING : Z := 8.
End BuildState.

Module NodeState.
Definition NEW : Z := 0.
Definition BOOTING : Z := 1.
Definition PREPARING : Z := 2.
Definition READY : Z := 3.
Definition BUILDING : Z := 4.
Definition SHUTTING_DOWN : Z := 5.
End NodeState.

Record Architecture := {
  arch_name : string;
  builds_arch_all : bool
}.

(** [BuildRecord] declares no primary key, so Django adds the automatic
    integer field [id]. *)
Record BuildRecord := {
  br_id : Z;
  source_package_name : string;
  version : string;
  architecture : Architecture;
  br_state : Z;
  priority : Z;
  series : string;
  build_node : option string;      (* ForeignKey('BuildNode', null=True) *)
  created : Z
}.

(** [BuildNode] declares [name] as its primary key: the class has no [id]
    field. *)
Record BuildNode := {
  bn_name : string;
  bn_cloud : string;
  cloud_node_id : string;
  bn_state : Z;
  signing_key_id : string
}.

Record Cloud := {
  cloud_name : string;
  flavor_name : string;
  image_name : string
}.

Record KeyPair := {
  kp_cloud : string;
  kp_name : string;
  private_key : string;
  public_key : string
}.

(** The durable store. *)
Record Store := {
  buildrecords : list BuildRecord;
  buildnodes : list BuildNode;
  keypairs : list KeyPair;
  clouds : list Cloud
}.

Definition set_buildrecords (rs : list BuildRecord) (s : Store) : Store :=
  {| buildrecords := rs; buildnodes := buildnodes s;
     keypairs := keypairs s; clouds := clouds s |}.

Definition set_buildnodes (ns : list BuildNode) (s : Store) : Store :=
  {| buildrecords := buildrecords s; buildnodes := ns;
     keypairs := keypairs s; clouds := clouds s |}.

Definition set_keypairs (ks : list KeyPair) (s : Store) : Store :=
  {| buildrecords := buildrecords s; buildnodes := buildnodes s;
     keypairs := ks; clouds := clouds s |}.

(** Field setters (Python attribute assignment on a row object). *)
Definition with_br_state (st : Z) (r : BuildRecord) : BuildRecord :=
  {| br_id := br_id r; source_package_name := source_package_name r;
     version := version r; architecture := architecture r;
     br_state := st; priority := priority r; series := series r;
     build_node := build_node r; created := created r |}.

Definition with_build_node (n : option string) (r : BuildRecord) : BuildRecord :=
  {| br_id := br_id r; source_package_name := source_package_name r;
     version := version r; architecture := architecture r;
     br_state := br_state r; priority := priority r; series := series r;
     build_node := n; created := created r |}.

Definition with_bn_state (st : Z) (n : BuildNode) : BuildNode :=
  {| bn_name := bn_name n; bn_cloud := bn_cloud n;
     cloud_node_id := cloud_node_id n; bn_state := st;
     signing_key_id := signing_key_id n |}.

Definition with_signing_key_id (k : string) (n : BuildNode) : BuildNode :=
  {| bn_name := bn_name n; bn_cloud := bn_cloud n;
     cloud_node_id := cloud_node_id n; bn_state := bn_state n;
     signing_key_id := k |}.

(** ** The ORM operations the code uses *)

Module Orm.
Section Table.
Variable Row : Type.

(** [QuerySet.update]: every row matching the filter is rewritten in
    place; the number of matched rows is returned. *)
Fixpoint update (p : Row -> bool) (f : Row -> Row) (rows : list Row)
  : nat * list Row :=
  match rows with
  | [] => (O, [])
  | r :: rest =>
      let (n, rest') := update p f rest in
      if p r then (S n, f r :: rest') else (n, r :: rest')
  end.

(** [QuerySet.get]: exactly one match, or an exception. *)
Definition get (p : Row -> bool) (rows : list Row) : result Row :=
  match filter p rows with
  | [] => Raise DoesNotExist
  | [r] => Ok r
  | _ => Raise MultipleObjectsReturned
  end.

(** [Model.save] of an object whose primary key is [key]: the row with
    that key is overwritten, or the object is inserted. *)
Definition save (p : Row -> bool) (obj : Row) (rows : list Row) : list Row :=
  if existsb p rows
  then snd (update p (fun _ => obj) rows)
  else rows ++ [obj].

(** [Model.delete]: the rows with that key are removed. *)
Definition delete (p : Row -> bool) (rows : list Row) : list Row :=
  filter (fun r => negb (p r)) rows.
End Table.

(** [order_by('-priority')]: a stable sort by descending key; among equal
    keys the table order is kept. *)
Section OrderBy.
Variable Row : Type.
Variable key : Row -> Z.

Fixpoint insert_desc (r : Row) (sorted : list Row) : list Row :=
  match sorted with
  | [] => [r]
  | x :: rest =>
      if key x <=? key r then r :: sorted else x :: insert_desc r rest
  end.

Fixpoint order_by_desc (rows : list Row) : list Row :=
  match rows with
  | [] => []
  | r :: rest => insert_desc r (order_by_desc rest)
  end.
End OrderBy.
End Orm.

(** Python's [seq[0]]. *)
Definition index0 (A : Type) (l : list A) : result A :=
  match l with
  | [] => Raise IndexError
  | x :: _ => Ok x
  end.

Definition is_null (A : Type) (o : option A) : bool :=
  match o with None => true | Some _ => false end.

(** ** Django's automatic [id] field

    A model class gets the automatic field [id] only when none of its fields
    is declared with [primary_key=True].  Reading [self.id] on an instance of
    a class without that field raises [AttributeError]. *)
Record ModelMeta := {
  model_name : string;
  explicit_pk : option string
}.

Definition has_id_field (m : ModelMeta) : bool :=
  match explicit_pk m with
  | None => true
  | Some f => String.eqb f "id"
  end.

Definition getattr_id (m : ModelMeta) (auto_id : option Z) : result Z :=
  match has_id_field m, auto_id with
  | true, Some i => Ok i
  | _, _ => Raise (AttributeError "id")
  end.

Definition BuildRecord_meta : ModelMeta :=
  {| model_name := "BuildRecord"; explicit_pk := None |}.

Definition BuildNode_meta : ModelMeta :=
  {| model_name := "BuildNode"; explicit_pk := Some "name" |}.

(** ** BuildRecord *)

Module BuildRecord.

(** [update_state]: a write of [state] to the rows whose [id] is
    [self.id], then the same assignment on the cached object. *)
Definition update_state (self : BuildRecord) (new_state : Z) (s : Store)
  : result (BuildRecord * Store) :=
  match getattr_id BuildRecord_meta (Some (br_id self)) with
  | Raise e => Raise e
  | Ok i =>
      let rows :=
        snd (Orm.update (fun r => br_id r =? i)
                        (with_br_state new_state) (buildrecords s)) in
      Ok (with_br_state new_state self, set_buildrecords rows s)
  end.

(** [pending_builds]: [filter(state=NEEDS_BUILDING, build_node__isnull=True)]. *)
Definition pending (r : BuildRecord) : bool :=
  (br_state r =? BuildState.NEEDS_BUILDING) && is_null (build_node r).

Definition pending_builds (rows : list BuildRecord) : list BuildRecord :=
  filter pending rows.

Definition pending_build_count (rows : list BuildRecord) : nat :=
  List.length (pending_builds rows).

(** *** [pick_build], one database statement at a time

    The body of [pick_build] touches the database in three statements:
    the ordered read of the pending builds, the conditional update, and
    the final [get].  A caller is at one of these, or has returned. *)
Inductive pc : Type :=
| AtScan
| AtUpdate (next_build : BuildRecord)
| AtGet (next_build : BuildRecord)
| Returned (r : result (option BuildRecord)).

(** The filter of the conditional update:
    [filter(id=next_build.id, build_node__isnull=True)]. *)
Definition claimable (i : Z) (r : BuildRecord) : bool :=
  (br_id r =? i) && is_null (build_node r).

Definition conditional_update (i : Z) (node : string) (rows : list BuildRecord)
  : nat * list BuildRecord :=
  Orm.update (claimable i) (with_build_node (Some node)) rows.

Definition pick_step (node : string) (p : pc) (rows : list BuildRecord)
  : pc * list BuildRecord :=
  match p with
  | AtScan =>
      let builds := pending_builds rows in
      match index0 (Orm.order_by_desc priority builds) with
      | Raise _ => (Returned (Ok None), rows)           (* except IndexError *)
      | Ok next_build => (AtUpdate next_build, rows)
      end
  | AtUpdate next_build =>
      let (matches, rows') := conditional_update (br_id next_build) node rows in
      if Nat.eqb matches 1 then (AtGet next_build, rows')
      else (AtScan, rows')                               (* continue *)
  | AtGet next_build =>
      match Orm.get (fun r => br_id r =? br_id next_build) rows with
      | Ok r => (Returned (Ok (Some r)), rows)
      | Raise e => (Returned (Raise e), rows)
      end
  | Returned r => (Returned r, rows)
  end.

(** A single caller running alone: the statements in sequence.  [None]
    is "still running when the fuel ran out". *)
Fixpoint run (fuel : nat) (node : string) (p : pc) (rows : list BuildRecord)
  : option (result (option BuildRecord) * list BuildRecord) :=
  match p with
  | Returned r => Some (r, rows)
  | _ =>
      match fuel with
      | O => None
      | S fuel' =>
          let (p', rows') := pick_step node p rows in
          run fuel' node p' rows'
      end
  end.

Definition pick_build (fuel : nat) (build_node : BuildNode) (s : Store)
  : option (result (option BuildRecord) * Store) :=
  match run fuel (bn_name build_node) AtScan (buildrecords s) with
  | None => None
  | Some (r, rows) => Some (r, set_buildrecords rows s)
  end.

(** *** Concurrent callers

    Each caller has its own node and its own position; the database is
    shared.  A step of the system is one statement of one caller. *)
Record caller := { c_node : string; c_pc : pc }.

Record system := { db : list BuildRecord; callers : list caller }.

Inductive step : system -> system -> Prop :=
| step_caller rows pre c post p' rows' :
    pick_step (c_node c) (c_pc c) rows = (p', rows') ->
    step {| db := rows; callers := pre ++ c :: post |}
         {| db := rows';
            callers := pre ++ {| c_node := c_node c; c_pc := p' |} :: post |}.

Inductive steps : system -> system -> Prop :=
| steps_refl s : steps s s
| steps_more s1 s2 s3 : step s1 s2 -> steps s2 s3 -> steps s1 s3.

(** The record a caller has won, if any. *)
Definition holds (p : pc) : option Z :=
  match p with
  | AtGet next_build => Some (br_id next_build)
  | Returned (Ok (Some r)) => Some (br_id r)
  | _ => None
  end.

Definition held_ids (cs : list caller) : list Z :=
  flat_map (fun c => match holds (c_pc c) with
                     | Some i => [i]
                     | None => []
                     end) cs.

Definition initial (s : system) : Prop :=
  NoDup (map br_id (db s)) /\ Forall (fun c => c_pc c = AtScan) (callers s).

(** The caller [c] holds a record only if the database has that record
    assigned to [c]'s node. *)
Definition holds_assigned (rows : list BuildRecord) (c : caller) : Prop :=
  forall i, holds (c_pc c) = Some i ->
  exists r, In r rows /\ br_id r = i /\ build_node r = Some (c_node c).

Definition claim_invariant (s : system) : Prop :=
  NoDup (map br_id (db s)) /\
  NoDup (held_ids (callers s)) /\
  Forall (holds_assigned (db s)) (callers s).

End BuildRecord.

(** ** Effects: state, exceptions, non-termination

    A computation runs on a state [S] and returns a value, raises with the
    state reached so far, or runs forever ([Diverge], which in the
    executable model is "the fuel of an unbounded loop ran out"). *)

Inductive outcome (S A : Type) : Type :=
| Ret (a : A) (s : S)
| Exc (e : exn) (s : S)
| Diverge.
Arguments Ret {S A} a s.
Arguments Exc {S A} e s.
Arguments Diverge {S A}.

Definition M (S A : Type) : Type := S -> outcome S A.

Definition ret {S A} (a : A) : M S A := fun s => Ret a s.

Definition raise {S A} (e : exn) : M S A := fun s => Exc e s.

Definition bind {S A B} (m : M S A) (k : A -> M S B) : M S B :=
  fun s => match m s with
           | Ret a s' => k a s'
           | Exc e s' => Exc e s'
           | Diverge => Diverge
           end.

(** [try: m except Exception, e: h e] *)
Definition try_except {S A} (m : M S A) (h : exn -> M S A) : M S A :=
  fun s => match m s with
           | Exc e s' => h e s'
           | o => o
           end.

Definition get_state {S} : M S S := fun s => Ret s s.

Definition modify {S} (f : S -> S) : M S unit := fun s => Ret tt (f s).

Definition lift_result {S A} (r : result A) : M S A :=
  match r with
  | Ok a => ret a
  | Raise e => raise e
  end.

Declare Scope py_scope.
Delimit Scope py_scope with py.
Notation "x <- m ;; k" := (bind m (fun x => k))
  (at level 61, m at next level, right associativity) : py_scope.
Notation "m ;; k" := (bind m (fun _ => k))
  (at level 61, right associativity) : py_scope.

(** ** Python strings *)

Module Py.
(** [fmt % args] for the conversions the code uses ([%s], [%d], [%%]);
    the number of arguments has to match the number of conversions. *)
Fixpoint format (fmt : string) (args : list string) : result string :=
  match fmt with
  | EmptyString =>
      match args with
      | [] => Ok EmptyString
      | _ => Raise (TypeError "not all arguments converted during string formatting")
      end
  | String "%" EmptyString => Raise (ValueError "incomplete format")
  | String "%" (String c rest) =>
      if Ascii.eqb c "%" then
        match format rest args with
        | Ok s => Ok (String "%" s)
        | Raise e => Raise e
        end
      else
        match args with
        | [] => Raise (TypeError "not enough arguments for format string")
        | a :: args' =>
            match format rest args' with
            | Ok s => Ok (a ++ s)%string
            | Raise e => Raise e
            end
        end
  | String c rest =>
      match format rest args with
      | Ok s => Ok (String c s)
      | Raise e => Raise e
      end
  end.

(** [s.split(sep)] for a one-character separator. *)
Fixpoint split (sep : ascii) (s : bytes) : list bytes :=
  match s with
  | [] => [[]]
  | c :: rest =>
      if Ascii.eqb c sep then [] :: split sep rest
      else match split sep rest with
           | [] => [[c]]
           | w :: ws => (c :: w) :: ws
           end
  end.

Fixpoint startswith (s prefix : bytes) : bool :=
  match prefix, s with
  | [], _ => true
  | p :: prefix', c :: s' => Ascii.eqb c p && startswith s' prefix'
  | _ :: _, [] => false
  end.

(** [seq[i]] *)
Definition index (A : Type) (l : list A) (i : nat) : result A :=
  match nth_error l i with
  | Some x => Ok x
  | None => Raise IndexError
  end.

Definition str_of_int (z : Z) : string :=
  DecimalString.NilZero.string_of_int (Z.to_int z).

Definition newline : ascii := ascii_of_nat 10.
End Py.

(** ** The remote side of a command

    What the remote process does: it writes to its standard output and
    standard error, pauses, and exits with a status. *)
Inductive emission : Type :=
| Stdout (s : bytes)
| Stderr (s : bytes)
| Quiet.                       (* a second without output *)

Record process := {
  emissions : list emission;
  exit_status : Z
}.

(** What opening the session and starting the command gives. *)
Inductive ssh_reply : Type :=
| ConnectFails (e : exn)
| Runs (p : process).

(** The channel of the SSH library, as [run_cmd] uses it. *)
Module Channel.
Record t := {
  in_buffer : bytes;
  in_stderr_buffer : bytes;
  combine_stderr : bool;
  remote : list emission;      (* not yet received *)
  status : Z
}.

Definition exec_command (p : process) : t :=
  {| in_buffer := []; in_stderr_buffer := []; combine_stderr := false;
     remote := emissions p; status := exit_status p |}.

(** Turning the flag on moves what the error buffer holds to the main
    buffer. *)
Definition set_combine_stderr (combine : bool) (c : t) : t :=
  if combine && negb (combine_stderr c)
  then {| in_buffer := in_buffer c ++ in_stderr_buffer c;
          in_stderr_buffer := []; combine_stderr := true;
          remote := remote c; status := status c |}
  else {| in_buffer := in_buffer c; in_stderr_buffer := in_stderr_buffer c;
          combine_stderr := combine;
          remote := remote c; status := status c |}.

(** One arrival from the remote side. *)
Definition feed (e : emission) (rest : list emission) (c : t) : t :=
  match e with
  | Stdout s =>
      {| in_buffer := in_buffer c ++ s; in_stderr_buffer := in_stderr_buffer c;
         combine_stderr := combine_stderr c; remote := rest; status := status c |}
  | Stderr s =>
      if combine_stderr c
      then {| in_buffer := in_buffer c ++ s;
              in_stderr_buffer := in_stderr_buffer c;
              combine_stderr := combine_stderr c; remote := rest;
              status := status c |}
      else {| in_buffer := in_buffer c;
              in_stderr_buffer := in_stderr_buffer c ++ s;
              combine_stderr := combine_stderr c; remote := rest;
              status := status c |}
  | Quiet =>
      {| in_buffer := in_buffer c; in_stderr_buffer := in_stderr_buffer c;
         combine_stderr := combine_stderr c; remote := rest; status := status c |}
  end.

Definition recv_ready (c : t) : bool :=
  match in_buffer c with [] => false | _ :: _ => true end.

(** [select.select([chan], [], [], 1)]: the channel is readable when data
    is buffered or the remote side has closed; otherwise up to a second
    passes, during which the next arrival comes in. *)
Definition select (c : t) : bool * t :=
  if recv_ready c then (true, c)
  else match remote c with
       | [] => (true, c)
       | e :: rest => let c' := feed e rest c in (recv_ready c', c')
       end.

Definition recv (nbytes : nat) (c : t) : bytes * t :=
  (firstn nbytes (in_buffer c),
   {| in_buffer := skipn nbytes (in_buffer c);
      in_stderr_buffer := in_stderr_buffer c;
      combine_stderr := combine_stderr c;
      remote := remote c; status := status c |}).

Definition recv_exit_status (c : t) : Z := status c.

Definition payload (e : emission) : bytes :=
  match e with Stdout s => s | Stderr s => s | Quiet => [] end.

(** A bound on the number of [select] calls before the channel is
    drained and closed. *)
Definition budget (c : t) : nat :=
  S (List.length (remote c) + List.length (in_buffer c)
     + List.length (List.concat (map payload (remote c)))).
End Channel.

(** A generator, seen from its consumer: what it yields, and how it ends. *)
Definition gen_trace : Type := list bytes * result unit.

(** The settings the code reads. *)
Record Settings := {
  USE_FLOATING_IPS : bool;
  BASE_URL : string
}.

(** ** The world outside the process *)

Inductive cloud_op : Type :=
| ServerNetworks (server_id : string)     (* servers.get(id).networks.values()[0] *)
| ServerDelete (server_id : string)       (* servers.get(id).delete() *)
| ServerRemoveFloatingIp (server_id ip : string)
| ServerAddFloatingIp (server_id ip : string)
| ServersList
| ServersCreate (name image flavor key_name : string)
| KeypairsList
| KeypairsCreate (name : string)
| FloatingIpsFind (ip : string)
| FloatingIpsCreate
| FloatingIpDelete (ip : string)
| GetFlavorByName (name : string)
| GetImageByRegex (regex : string).

Inductive ext_call : Type :=
| SshExec (node cmd : string) (input : option bytes)
| LocalCmd (argv : list string) (input : option bytes)     (* utils.run_cmd *)
| WriteConfiguration (series : string)
| CloudCall (cloud : string) (op : cloud_op)
| Random.

(** The environment answers the [n]-th external call of a run. *)
Record Env := {
  ssh_exec : nat -> string -> string -> option bytes -> ssh_reply;
  local_cmd : nat -> list string -> option bytes -> result bytes;
  write_configuration : nat -> string -> result unit;
  cloud_api : nat -> string -> cloud_op -> result (list string);
  random : nat -> nat
}.

Record World := {
  store : Store;
  clock : Z;                     (* seconds spent in time.sleep *)
  history : list ext_call        (* the external calls made so far *)
}.

Definition set_store (s : Store) (w : World) : World :=
  {| store := s; clock := clock w; history := history w |}.

Definition record_call (c : ext_call) (w : World) : World :=
  {| store := store w; clock := clock w; history := history w ++ [c] |}.

Definition sleep (seconds : Z) : M World unit :=
  fun w => Ret tt {| store := store w; clock := clock w + seconds;
                     history := history w |}.

(** The objects a method of [BuildNode] works on: the node object itself
    and the [build_record] argument, both mutable, and the world. *)
Record Ctx := {
  self : BuildNode;
  build_record : option BuildRecord;
  world : World
}.

Definition set_self (n : BuildNode) (c : Ctx) : Ctx :=
  {| self := n; build_record := build_record c; world := world c |}.

Definition set_build_record (r : option BuildRecord) (c : Ctx) : Ctx :=
  {| self := self c; build_record := r; world := world c |}.

Definition set_world (w : World) (c : Ctx) : Ctx :=
  {| self := self c; build_record := build_record c; world := w |}.

Definition in_world {A} (m : M World A) : M Ctx A :=
  fun c => match m (world c) with
           | Ret a w => Ret a (set_world w c)
           | Exc e w => Exc e (set_world w c)
           | Diverge => Diverge
           end.

(** ** BuildNode *)

Module BuildNode.
Local Open Scope py_scope.

Section Methods.
Variable env : Env.
Variable settings : Settings.

(** An external call: the environment's answer, and the call recorded. *)
Definition ask {A} (c : ext_call) (answer : nat -> result A) : M World A :=
  fun w => match answer (List.length (history w)) with
           | Ok a => Ret a (record_call c w)
           | Raise e => Exc e (record_call c w)
           end.

Definition cloud_call (cloud : string) (op : cloud_op) : M World (list string) :=
  ask (CloudCall cloud op) (fun n => cloud_api env n cloud op).

Definition utils_run_cmd (argv : list string) (input : option bytes)
  : M World bytes :=
  ask (LocalCmd argv input) (fun n => local_cmd env n argv input).

(** [logger.info(fmt % args)]: only the formatting can fail. *)
Definition log_fmt {S} (fmt : string) (args : list string) : M S unit :=
  _ <- lift_result (Py.format fmt args) ;; ret tt.

(** *** The transport: [run_cmd]

    The receive loop of [run_cmd] on an open channel.  Each round is
    one [select]; [fuel] bounds the number of rounds. *)
Fixpoint recv_loop (fuel : nat) (cmd : string) (chan : Channel.t)
  : option gen_trace :=
  match fuel with
  | O => None
  | S fuel' =>
      let (r, chan) := Channel.select chan in
      if r then
        if Channel.recv_ready chan then
          let (s, chan) := Channel.recv 4096 chan in
          if Nat.eqb (List.length s) 0 then Some ([], Ok tt)       (* break *)
          else
            match recv_loop fuel' cmd chan with                    (* yield s *)
            | Some (ys, fin) => Some (s :: ys, fin)
            | None => None
            end
        else
          let status := Channel.recv_exit_status chan in
          if negb (status =? 0)
          then Some ([], Raise (PyException ("Command " ++ cmd ++ " failed")))
          else Some ([], Ok tt)                                    (* break *)
      else recv_loop fuel' cmd chan
  end.

(** [run_cmd(cmd, input)] given what the connection attempt gives.  The
    [input] is sent before the loop; what the process does with it is part
    of the environment's answer. *)
Definition run_cmd (cmd : string) (input : option bytes) (reply : ssh_reply)
  : option gen_trace :=
  match reply with
  | ConnectFails e => Some ([], Raise e)
  | Runs p =>
      let chan := Channel.exec_command p in
      let chan := Channel.set_combine_stderr true chan in
      recv_loop (Channel.budget chan) cmd chan
  end.

(** *** [_run_cmd]: the output collected, whole lines logged *)

(** [log_whole_lines(lbuf)]: the lines logged and the rest. *)
Definition log_whole_lines (lbuf : bytes) : list bytes * bytes :=
  let parts := Py.split Py.newline lbuf in
  (removelast parts, last parts []).

Fixpoint consume (ys : list bytes) (out lbuf : bytes) (logged : list bytes)
  : bytes * bytes * list bytes :=
  match ys with
  | [] => (out, lbuf, logged)
  | data :: ys' =>
      let out := out ++ data in
      let lbuf := lbuf ++ data in
      let (lines, lbuf) := log_whole_lines lbuf in
      consume ys' out lbuf (logged ++ lines)
  end.

(** The lines logged and the result of [_run_cmd] on a run of the
    generator. *)
Definition collect (t : gen_trace) : list bytes * result bytes :=
  let '(out, lbuf, logged) := consume (fst t) [] [] [] in
  match snd t with
  | Raise e => (logged, Raise e)
  | Ok _ =>
      let (lines, lbuf) := log_whole_lines lbuf in
      (logged ++ lines ++ [lbuf], Ok out)
  end.

Definition _run_cmd (cmd : string) (input : option bytes) : M Ctx bytes :=
  fun c =>
    let w := world c in
    let reply :=
      ssh_exec env (List.length (history w)) (bn_name (self c)) cmd input in
    let c' := set_world (record_call (SshExec (bn_name (self c)) cmd input) w) c in
    match run_cmd cmd input reply with
    | None => Diverge
    | Some t =>
        match snd (collect t) with
        | Ok out => Ret out c'
        | Raise e => Exc e c'
        end
    end.

(** *** State *)

(** [update_state]: [filter(id=self.id)] on a class whose primary key is
    [name]. *)
Definition update_state (new_state : Z) : M Ctx unit :=
  fun c =>
    match getattr_id BuildNode_meta None with
    | Raise e => Exc e c
    | Ok _ => Exc (FieldError "id") c
    end.

(** The same write keyed by the primary key, as [BuildRecord.update_state]
    does for its class. *)
Definition update_state_by_pk (new_state : Z) : M Ctx unit :=
  fun c =>
    let w := world c in
    let rows :=
      snd (Orm.update (fun n => String.eqb (bn_name n) (bn_name (self c)))
                      (with_bn_state new_state) (buildnodes (store w))) in
    Ret tt {| self := with_bn_state new_state (self c);
              build_record := build_record c;
              world := set_store (set_buildnodes rows (store w)) w |}.

(** [self.state = st] *)
Definition assign_state (st : Z) : M Ctx unit :=
  modify (fun c => set_self (with_bn_state st (self c)) c).

(** [self.save()] *)
Definition save : M Ctx unit :=
  modify (fun c =>
    let w := world c in
    let rows :=
      Orm.save (fun n => String.eqb (bn_name n) (bn_name (self c)))
               (self c) (buildnodes (store w)) in
    set_world (set_store (set_buildnodes rows (store w)) w) c).

(** [build_record.update_state(new_state)] *)
Definition record_update_state (new_state : Z) : M Ctx unit :=
  fun c =>
    match build_record c with
    | None => Exc (AttributeError "update_state") c
    | Some r =>
        match BuildRecord.update_state r new_state (store (world c)) with
        | Ok (r', s') =>
            Ret tt {| self := self c; build_record := Some r';
                      world := set_store s' (world c) |}
        | Raise e => Exc e c
        end
    end.

(** [build_record.<attr>] *)
Definition record_attr {A} (attr : string) (f : BuildRecord -> A) : M Ctx A :=
  fun c =>
    match build_record c with
    | None => Exc (AttributeError attr) c
    | Some r => Ret (f r) c
    end.

(** *** [delete] *)

Definition ip : M Ctx string :=
  c <- get_state ;;
  addresses <- in_world (cloud_call (bn_cloud (self c))
                           (ServerNetworks (cloud_node_id (self c)))) ;;
  lift_result
    (Py.index addresses (if USE_FLOATING_IPS settings then 1%nat else 0%nat)).

Definition references (name : string) (r : BuildRecord) : bool :=
  match build_node r with
  | Some n => String.eqb n name
  | None => false
  end.

(** [delete].  The last statement, [Model.delete], removes the row of the
    node and, as the foreign key of [BuildRecord] cascades, the rows that
    still reference it; the statement before it has cleared these
    references.  (Django also clears the primary key attribute of the
    deleted object; no method is run on the object after that here.) *)
Definition delete : M Ctx unit :=
  c <- get_state ;;
  let name := bn_name (self c) in
  let cloud := bn_cloud (self c) in
  (if USE_FLOATING_IPS settings then
     floating_ip <- ip ;;
     in_world (cloud_call cloud (FloatingIpsFind floating_ip)) ;;
     log_fmt "Unassigning floating ip %s from server %s on cloud %s."
             [floating_ip; name; cloud] ;;
     in_world (cloud_call cloud
                 (ServerRemoveFloatingIp (cloud_node_id (self c)) floating_ip)) ;;
     log_fmt "Deleting floating ip %s on cloud %s."
             [floating_ip; name; cloud] ;;
     in_world (cloud_call cloud (FloatingIpDelete floating_ip)) ;;
     ret tt
   else ret tt) ;;
  log_fmt "Deleting server %s on cloud %s." [name; cloud] ;;
  in_world (cloud_call cloud (ServerDelete (cloud_node_id (self c)))) ;;
  (if negb (String.eqb (signing_key_id (self c)) "") then
     log_fmt "Deleting signing key for build node %s: %s"
             [name; signing_key_id (self c)] ;;
     in_world (utils_run_cmd ["gpg"; "--batch"; "--yes"; "--delete-keys";
                              signing_key_id (self c)] None) ;;
     ret tt
   else ret tt) ;;
  log_fmt "Removing all references from BuildRecords to BuildNode %s" [name] ;;
  (* self.buildrecord_set.all().update(build_node=None) *)
  modify (fun c =>
    let w := world c in
    let rows := snd (Orm.update (references name) (with_build_node None)
                                (buildrecords (store w))) in
    set_world (set_store (set_buildrecords rows (store w)) w) c) ;;
  log_fmt "Deleting BuildNode %s" [name] ;;
  (* super(BuildNode, self).delete(): the row, and the rows that still
     reference it *)
  modify (fun c =>
    let w := world c in
    let s := store w in
    let records := Orm.delete (references name) (buildrecords s) in
    let nodes := Orm.delete (fun n => String.eqb (bn_name n) name)
                            (buildnodes s) in
    set_world (set_store (set_buildnodes nodes (set_buildrecords records s)) w) c).

(** *** [prepare] *)

(** The text that [textwrap.dedent] leaves of the key parameter
    command, before the node's name is filled in. *)
Definition keygen_command : string := "

cat <<EOF > keygen.param
Key-Type: 1
Key-Length: 4096
Subkey-Type: ELG-E
Subkey-Length: 4096
Name-Real: %s signing key
Expire-Date: 0
%%commit
EOF".

(** [for l in out.split('\n'): if l.startswith('gpg: key '): key_id = l.split(' ')[2]];
    [None] is "key_id was never assigned". *)
Fixpoint scan_key_id (lines : list bytes) (key_id : option bytes)
  : result (option bytes) :=
  match lines with
  | [] => Ok key_id
  | l :: rest =>
      if Py.startswith l (b "gpg: key ") then
        match Py.index (Py.split " " l) 2 with
        | Ok k => scan_key_id rest (Some k)
        | Raise e => Raise e
        end
      else scan_key_id rest key_id
  end.

Definition parse_key_id (out : bytes) : result string :=
  match scan_key_id (Py.split Py.newline out) None with
  | Ok (Some k) => Ok (string_of_list_ascii k)
  | Ok None => Raise (UnboundLocalError "key_id")
  | Raise e => Raise e
  end.

(** The connectivity wait: [while True: try: self._run_cmd('id'); break
    except Exception, e: print e; time.sleep(5)]. *)
Fixpoint wait_for_connection (fuel : nat) : M Ctx unit :=
  match fuel with
  | O => fun _ => Diverge
  | S fuel' =>
      connected <- try_except (_ <- _run_cmd "id" None ;; ret true)
                              (fun e => ret false) ;;
      if connected : bool then ret tt
      else in_world (sleep 5) ;; wait_for_connection fuel'
  end.

(** The statements of the [try] block that follow the wait. *)
Definition bootstrap : M Ctx unit :=
  assign_state NodeState.PREPARING ;;
  save ;;
  _run_cmd "sudo apt-get update" None ;;
  _run_cmd "sudo DEBIAN_FRONTEND=noninteractive apt-get -y --force-yes install puppet"
           None ;;
  record_id <- record_attr "id" br_id ;;
  wget <- lift_result (Py.format "sudo wget -O puppet.pp %s/puppet/%s/"
                         [BASE_URL settings; Py.str_of_int record_id]) ;;
  _run_cmd wget None ;;
  _run_cmd "sudo -H puppet apply --verbose puppet.pp" None ;;
  c <- get_state ;;
  keygen <- lift_result (Py.format keygen_command [bn_name (self c)]) ;;
  _run_cmd keygen None ;;
  out <- _run_cmd "gpg --gen-key --batch keygen.param" None ;;
  key_id <- lift_result (parse_key_id out) ;;
  modify (fun c => set_self (with_signing_key_id key_id (self c)) c) ;;
  export <- lift_result (Py.format "gpg -a --export %s" [key_id]) ;;
  public_key_data <- _run_cmd export None ;;
  in_world (utils_run_cmd ["gpg"; "--import"] (Some public_key_data)) ;;
  assign_state NodeState.READY ;;
  save ;;
  series_name <- record_attr "series" series ;;
  in_world (ask (WriteConfiguration series_name)
                (fun n => write_configuration env n series_name)).

Definition prepare (fuel : nat) : M Ctx unit :=
  assign_state NodeState.BOOTING ;;
  save ;;
  try_except
    (wait_for_connection fuel ;; bootstrap)
    (fun e =>
       c <- get_state ;;
       log_fmt "Preparing build node %s failed" [bn_name (self c)] ;;
       delete).

(** *** [build] *)

Definition sbuild_command (node : BuildNode) (r : BuildRecord) : string :=
  let sbuild_cmd :=
    ("cd build; sbuild -d " ++ series r ++ " "
     ++ "--arch=" ++ arch_name (architecture r) ++ " "
     ++ "-c buildchroot "
     ++ "-n -k" ++ signing_key_id node ++ " ")%string in
  let sbuild_cmd :=
    if builds_arch_all (architecture r) then (sbuild_cmd ++ "-A ")%string
    else sbuild_cmd in
  (sbuild_cmd ++ source_package_name r ++ "_" ++ version r)%string.

(** [build], with the node's [update_state] as a parameter. *)
Definition build_with (node_update_state : Z -> M Ctx unit) : M Ctx unit :=
  node_update_state NodeState.BUILDING ;;
  record_update_state BuildState.BUILDING ;;
  try_except
    (r <- record_attr "series" (fun r => r) ;;
     _run_cmd "mkdir build" None ;;
     c <- get_state ;;
     _run_cmd (sbuild_command (self c) r) None ;;
     _run_cmd "cd build; dput return *.changes" None ;;
     ret tt)
    (fun _ => ret tt) ;;                                  (* except Exception: pass *)
  record_update_state BuildState.SUCCESFULLY_BUILT ;;
  node_update_state NodeState.SHUTTING_DOWN.

Definition build : M Ctx unit := build_with update_state.

(** *** [start_new] *)

Definition random_nat : M World nat :=
  ask Random (fun n => Ok (random env n)).

(** [random.choice(seq)] *)
Definition choice {A} (seq : list A) : M World A :=
  n <- random_nat ;;
  lift_result (Py.index seq (n mod List.length seq)).

(** [while True: name = 'buildd-%d' % random.randint(1, 1000);
     if name not in names_to_avoid: return name] *)
Fixpoint unique_name (fuel : nat) (names_to_avoid : list string)
  : M World string :=
  match fuel with
  | O => fun _ => Diverge
  | S fuel' =>
      n <- random_nat ;;
      let name := ("buildd-" ++ Py.str_of_int (1 + Z.of_nat (n mod 1000)))%string in
      if existsb (String.eqb name) names_to_avoid
      then unique_name fuel' names_to_avoid
      else ret name
  end.

Definition get_unique_keypair_name (fuel : nat) (cloud : string)
  : M World string :=
  existing_keypair_names <- cloud_call cloud KeypairsList ;;
  unique_name fuel existing_keypair_names.

Definition get_unique_buildnode_name (fuel : nat) (cloud : string)
  : M World string :=
  existing_server_names <- cloud_call cloud ServersList ;;
  w <- get_state ;;
  let old_build_node_names := map bn_name (buildnodes (store w)) in
  unique_name fuel (existing_server_names ++ old_build_node_names).

(** [cloud.keypair_set] *)
Definition keypair_set (cloud : string) (s : Store) : list KeyPair :=
  filter (fun k => String.eqb (kp_cloud k) cloud) (keypairs s).

(** A field of the object a cloud call returned. *)
Definition field (i : nat) (reply : list string) : string := nth i reply "".

(** The 20 seconds in which the address is attached again and again; the
    clock of the model advances in [time.sleep] only, which makes it 20
    rounds. *)
Fixpoint attach_loop (rounds : nat) (cloud server_id ip : string)
         (succeeded : bool) : M World bool :=
  match rounds with
  | O => ret succeeded
  | S rounds' =>
      succeeded <-
        try_except (_ <- cloud_call cloud (ServerAddFloatingIp server_id ip) ;;
                    ret true)
                   (fun _ => ret succeeded) ;;
      sleep 1 ;;
      attach_loop rounds' cloud server_id ip succeeded
  end.

(** The key pair of the chosen cloud: the [if]/[else] of [start_new]. *)
Definition ensure_keypair (fuel : nat) (cl : string) : M World KeyPair :=
  w <- get_state ;;
  if (List.length (keypair_set cl (store w)) <? 1)%nat then
    log_fmt "Cloud %s does not have a keypair yet. Creating" [cl] ;;
    name <- get_unique_keypair_name fuel cl ;;
    kp <- cloud_call cl (KeypairsCreate name) ;;
    let keypair := {| kp_cloud := cl; kp_name := name;
                      private_key := field 0 kp;
                      public_key := field 1 kp |} in
    modify (fun w => set_store (set_keypairs (keypairs (store w) ++ [keypair])
                                             (store w)) w) ;;
    log_fmt "KeyPair %s created" [(name ++ "@" ++ cl)%string] ;;
    ret keypair
  else
    lift_result (index0 (keypair_set cl (store w))).

(** The floating address of a new server. *)
Definition attach_floating_ip (cl name srv_id : string) : M World unit :=
  log_fmt "Grabbing floating ip for server %s on cloud %s" [name; cl] ;;
  floating_ip <- cloud_call cl FloatingIpsCreate ;;
  let address := field 0 floating_ip in
  log_fmt "Got floating ip %s for server %s on cloud %s" [address; name; cl] ;;
  log_fmt "Assigning floating ip %s to server %s on cloud %s.Timing out in 20 seconds."
          [address; name; cl] ;;
  succeeded <- attach_loop 20 cl srv_id address false ;;
  if succeeded : bool then
    log_fmt "Assigned floating ip %s to server %s on cloud %s."
            [address; name; cl]
  else
    log_fmt "Failed to assign floating ip %s to server %s on cloud %s"
            [address; name; cl] ;;
    log_fmt "Deleting server %s on cloud %s" [name; cl] ;;
    cloud_call cl (ServerDelete srv_id) ;;
    log_fmt "Deleting floating ip %s on cloud %s" [address; cl] ;;
    cloud_call cl (FloatingIpDelete address) ;;
    raise (PyException "Failed to spawn node").

(** What follows the server creation: the address, and the new row. *)
Definition register_node (cl name srv_id : string) : M World BuildNode :=
  (if USE_FLOATING_IPS settings then attach_floating_ip cl name srv_id
   else ret tt) ;;
  let bn := {| bn_name := name; bn_cloud := cl; cloud_node_id := srv_id;
               bn_state := NodeState.NEW; signing_key_id := "" |} in
  modify (fun w =>
    let rows := Orm.save (fun n => String.eqb (bn_name n) name) bn
                         (buildnodes (store w)) in
    set_store (set_buildnodes rows (store w)) w) ;;
  ret bn.

Definition start_new (fuel : nat) : M World BuildNode :=
  w <- get_state ;;
  cloud <- choice (clouds (store w)) ;;
  let cl := cloud_name cloud in
  log_fmt "Picked cloud %s" [cl] ;;
  keypair <- ensure_keypair fuel cl ;;
  log_fmt "Using cached keypair: %s" [(kp_name keypair ++ "@" ++ cl)%string] ;;
  name <- get_unique_buildnode_name fuel cl ;;
  flavor <- cloud_call cl (GetFlavorByName (flavor_name cloud)) ;;
  image <- cloud_call cl (GetImageByRegex (image_name cloud)) ;;
  log_fmt "Creating server %s on cloud %s" [name; cl] ;;
  srv <- cloud_call cl (ServersCreate name (field 0 image) (field 0 flavor)
                                      (kp_name keypair)) ;;
  register_node cl name (field 0 srv).
End Methods.
End BuildNode.

(** ** Predicates used in the statements *)

(** The objects and the database are the same; only the record of external
    calls and the clock may differ. *)
Definition same_objects (c c' : Ctx) : Prop :=
  self c' = self c /\ build_record c' = build_record c /\
  store (world c') = store (world c).

(** Two rows that differ in [state] at most. *)
Definition same_but_state (r r' : BuildRecord) : Prop :=
  br_id r' = br_id r /\
  source_package_name r' = source_package_name r /\
  version r' = version r /\
  architecture r' = architecture r /\
  priority r' = priority r /\
  series r' = series r /\
  build_node r' = build_node r /\
  created r' = created r.

(** A computation that ends (returning or raising) in a context related
    to the one it started in. *)
Definition ends_with {A} (R : Ctx -> Ctx -> Prop) (m : M Ctx A) (c : Ctx) : Prop :=
  match m c with
  | Ret _ c' => R c c'
  | Exc _ c' => R c c'
  | Diverge => False
  end.

(** ... without touching the objects or the database. *)
Definition ends_keeping {A} (m : M Ctx A) (c : Ctx) : Prop :=
  ends_with same_objects m c.

(** The node keeps its name and the build records are as they were. *)
Definition same_records (c c' : Ctx) : Prop :=
  bn_name (self c') = bn_name (self c) /\
  build_record c' = build_record c /\
  buildrecords (store (world c')) = buildrecords (store (world c)).

(** Descending order: the head dominates the rest. *)
Definition head_max (Row : Type) (key : Row -> Z) (l : list Row) : Prop :=
  match l with
  | [] => True
  | x :: _ => forall c, In c l -> key c <= key x
  end.

(** The exception of [run_cmd] for a non-zero exit status. *)
Definition command_failed (cmd : string) : exn :=
  PyException ("Command " ++ cmd ++ " failed").

Definition finish_of (status : Z) (cmd : string) : result unit :=
  if status =? 0 then Ok tt else Raise (command_failed cmd).

Definition chunk_ok (y : bytes) : Prop :=
  y <> [] /\ (List.length y <= 4096)%nat.

Definition pending_output (chan : Channel.t) : bytes :=
  Channel.in_buffer chan ++ List.concat (map Channel.payload (Channel.remote chan)).

Definition combined_output (p : process) : bytes :=
  List.concat (map Channel.payload (emissions p)).

Definition no_newline (s : bytes) : Prop :=
  Py.split Py.newline s = [s].

(** What [_run_cmd] gives its caller for the [i]-th external call: the
    connection error, the failure of the command, or the whole output. *)
Definition remote_result (env : Env) (i : nat) (node cmd : string)
           (input : option bytes) : result bytes :=
  match ssh_exec env i node cmd input with
  | ConnectFails e => Raise e
  | Runs p =>
      if exit_status p =? 0 then Ok (combined_output p)
      else Raise (command_failed cmd)
  end.

(** The context after the external call [call]. *)
Definition called (call : ext_call) (c : Ctx) : Ctx :=
  set_world (record_call call (world c)) c.

(** The context after [time.sleep(seconds)]. *)
Definition slept (seconds : Z) (c : Ctx) : Ctx :=
  set_world {| store := store (world c); clock := clock (world c) + seconds;
               history := history (world c) |} c.

(** The connectivity probe answered as the [i]-th external call. *)
Definition probe_succeeds (env : Env) (node : string) (i : nat) : bool :=
  match remote_result env i node "id" None with
  | Ok _ => true
  | Raise _ => false
  end.

(** The context after [self.state = st; self.save()]. *)
Definition saved_in_state (st : Z) (c : Ctx) : Ctx :=
  let node := with_bn_state st (self c) in
  let w := world c in
  let rows := Orm.save (fun n => String.eqb (bn_name n) (bn_name node)) node
                       (buildnodes (store w)) in
  {| self := node; build_record := build_record c;
     world := set_store (set_buildnodes rows (store w)) w |}.

(** The first [n] probes of a wait that starts at [c] fail. *)
Definition probes_fail (env : Env) (c : Ctx) (n : nat) : Prop :=
  forall k, (k < n)%nat ->
    probe_succeeds env (bn_name (self c))
                   (List.length (history (world c)) + k) = false.

(** The external calls of [delete] answered without an exception, when
    floating addresses are not in use: the deletion of the server, and the
    revocation of the signing key if the node has one. *)
Definition revoke_argv (key : string) : list string :=
  ["gpg"; "--batch"; "--yes"; "--delete-keys"; key].

Definition teardown_ok (env : Env) (c : Ctx) : bool :=
  let i := List.length (history (world c)) in
  match cloud_api env i (bn_cloud (self c))
                  (ServerDelete (cloud_node_id (self c))) with
  | Raise _ => false
  | Ok _ =>
      if String.eqb (signing_key_id (self c)) "" then true
      else match local_cmd env (S i) (revoke_argv (signing_key_id (self c))) None with
           | Ok _ => true
           | Raise _ => false
           end
  end.

(** The store after the references to the node [name] are cleared and its
    row is removed. *)
Definition release (name : string) (r : BuildRecord) : BuildRecord :=
  if BuildNode.references name r then with_build_node None r else r.

Definition without_node (name : string) (s : Store) : Store :=
  {| buildrecords := map (release name) (buildrecords s);
     buildnodes := filter (fun n => negb (String.eqb (bn_name n) name)) (buildnodes s);
     keypairs := keypairs s;
     clouds := clouds s |}.

Definition probe_call (c : Ctx) : ext_call := SshExec (bn_name (self c)) "id" None.

(** The store as the last two statements of [delete] leave it. *)
Definition delete_store (name : string) (s : Store) : Store :=
  let cleared :=
    set_buildrecords (snd (Orm.update (BuildNode.references name)
                                      (with_build_node None) (buildrecords s))) s in
  set_buildnodes
    (Orm.delete (fun n => String.eqb (bn_name n) name) (buildnodes cleared))
    (set_buildrecords
       (Orm.delete (BuildNode.references name) (buildrecords cleared)) cleared).

Definition torn_down (c : Ctx) : Ctx :=
  set_world (set_store (delete_store (bn_name (self c)) (store (world c)))
                       (world c)) c.

Definition server_delete_call (c : Ctx) : ext_call :=
  CloudCall (bn_cloud (self c)) (ServerDelete (cloud_node_id (self c))).

Definition revoke_call (c : Ctx) : ext_call :=
  LocalCmd (revoke_argv (signing_key_id (self c))) None.

(** ** Statements about [start_new] *)

(** The outcome of a computation started in [w]: [Q] on return, [E] on an
    exception. *)
Definition sat {S A} (m : M S A) (w : S) (Q : A -> S -> Prop) (E : S -> Prop) : Prop :=
  match m w with
  | Ret a w' => Q a w'
  | Exc _ w' => E w'
  | Diverge => True
  end.

Definition creates_keypair (call : ext_call) : bool :=
  match call with
  | CloudCall _ (KeypairsCreate _) => true
  | _ => false
  end.

(** From [w] to [w'] the key pair table has not changed and the cloud has
    not been asked for a new key pair. *)
Definition quiet (w w' : World) : Prop :=
  keypairs (store w') = keypairs (store w) /\
  exists calls,
    history w' = history w ++ calls /\
    forallb (fun call => negb (creates_keypair call)) calls = true.

(** From [w] to [w'] the key pair table is the same, or has one more row,
    for a cloud that had none. *)
Definition at_most_one_created (w w' : World) : Prop :=
  keypairs (store w') = keypairs (store w) \/
  exists kp,
    keypairs (store w') = keypairs (store w) ++ [kp] /\
    BuildNode.keypair_set (kp_cloud kp) (store w) = [].

(** Every cloud has at most one cached key pair. *)
Definition one_keypair_per_cloud (s : Store) : Prop :=
  forall cl, (List.length (BuildNode.keypair_set cl s) <= 1)%nat.

(** The key pair [kp] that [start_new] uses for the cloud [cl]: created
    since [w], the cloud having had none, or the first one the cloud had in
    [w], nothing having happened to the key pairs since. *)
Definition keypair_ready (w : World) (cl : string) (kp : KeyPair) (w' : World) : Prop :=
  (BuildNode.keypair_set cl (store w) = [] /\ kp_cloud kp = cl /\
   keypairs (store w') = keypairs (store w) ++ [kp]) \/
  (exists rest, BuildNode.keypair_set cl (store w) = kp :: rest /\ quiet w w').

(** The server was created with the key pair [kp]. *)
Definition created_with (cl : string) (kp : KeyPair) (w' : World) : Prop :=
  exists name image flavor,
    In (CloudCall cl (ServersCreate name image flavor (kp_name kp))) (history w').

(** A computation that is quiet whatever its outcome. *)
Definition quietly {A} (m : M World A) : Prop :=
  forall w, sat m w (fun _ w' => quiet w w') (fun w' => quiet w w').

(** ** Concrete stores used in the examples *)

Definition example_record (i p : Z) : BuildRecord :=
  {| br_id := i; source_package_name := "pkg"; version := "1.0";
     architecture := {| arch_name := "amd64"; builds_arch_all := true |};
     br_state := BuildState.NEEDS_BUILDING; priority := p; series := "folsom";
     build_node := None; created := i |}.

Definition example_node : BuildNode :=
  {| bn_name := "buildd-1"; bn_cloud := "cloud"; cloud_node_id := "srv-1";
     bn_state := NodeState.NEW; signing_key_id := "" |}.

Definition example_store (rows : list BuildRecord) : Store :=
  {| buildrecords := rows; buildnodes := [example_node];
     keypairs := []; clouds := [] |}.

(** Two callers racing for the single pending record. *)
Definition race_start : BuildRecord.system :=
  {| BuildRecord.db := [example_record 1 10];
     BuildRecord.callers :=
       [ {| BuildRecord.c_node := "buildd-1"; BuildRecord.c_pc := BuildRecord.AtScan |};
         {| BuildRecord.c_node := "buildd-2"; BuildRecord.c_pc := BuildRecord.AtScan |} ] |}.

(** Both have scanned and the first has run its conditional update. *)
Definition race_claimed : BuildRecord.system :=
  {| BuildRecord.db := [with_build_node (Some "buildd-1") (example_record 1 10)];
     BuildRecord.callers :=
       [ {| BuildRecord.c_node := "buildd-1";
            BuildRecord.c_pc := BuildRecord.AtGet (example_record 1 10) |};
         {| BuildRecord.c_node := "buildd-2";
            BuildRecord.c_pc := BuildRecord.AtUpdate (example_record 1 10) |} ] |}.

(** The second has lost, scanned again and found nothing; the first has
    returned its record. *)
Definition race_end : BuildRecord.system :=
  {| BuildRecord.db := [with_build_node (Some "buildd-1") (example_record 1 10)];
     BuildRecord.callers :=
       [ {| BuildRecord.c_node := "buildd-1";
            BuildRecord.c_pc :=
              BuildRecord.Returned
                (Ok (Some (with_build_node (Some "buildd-1") (example_record 1 10)))) |};
         {| BuildRecord.c_node := "buildd-2";
            BuildRecord.c_pc := BuildRecord.Returned (Ok None) |} ] |}.


(** *** Environments *)

Definition keygen_output : list emission :=
  [Stderr (b "gpg: keyring created
"); Quiet;
   Stderr (b "gpg: key 1A2B3C4D marked as ultimately trusted
public and secret key created and signed.")].

Definition remote_ok (cmd : string) : ssh_reply :=
  Runs {| emissions := if String.eqb cmd "gpg --gen-key --batch keygen.param"
                       then keygen_output
                       else [Stdout (b "ok
")];
          exit_status := 0 |}.

(** Every external call succeeds. *)
Definition calm_env : Env :=
  {| ssh_exec := fun _ _ cmd _ => remote_ok cmd;
     local_cmd := fun _ _ _ => Ok [];
     write_configuration := fun _ _ => Ok tt;
     cloud_api := fun _ _ _ => Ok ["10.0.0.5"; "172.24.4.2"];
     random := fun n => n |}.

(** The node refuses the first [n] connections. *)
Definition flaky_env (n : nat) : Env :=
  {| ssh_exec := fun i _ cmd _ =>
       if (i <? n)%nat then ConnectFails (ExternalError "connection refused")
       else remote_ok cmd;
     local_cmd := local_cmd calm_env;
     write_configuration := write_configuration calm_env;
     cloud_api := cloud_api calm_env;
     random := random calm_env |}.

(** The node never accepts a connection. *)
Definition dead_env : Env :=
  {| ssh_exec := fun _ _ _ _ => ConnectFails (ExternalError "connection refused");
     local_cmd := local_cmd calm_env;
     write_configuration := write_configuration calm_env;
     cloud_api := cloud_api calm_env;
     random := random calm_env |}.

(** The cloud deletes a server once and after that does not know it; the
    local keyring does not have the key that is to be revoked. *)
Definition delete_once_env : Env :=
  {| ssh_exec := ssh_exec calm_env;
     local_cmd := fun _ _ _ => Raise (ExternalError "CommandFailed");
     write_configuration := write_configuration calm_env;
     cloud_api := fun i _ _ =>
       if (i <? 1)%nat then Ok [] else Raise (ExternalError "NotFound");
     random := random calm_env |}.

(** The export of the generated key fails on the node, so the key never
    reaches the local keyring, and its revocation there fails too. *)
Definition export_fails_env : Env :=
  {| ssh_exec := fun _ _ cmd _ =>
       if String.eqb cmd "gpg -a --export 1A2B3C4D"
       then Runs {| emissions := [Stderr (b "gpg: WARNING: nothing exported
")];
                    exit_status := 2 |}
       else remote_ok cmd;
     local_cmd := fun _ _ _ => Raise (ExternalError "CommandFailed");
     write_configuration := write_configuration calm_env;
     cloud_api := cloud_api calm_env;
     random := random calm_env |}.

(** The package update fails; the cloud works. *)
Definition failing_update_env : Env :=
  {| ssh_exec := fun _ _ cmd _ =>
       if String.eqb cmd "sudo apt-get update"
       then Runs {| emissions := [Stderr (b "E: Could not resolve host
")];
                    exit_status := 100 |}
       else remote_ok cmd;
     local_cmd := local_cmd calm_env;
     write_configuration := write_configuration calm_env;
     cloud_api := cloud_api calm_env;
     random := random calm_env |}.

Definition example_settings : Settings :=
  {| USE_FLOATING_IPS := false; BASE_URL := "http://repo.example.com" |}.

Definition floating_settings : Settings :=
  {| USE_FLOATING_IPS := true; BASE_URL := "http://repo.example.com" |}.

(** A new node with the record it has claimed. *)
Definition claimed_record : BuildRecord :=
  with_build_node (Some "buildd-1") (example_record 1 10).

Definition example_world : World :=
  {| store := example_store [claimed_record]; clock := 0; history := [] |}.

Definition example_ctx : Ctx :=
  {| self := example_node; build_record := Some claimed_record;
     world := example_world |}.

(** A node that has generated its signing key. *)
Definition keyed_ctx : Ctx :=
  {| self := with_signing_key_id "1A2B3C4D" example_node;
     build_record := Some claimed_record;
     world := example_world |}.

(** One cloud, no key pair cached yet. *)
Definition example_cloud : Cloud :=
  {| cloud_name := "cloud"; flavor_name := "m1.small"; image_name := "precise" |}.

Definition lease_world : World :=
  {| store := {| buildrecords := [example_record 1 10]; buildnodes := [];
                 keypairs := []; clouds := [example_cloud] |};
     clock := 0; history := [] |}.

(** The context after the first probe has succeeded. *)
Definition connected_ctx : Ctx :=
  called (probe_call example_ctx) (saved_in_state NodeState.BOOTING example_ctx).

(** ** The scheduler entry point *)

(** [BuildRecord.pick_build(bn)] as a computation on the world. *)
Definition pick_build_in_world (fuel : nat) (bn : BuildNode)
  : M World (option BuildRecord) :=
  fun w => match BuildRecord.pick_build fuel bn (store w) with
           | None => Diverge
           | Some (Ok br, s) => Ret br (set_store s w)
           | Some (Raise e, s) => Exc e (set_store s w)
           end.

(** A method run on the objects [bn] and [br], which are local to the
    caller. *)
Definition on_node {A} (bn : BuildNode) (br : option BuildRecord) (m : M Ctx A)
  : M World A :=
  fun w => match m {| self := bn; build_record := br; world := w |} with
           | Ret a c => Ret a (world c)
           | Exc e c => Exc e (world c)
           | Diverge => Diverge
           end.

(** [BuildRecord.perform_single_build] *)
Definition perform_single_build (env : Env) (settings : Settings) (fuel : nat)
  : M World unit :=
  (w <- get_state ;;
   if (0 <? BuildRecord.pending_build_count (buildrecords (store w)))%nat then
     bn <- BuildNode.start_new env settings fuel ;;
     br <- pick_build_in_world fuel bn ;;
     on_node bn br (BuildNode.prepare env settings fuel ;;
                    BuildNode.build env)
   else ret tt)%py.

(** ** Text helpers used in the statements *)

(** [sep.join(parts)] for a one-character separator. *)
Fixpoint join (sep : ascii) (parts : list bytes) : bytes :=
  match parts with
  | [] => []
  | [p] => p
  | p :: rest => p ++ sep :: join sep rest
  end.

(** The word that follows the marker "gpg: key " on a line, up to the next
    space. *)
Definition key_word (l : bytes) : bytes :=
  hd [] (Py.split " " (skipn 9 l)).

(** The name that [random.randint(1, 1000)] equal to [k] gives. *)
Definition buildd_name (k : Z) : string := ("buildd-" ++ Py.str_of_int k)%string.

(** A store in which every name from buildd-1 to buildd-[n] is taken. *)
Definition fleet (n : nat) : list BuildNode :=
  map (fun k => {| bn_name := buildd_name (1 + Z.of_nat k); bn_cloud := "cloud";
                   cloud_node_id := ""; bn_state := NodeState.NEW;
                   signing_key_id := "" |})
      (seq 0 n).

Definition crowded_world : World :=
  {| store := {| buildrecords := []; buildnodes := fleet 1000;
                 keypairs := []; clouds := [] |};
     clock := 0; history := [] |}.

(** A cloud on which buildd-2 and buildd-3 exist already. *)
Definition busy_env : Env :=
  {| ssh_exec := ssh_exec calm_env;
     local_cmd := local_cmd calm_env;
     write_configuration := write_configuration calm_env;
     cloud_api := fun _ _ _ => Ok ["buildd-2"; "buildd-3"];
     random := fun n => n |}.

(** From [w] to [w'] the build records, the nodes and the clouds are the
    same rows. *)
Definition rows_kept (w w' : World) : Prop :=
  buildrecords (store w') = buildrecords (store w) /\
  buildnodes (store w') = buildnodes (store w) /\
  clouds (store w') = clouds (store w).

(** A computation that keeps these rows whatever its outcome. *)
Definition keeping {A} (m : M World A) : Prop :=
  forall w, sat m w (fun _ w' => rows_kept w w') (fun w' => rows_kept w w').

(** The attempt to attach the address, answered as the [i]-th external
    call. *)
Definition attach_succeeds (env : Env) (cloud server_id ip : string) (i : nat)
  : bool :=
  match cloud_api env i cloud (ServerAddFloatingIp server_id ip) with
  | Ok _ => true
  | Raise _ => false
  end.

(** The first calls of [delete] when floating addresses are in use: the
    address of the node is looked up and detached.  [Some ip] when all of
    them are answered without an exception. *)
Definition detached_address (env : Env) (c : Ctx) : option string :=
  let i := List.length (history (world c)) in
  let cloud := bn_cloud (self c) in
  let server := cloud_node_id (self c) in
  match cloud_api env i cloud (ServerNetworks server) with
  | Raise _ => None
  | Ok addresses =>
      match Py.index addresses 1 with
      | Raise _ => None
      | Ok ip =>
          match cloud_api env (S i) cloud (FloatingIpsFind ip) with
          | Raise _ => None
          | Ok _ =>
              match cloud_api env (S (S i)) cloud
                              (ServerRemoveFloatingIp server ip) with
              | Raise _ => None
              | Ok _ => Some ip
              end
          end
      end
  end.

(** An external call that removes something: a server, a floating
    address, a key of the local keyring. *)
Definition removes (call : ext_call) : bool :=
  match call with
  | CloudCall _ (ServerDelete _) => true
  | CloudCall _ (FloatingIpDelete _) => true
  | LocalCmd _ _ => true
  | _ => false
  end.

Definition floating_ctx : Ctx :=
  {| self := with_signing_key_id "1A2B3C4D" example_node;
     build_record := Some claimed_record;
     world := example_world |}.

(** A cloud that grants floating addresses but never attaches one. *)
Definition unattachable_env : Env :=
  {| ssh_exec := ssh_exec calm_env;
     local_cmd := local_cmd calm_env;
     write_configuration := write_configuration calm_env;
     cloud_api := fun _ _ op =>
       match op with
       | ServerAddFloatingIp _ _ => Raise (ExternalError "BadRequest")
       | _ => Ok ["172.24.4.2"]
       end;
     random := random calm_env |}.

(** From [w] to [w'] the build records are the same rows, in the same
    order, but for their [build_node]. *)
Definition records_kept (w w' : World) : Prop :=
  map (with_build_node None) (buildrecords (store w'))
  = map (with_build_node None) (buildrecords (store w)).

(** * The archive side: series, key export, package sources, chroots *)

(** ** More of Python's strings *)

Module PyText.
(** [sub in s] *)
Fixpoint contains (sub s : bytes) : bool :=
  match s with
  | [] => Py.startswith [] sub
  | _ :: s' => Py.startswith s sub || contains sub s'
  end.

(** The characters [str.strip()] removes. *)
Definition is_space (c : ascii) : bool :=
  let n := nat_of_ascii c in
  Nat.eqb n 32 || ((9 <=? n)%nat && (n <=? 13)%nat).

Fixpoint lstrip (s : bytes) : bytes :=
  match s with
  | [] => []
  | c :: s' => if is_space c then lstrip s' else s
  end.

Definition rstrip (s : bytes) : bytes := rev (lstrip (rev s)).

Definition strip (s : bytes) : bytes := rstrip (lstrip s).

(** [a, b = seq] and [a, b, c = seq] *)
Definition unpack_error (n : nat) : exn :=
  ValueError ("need more than " ++ Py.str_of_int (Z.of_nat n)
              ++ (if Nat.eqb n 1 then " value" else " values")
              ++ " to unpack")%string.

Definition unpack2 (A : Type) (l : list A) : result (A * A) :=
  match l with
  | [x; y] => Ok (x, y)
  | _ :: _ :: _ :: _ => Raise (ValueError "too many values to unpack")
  | _ => Raise (unpack_error (List.length l))
  end.

Definition unpack3 (A : Type) (l : list A) : result (A * A * A) :=
  match l with
  | [x; y; z] => Ok (x, y, z)
  | _ :: _ :: _ :: _ :: _ => Raise (ValueError "too many values to unpack")
  | _ => Raise (unpack_error (List.length l))
  end.

(** [repr(s)] of a [str]. *)
Definition backslash : ascii := ascii_of_nat 92.
Definition single_quote : ascii := ascii_of_nat 39.
Definition double_quote : ascii := ascii_of_nat 34.

Definition hex_digit (n : nat) : ascii :=
  nth n (b "0123456789abcdef") "0"%char.

Definition repr_char (quote c : ascii) : bytes :=
  let n := nat_of_ascii c in
  if Ascii.eqb c quote || Ascii.eqb c backslash then [backslash; c]
  else if Nat.eqb n 9 then [backslash; "t"%char]
  else if Nat.eqb n 10 then [backslash; "n"%char]
  else if Nat.eqb n 13 then [backslash; "r"%char]
  else if (n <? 32)%nat || (127 <=? n)%nat
       then [backslash; "x"%char; hex_digit (n / 16); hex_digit (n mod 16)]
  else [c].

Definition repr (s : bytes) : bytes :=
  let quote :=
    if existsb (Ascii.eqb single_quote) s && negb (existsb (Ascii.eqb double_quote) s)
    then double_quote else single_quote in
  quote :: flat_map (repr_char quote) s ++ [quote].

(** A [dict], as far as lookups can tell. *)
Section Dict.
Variables K V : Type.
Variable eqb : K -> K -> bool.

Fixpoint dict_set (k : K) (v : V) (d : list (K * V)) : list (K * V) :=
  match d with
  | [] => [(k, v)]
  | (k', v') :: d' =>
      if eqb k' k then (k, v) :: d' else (k', v') :: dict_set k v d'
  end.

Fixpoint dict_get (k : K) (d : list (K * V)) : option V :=
  match d with
  | [] => None
  | (k', v') :: d' => if eqb k' k then Some v' else dict_get k d'
  end.
End Dict.
End PyText.

(** ** More of the schema *)

Module SeriesState.
Definition ACTIVE : Z := 1.
Definition FROZEN : Z := 3.
Definition CLOSED : Z := 4.
End SeriesState.

(** [Series] and [ChrootTarball] declare no primary key: they have the
    automatic [id], which an object has once it has been saved. *)
Record Series := {
  sr_id : option Z;
  sr_name : string;
  sr_repository : string;           (* ForeignKey(Repository), keyed by name *)
  base_ubuntu_series : string;      (* ForeignKey('UbuntuSeries') *)
  numerical_version : string;
  sr_state : Z
}.

Module TarballState.
Definition NOT_AVAILABLE : Z := 1.
Definition WAITING_TO_BUILD : Z := 2.
Definition CURRENTLY_BUILDING : Z := 3.
Definition READY : Z := 4.
End TarballState.

Record ChrootTarball := {
  ct_id : option Z;
  ct_architecture : string;         (* ForeignKey(Architecture), keyed by name *)
  ct_series : string;               (* ForeignKey(UbuntuSeries), keyed by name *)
  last_refresh : option Z;
  ct_state : Z
}.

Definition with_sr_state (st : Z) (s : Series) : Series :=
  {| sr_id := sr_id s; sr_name := sr_name s; sr_repository := sr_repository s;
     base_ubuntu_series := base_ubuntu_series s;
     numerical_version := numerical_version s; sr_state := st |}.

Definition with_sr_id (i : Z) (s : Series) : Series :=
  {| sr_id := Some i; sr_name := sr_name s; sr_repository := sr_repository s;
     base_ubuntu_series := base_ubuntu_series s;
     numerical_version := numerical_version s; sr_state := sr_state s |}.

Definition with_ct_state (st : Z) (t : ChrootTarball) : ChrootTarball :=
  {| ct_id := ct_id t; ct_architecture := ct_architecture t;
     ct_series := ct_series t; last_refresh := last_refresh t; ct_state := st |}.

Definition with_last_refresh (now : Z) (t : ChrootTarball) : ChrootTarball :=
  {| ct_id := ct_id t; ct_architecture := ct_architecture t;
     ct_series := ct_series t; last_refresh := Some now; ct_state := ct_state t |}.

Definition with_ct_id (i : Z) (t : ChrootTarball) : ChrootTarball :=
  {| ct_id := Some i; ct_architecture := ct_architecture t;
     ct_series := ct_series t; last_refresh := last_refresh t;
     ct_state := ct_state t |}.

(** The settings the archive side reads.  [POST_MK_SBUILD_CUSTOMISATION]
    may be absent ([hasattr]). *)
Record SiteSettings := {
  BASE_REPO_DIR : string;
  POST_MK_SBUILD_CUSTOMISATION : option (list string)
}.

(** The state these methods run on: the two tables, the environment
    variables and working directory of the process, and the world of the
    scheduling core (its clock, its record of external calls). *)
Record Site := {
  series_table : list Series;
  tarball_table : list ChrootTarball;
  environ : list (string * string);
  cwd : string;
  base : World
}.

Definition set_series_table (rows : list Series) (s : Site) : Site :=
  {| series_table := rows; tarball_table := tarball_table s;
     environ := environ s; cwd := cwd s; base := base s |}.

Definition set_tarball_table (rows : list ChrootTarball) (s : Site) : Site :=
  {| series_table := series_table s; tarball_table := rows;
     environ := environ s; cwd := cwd s; base := base s |}.

Definition set_environ (e : list (string * string)) (s : Site) : Site :=
  {| series_table := series_table s; tarball_table := tarball_table s;
     environ := e; cwd := cwd s; base := base s |}.

Definition set_cwd (d : string) (s : Site) : Site :=
  {| series_table := series_table s; tarball_table := tarball_table s;
     environ := environ s; cwd := d; base := base s |}.

Definition set_base (w : World) (s : Site) : Site :=
  {| series_table := series_table s; tarball_table := tarball_table s;
     environ := environ s; cwd := cwd s; base := w |}.

(** A method runs on its object, which it may assign to, and the site. *)
Record Obj (T : Type) := {
  this : T;
  site : Site
}.

Definition set_this {T} (x : T) (c : Obj T) : Obj T :=
  {| this := x; site := site c |}.

Definition set_site {T} (s : Site) (c : Obj T) : Obj T :=
  {| this := this c; site := s |}.

Definition in_base {A} (m : M World A) : M Site A :=
  fun s => match m (base s) with
           | Ret a w => Ret a (set_base w s)
           | Exc e w => Exc e (set_base w s)
           | Diverge => Diverge
           end.

Definition in_site {T A} (m : M Site A) : M (Obj T) A :=
  fun c => match m (site c) with
           | Ret a s => Ret a (set_site s c)
           | Exc e s => Exc e (set_site s c)
           | Diverge => Diverge
           end.

(** ** [Model.save] of a class with the automatic [id] *)

Definition id_is (i : Z) (o : option Z) : bool :=
  match o with
  | Some j => j =? i
  | None => false
  end.

Definition same_id (o1 o2 : option Z) : bool :=
  match o1 with
  | Some i => id_is i o2
  | None => false
  end.

(** [if self.pk:] *)
Definition truthy_pk (pk : option Z) : bool :=
  match pk with
  | Some i => negb (i =? 0)
  | None => false
  end.

(** An id no row has: the database's choice, here one more than the
    largest in use. *)
Definition next_id (ids : list (option Z)) : Z :=
  1 + fold_right Z.max 0 (map (fun o => match o with Some i => i | None => 0 end) ids).

Section ModelSave.
Variable Row : Type.
Variable row_id : Row -> option Z.
Variable with_id : Z -> Row -> Row.
(** Two rows with the same values in the [unique_together] columns. *)
Variable clash : Row -> Row -> bool.

(** The row with the object's id is overwritten, or the object is
    inserted, with a new id if it has none; the database refuses a second
    row with the same unique columns.  The object, with its id, and the
    table are returned. *)
Definition model_save (obj : Row) (rows : list Row) : result (Row * list Row) :=
  if existsb (fun r => negb (same_id (row_id r) (row_id obj)) && clash r obj) rows
  then Raise (ExternalError "IntegrityError")
  else match row_id obj with
       | Some i => Ok (obj, Orm.save (fun r => id_is i (row_id r)) obj rows)
       | None =>
           let obj' := with_id (next_id (map row_id rows)) obj in
           Ok (obj', rows ++ [obj'])
       end.
End ModelSave.

(** ** Repository: the reprepro command *)

Module Repository.
Section Methods.
Variable env : Env.
Variable settings : SiteSettings.

(** ['%s/%s' % (settings.BASE_REPO_DIR, self.name)] *)
Definition reprepro_dir (name : string) : string :=
  (BASE_REPO_DIR settings ++ "/" ++ name)%string.

Definition _reprepro (name : string) (args : list string) : M World bytes :=
  BuildNode.utils_run_cmd env (["reprepro"; "-b"; reprepro_dir name] ++ args) None.

(** [write_configuration] of the repository of the series [series]: the
    files it writes and the export it runs are outside the model, as in
    [prepare]. *)
Definition write_configuration_of (series : string) : M World unit :=
  BuildNode.ask (WriteConfiguration series)
                (fun n => write_configuration env n series).
End Methods.
End Repository.

(** ** Series *)

Module Series.
Local Open Scope py_scope.

Section Methods.
Variable env : Env.
Variable settings : SiteSettings.

Definition __unicode__ (self : Series) : string :=
  (sr_repository self ++ "-" ++ sr_name self)%string.


Definition flush_queue : M (Obj Series) unit :=
  c <- get_state ;;
  let self := this c in
  BuildNode.log_fmt "Flushing queue for %s" [__unicode__ self] ;;
  in_site (in_base (Repository._reprepro env settings (sr_repository self)
                      ["pull"; (sr_name self ++ "-proposed")%string])) ;;
  ret tt.

(** [unique_together = ('name', 'repository')] *)
Definition clash (r1 r2 : Series) : bool :=
  String.eqb (sr_name r1) (sr_name r2)
  && String.eqb (sr_repository r1) (sr_repository r2).

(** [super(Series, self).save()] *)
Definition super_save : M (Obj Series) unit :=
  c <- get_state ;;
  saved <- lift_result (model_save sr_id with_sr_id clash (this c)
                                   (series_table (site c))) ;;
  modify (fun c => {| this := fst saved;
                      site := set_series_table (snd saved) (site c) |}).

Definition save : M (Obj Series) unit :=
  c <- get_state ;;
  let self := this c in
  in_site (in_base (Repository.write_configuration_of env (sr_name self))) ;;
  (if truthy_pk (sr_id self) then
     c <- get_state ;;
     old <- lift_result
              (Orm.get (fun r => same_id (sr_id r) (sr_id self))
                       (series_table (site c))) ;;
     if negb (sr_state old =? sr_state self) then
       if (sr_state old =? SeriesState.FROZEN)
          && (sr_state self =? SeriesState.ACTIVE)
       then flush_queue
       else ret tt
     else ret tt
   else ret tt) ;;
  super_save.

Definition assign_state (st : Z) : M (Obj Series) unit :=
  modify (fun c => set_this (with_sr_state st (this c)) c).

Definition freeze : M (Obj Series) unit :=
  assign_state SeriesState.FROZEN ;; save.

Definition unfreeze : M (Obj Series) unit :=
  assign_state SeriesState.ACTIVE ;; save.

Definition promote : M (Obj Series) unit :=
  c <- get_state ;;
  in_site (in_base (Repository._reprepro env settings (sr_repository (this c))
                      ["pull"; sr_name (this c)])) ;;
  ret tt.

(** *** [get_source_packages] *)

(** The generator [get_pkglist] on the lines still to be read: the pairs
    it yields, or the exception that ends it.  (Its consumer fills a
    dictionary that is dropped when the generator raises.) *)
Fixpoint get_pkglist_lines (pkglist : bytes) (lines : list bytes)
  : result (list (bytes * bytes)) :=
  match lines with
  | [] => Ok []
  | l :: rest =>
      match PyText.strip l with
      | [] => get_pkglist_lines pkglist rest                      (* continue *)
      | _ :: _ =>
          match Py.index (Py.split ":" pkglist) 0 with
          | Raise e => Raise e
          | Ok repo_info =>
              match PyText.unpack3 (Py.split "|" repo_info) with
              | Raise e => Raise e
              | Ok _ =>
                  match PyText.unpack2 (tl (Py.split " " l)) with
                  | Raise e => Raise e
                  | Ok entry =>
                      match get_pkglist_lines pkglist rest with
                      | Ok entries => Ok (entry :: entries)        (* yield *)
                      | Raise e => Raise e
                      end
                  end
              end
          end
      end
  end.

Definition get_pkglist (pkglist : bytes) : result (list (bytes * bytes)) :=
  get_pkglist_lines pkglist (Py.split Py.newline pkglist).

Definition bytes_eqb (x y : bytes) : bool :=
  String.eqb (string_of_list_ascii x) (string_of_list_ascii y).

(** [pkgs[key] = {}] filled by [pkgs[key][pkg_name] = pkg_version] for
    every pair. *)
Definition fill (entries : list (bytes * bytes)) : list (bytes * bytes) :=
  fold_left (fun d e => PyText.dict_set bytes_eqb (fst e) (snd e) d) entries [].

Fixpoint collect_packages (self : Series) (kinds : list (string * string))
         (pkgs : list (string * list (bytes * bytes)))
  : M World (list (string * list (bytes * bytes))) :=
  match kinds with
  | [] => ret pkgs
  | (distribution_fmt, key) :: kinds' =>
      distribution <- lift_result (Py.format distribution_fmt [sr_name self]) ;;
      pkglist <- Repository._reprepro env settings (sr_repository self)
                   ["-A"; "source"; "list"; distribution] ;;
      entries <- lift_result (get_pkglist pkglist) ;;
      collect_packages self kinds'
        (PyText.dict_set String.eqb key (fill entries) pkgs)
  end.

Definition get_source_packages
  : M (Obj Series) (list (string * list (bytes * bytes))) :=
  c <- get_state ;;
  in_site (in_base (collect_packages (this c)
                      [("%s", "stable"); ("%s-proposed", "proposed");
                       ("%s-queued", "queued")] [])).
End Methods.
End Series.

(** *** Statements about package listings *)

(** A line that [get_pkglist] does not skip. *)
Definition nonblank (l : bytes) : bool :=
  match PyText.strip l with
  | [] => false
  | _ :: _ => true
  end.

(** A line of a listing: the repository prefix, a colon, the name and the
    version of the package. *)
Definition listing_line (e : bytes * bytes * bytes) : bytes :=
  let '(prefix, name, version) := e in
  prefix ++ b ": " ++ name ++ b " " ++ version.

(** The listing of [entries], every line ended by a newline. *)
Definition listing (entries : list (bytes * bytes * bytes)) : bytes :=
  List.concat (map (fun e => listing_line e ++ [Py.newline]) entries).

(** A word: no space and no newline in it. *)
Definition word (s : bytes) : Prop :=
  ~ In " "%char s /\ ~ In Py.newline s.

Definition words (e : bytes * bytes * bytes) : Prop :=
  let '(prefix, name, version) := e in
  word prefix /\ word name /\ word version.

(** The prefix of the first line has its three fields. *)
Definition first_prefix_ok (entries : list (bytes * bytes * bytes)) : Prop :=
  match entries with
  | [] => True
  | (prefix, _, _) :: _ =>
      ~ In ":"%char prefix /\ List.length (Py.split "|" prefix) = 3%nat
  end.

Definition example_listing : list (bytes * bytes * bytes) :=
  [(b "folsom|main|source", b "nova", b "2012.2-1");
   (b "folsom|main|source", b "glance", b "2012.2-3");
   (b "garbled", b "nova", b "2012.2-2")].

(** *** Statements about Series *)

(** The command that flushes the queue of [self]. *)
Definition pull_call (settings : SiteSettings) (self : Series) : ext_call :=
  LocalCmd ["reprepro"; "-b"; Repository.reprepro_dir settings (sr_repository self);
            "pull"; (sr_name self ++ "-proposed")%string] None.

(** The state of the stored row(s) with the id [i]. *)
Definition stored_states (i : option Z) (rows : list Series) : list Z :=
  map sr_state (filter (fun r => same_id (sr_id r) i) rows).

(** [save] of [self] gets as far as the flush and flushes: the
    configuration is written without an exception, the object has been saved
    before, its stored row is FROZEN and the object is ACTIVE. *)
Definition flushes (env : Env) (c : Obj Series) : bool :=
  match write_configuration env (List.length (history (base (site c))))
                            (sr_name (this c)) with
  | Raise _ => false
  | Ok _ =>
      truthy_pk (sr_id (this c))
      && match stored_states (sr_id (this c)) (series_table (site c)) with
         | [st] => (st =? SeriesState.FROZEN)
                   && (sr_state (this c) =? SeriesState.ACTIVE)
         | _ => false
         end
  end.

(** The external calls made from [c] to [c']. *)
Definition calls_made (c c' : Obj Series) (calls : list ext_call) : Prop :=
  history (base (site c')) = history (base (site c)) ++ calls.

(** No other row has the unique columns of [obj]. *)
Definition unique_in (obj : Series) (rows : list Series) : Prop :=
  forall r, In r rows -> same_id (sr_id r) (sr_id obj) = false ->
            Series.clash r obj = false.

Definition example_series : Series :=
  {| sr_id := Some 7; sr_name := "folsom"; sr_repository := "cisco";
     base_ubuntu_series := "precise"; numerical_version := "2012.2";
     sr_state := SeriesState.ACTIVE |}.

Definition example_site (rows : list Series) : Site :=
  {| series_table := rows; tarball_table := [];
     environ := [("LANG", "en_US.UTF-8"); ("LC_ALL", "C"); ("PATH", "/usr/bin");
                 ("LANGUAGE", "en"); ("HOME", "/root")];
     cwd := "/srv/repomgmt";
     base := {| store := example_store []; clock := 0; history := [] |} |}.

Definition example_site_settings : SiteSettings :=
  {| BASE_REPO_DIR := "/srv/repos"; POST_MK_SBUILD_CUSTOMISATION := None |}.

(** The object and site after the external call [call]. *)
Definition site_called {T} (call : ext_call) (c : Obj T) : Obj T :=
  set_site (set_base (record_call call (base (site c))) (site c)) c.

(** A stored frozen series and its object; reprepro fails in
    [delete_once_env]. *)
Definition frozen_series : Series := with_sr_state SeriesState.FROZEN example_series.

Definition frozen_obj : Obj Series :=
  {| this := frozen_series; site := example_site [frozen_series] |}.

Definition active_obj : Obj Series :=
  {| this := example_series; site := example_site [example_series] |}.

(** The command that lists the source packages of a distribution. *)
Definition list_argv (settings : SiteSettings) (self : Series) (distribution : string)
  : list string :=
  ["reprepro"; "-b"; Repository.reprepro_dir settings (sr_repository self);
   "-A"; "source"; "list"; distribution].

(** The version on the last line that names the package. *)
Definition last_version (name : bytes) (entries : list (bytes * bytes))
  : option bytes :=
  option_map snd (find (fun e => Series.bytes_eqb (fst e) name) (rev entries)).

(** Every listing holds the same three lines. *)
Definition listing_env : Env :=
  {| ssh_exec := ssh_exec calm_env;
     local_cmd := fun _ _ _ => Ok (listing example_listing);
     write_configuration := write_configuration calm_env;
     cloud_api := cloud_api calm_env;
     random := random calm_env |}.

(** ** GPGKey *)

Module GPGKey.
Local Open Scope py_scope.

Section Methods.
Variable env : Env.

Definition export_argv (key_id : string) (private : bool) : list string :=
  ["gpg"; "-a"; "--export-options"; "export-clean";
   if private then "--export-secret-key" else "--export"; key_id].

Definition _gpg_export (key_id : string) (private : bool) : M World bytes :=
  out <- BuildNode.utils_run_cmd env (export_argv key_id private) None ;;
  if PyText.contains (b "nothing exported") out then
    msg <- lift_result (Py.format "Key with ID %s not found" [key_id]) ;;
    raise (PyException msg)
  else ret out.

Definition private_key (key_id : string) : M World bytes := _gpg_export key_id true.

Definition public_key (key_id : string) : M World bytes := _gpg_export key_id false.
End Methods.
End GPGKey.

(** ** PackageSource: the revision of a branch *)

Module PackageSource.
Local Open Scope py_scope.

Definition tab : ascii := ascii_of_nat 9.

(** The [url] is taken as a [str]; of a [unicode] url the message would
    show the [u] prefix. *)
Definition _guess_vcs_type (url : string) : result string :=
  if PyText.contains (b "launchpad") (b url) then Ok "bzr"
  else if PyText.contains (b "github") (b url) then Ok "git"
  else Raise (PyException ("No idea what to do with "
                           ++ string_of_list_ascii (PyText.repr (b url)))).

Section Methods.
Variable env : Env.

(** [lookup_revision]; [None] is the value of a call that falls off the
    end. *)
Definition lookup_revision (url : string) : M World (option string) :=
  BuildNode.log_fmt "Looking up current revision of %s" [url] ;;
  vcstype <- lift_result (_guess_vcs_type url) ;;
  if String.eqb vcstype "bzr" then
    out <- BuildNode.utils_run_cmd env ["bzr"; "revision-info"; "-d"; url] None ;;
    line <- lift_result (Py.index (Py.split Py.newline out) 0) ;;
    revision <- lift_result (Py.index (Py.split " " line) 1) ;;
    ret (Some (string_of_list_ascii revision))
  else if String.eqb vcstype "git" then
    url_branch <-
      (if PyText.contains (b "#") (b url)
       then lift_result (PyText.unpack2 (Py.split "#" (b url)))
       else ret (b url, b "master")) ;;
    out <- BuildNode.utils_run_cmd env
             ["git"; "ls-remote"; string_of_list_ascii (fst url_branch);
              string_of_list_ascii (snd url_branch)] None ;;
    line <- lift_result (Py.index (Py.split Py.newline out) 0) ;;
    revision <- lift_result (Py.index (Py.split tab line) 0) ;;
    ret (Some (string_of_list_ascii revision))
  else ret None.
End Methods.
End PackageSource.

(** *** Statements about them *)

(** [sub] occurs in [s]. *)
Definition occurs (sub s : bytes) : Prop :=
  exists pre post, s = pre ++ sub ++ post.

(** The first field of the first line of [out], fields separated by
    [sep]. *)
Definition first_field (sep : ascii) (out : bytes) : bytes :=
  hd [] (Py.split sep (hd [] (Py.split Py.newline out))).

(** A local command that answers every call with [out]. *)
Definition answering_env (out : bytes) : Env :=
  {| ssh_exec := ssh_exec calm_env;
     local_cmd := fun _ _ _ => Ok out;
     write_configuration := write_configuration calm_env;
     cloud_api := cloud_api calm_env;
     random := random calm_env |}.

Definition git_url : string := "https://github.com/openstack/nova#stable/folsom".

Definition ls_remote_output : bytes :=
  b "1f0c9d3b2a" ++ [PackageSource.tab] ++ b "refs/heads/stable/folsom" ++ [Py.newline].

Definition bzr_url : string := "https://code.launchpad.net/~openstack/nova".

Definition revision_info_output : bytes :=
  b "1482 soren@linux2go.dk-20120917" ++ [Py.newline].

(** ** ChrootTarball *)

Module ChrootTarball.
Local Open Scope py_scope.

(** [str.capitalize()] *)
Definition upper (c : ascii) : ascii :=
  let n := nat_of_ascii c in
  if (97 <=? n)%nat && (n <=? 122)%nat then ascii_of_nat (n - 32) else c.

Definition lower (c : ascii) : ascii :=
  let n := nat_of_ascii c in
  if (65 <=? n)%nat && (n <=? 90)%nat then ascii_of_nat (n + 32) else c.

Definition capitalize (s : string) : string :=
  match s with
  | EmptyString => EmptyString
  | String c rest =>
      String (upper c) (string_of_list_ascii (map lower (list_ascii_of_string rest)))
  end.

(** ['%s-%s' % (self.series, self.architecture)], the series being shown
    as ['Ubuntu %s' % (self.name.capitalize())]. *)
Definition __unicode__ (self : ChrootTarball) : string :=
  ("Ubuntu " ++ capitalize (ct_series self) ++ "-" ++ ct_architecture self)%string.

(** [unique_together = ('architecture', 'series')] *)
Definition clash (r1 r2 : ChrootTarball) : bool :=
  String.eqb (ct_architecture r1) (ct_architecture r2)
  && String.eqb (ct_series r1) (ct_series r2).

(** [del os.environ[k]] *)
Definition del_key (k : string) (environ : list (string * string))
  : list (string * string) :=
  filter (fun kv => negb (String.eqb (fst kv) k)) environ.

(** [for k in os.environ.keys(): if k.startswith('LC_'): del os.environ[k]
    elif k.startswith('LANG'): del os.environ[k]] *)
Definition scrub_locale (environ : list (string * string))
  : list (string * string) :=
  fold_left (fun environ k =>
               if Py.startswith (b k) (b "LC_") then del_key k environ
               else if Py.startswith (b k) (b "LANG") then del_key k environ
               else environ)
            (map fst environ) environ.

(** [if proxy:] for an argument that is False or a string. *)
Definition given (arg : option string) : bool :=
  match arg with
  | Some s => negb (String.eqb s "")
  | None => false
  end.

Definition text (arg : option string) : string :=
  match arg with
  | Some s => s
  | None => "False"
  end.

Section Methods.
Variable env : Env.
Variable settings : SiteSettings.

Definition save : M (Obj ChrootTarball) unit :=
  c <- get_state ;;
  saved <- lift_result (model_save ct_id with_ct_id clash (this c)
                                   (tarball_table (site c))) ;;
  modify (fun c => {| this := fst saved;
                      site := set_tarball_table (snd saved) (site c) |}).

Definition run_cmd (argv : list string) (input : option bytes)
  : M (Obj ChrootTarball) bytes :=
  in_site (in_base (BuildNode.utils_run_cmd env argv input)).

Definition getcwd : M (Obj ChrootTarball) string :=
  c <- get_state ;; ret (cwd (site c)).

Definition chdir (d : string) : M (Obj ChrootTarball) unit :=
  modify (fun c => set_site (set_cwd d (site c)) c).

Definition _run_in_chroot (cmd : list string) (input : option bytes)
  : M (Obj ChrootTarball) bytes :=
  c <- get_state ;;
  let series_name := ct_series (this c) in
  let arch_name := ct_architecture (this c) in
  run_cmd (["schroot"; "-c"; (series_name ++ "-" ++ arch_name ++ "-source")%string;
            "-u"; "root"; "--"] ++ cmd) input.

(** The branch of [refresh] that builds the chroot from scratch. *)
Definition from_scratch (proxy mirror : option string) : M (Obj ChrootTarball) unit :=
  c <- get_state ;;
  let self := this c in
  BuildNode.log_fmt "Existing schroot for %s not found. Starting from scratch."
                    [__unicode__ self] ;;
  let mk_sbuild_extra_args :=
    (if given proxy then [("--debootstrap-proxy=" ++ text proxy)%string] else [])
    ++ (if given mirror then [("--debootstrap-mirror=" ++ text mirror)%string] else []) in
  let cmd := ["mk-sbuild"]
             ++ [("--name=" ++ ct_series self)%string]
             ++ [("--arch=" ++ ct_architecture self)%string]
             ++ ["--type=file"]
             ++ mk_sbuild_extra_args
             ++ [ct_series self] in
  run_cmd cmd None ;;
  run_cmd ["sudo"; "sed"; "-i"; "-e"; "s/^#source/source/g";
           ("/etc/schroot/chroot.d/sbuild-" ++ ct_series self ++ "-"
            ++ ct_architecture self)%string] None ;;
  match POST_MK_SBUILD_CUSTOMISATION settings with
  | Some customisation => _run_in_chroot customisation None ;; ret tt
  | None => ret tt
  end.

(** The commands of [refresh]: the chroot is built if schroot does not
    list it, and updated. *)
Definition update_chroot (proxy mirror : option string) : M (Obj ChrootTarball) unit :=
  stdout <- run_cmd ["schroot"; "-l"] None ;;
  c <- get_state ;;
  let self := this c in
  let expected := ("source:" ++ ct_series self ++ "-" ++ ct_architecture self)%string in
  (if negb (existsb (Series.bytes_eqb (b expected)) (Py.split Py.newline stdout))
   then from_scratch proxy mirror
   else ret tt) ;;
  BuildNode.log_fmt "sbuild-update'ing %s tarball." [__unicode__ self] ;;
  run_cmd ["sbuild-update"; "-udcar"; ct_series self;
           ("--arch=" ++ ct_architecture self)%string] None ;;
  ret tt.

(** What [refresh] does between its two [save]s. *)
Definition rebuild (proxy mirror : option string) : M (Obj ChrootTarball) unit :=
  modify (fun c => set_site (set_environ (scrub_locale (environ (site c)))
                                         (site c)) c) ;;
  saved_cwd <- getcwd ;;
  chdir "/" ;;
  update_chroot proxy mirror ;;
  chdir saved_cwd.

Definition refresh (proxy mirror : option string) : M (Obj ChrootTarball) unit :=
  c <- get_state ;;
  if ct_state (this c) =? TarballState.CURRENTLY_BUILDING then
    BuildNode.log_fmt "Already building %s. Ignoring request to refresh."
                      [__unicode__ (this c)]                       (* return *)
  else
    BuildNode.log_fmt "Refreshing %s tarball." [__unicode__ (this c)] ;;
    modify (fun c => set_this (with_ct_state TarballState.CURRENTLY_BUILDING
                                             (this c)) c) ;;
    save ;;
    rebuild proxy mirror ;;
    (* timezone.now(): the clock of the model *)
    modify (fun c => set_this (with_last_refresh (clock (base (site c))) (this c)) c) ;;
    modify (fun c => set_this (with_ct_state TarballState.READY (this c)) c) ;;
    save.
End Methods.
End ChrootTarball.

(** *** Statements about [refresh] *)

(** A variable that [refresh] leaves in the environment. *)
Definition kept_variable (kv : string * string) : bool :=
  negb (Py.startswith (b (fst kv)) (b "LC_"))
  && negb (Py.startswith (b (fst kv)) (b "LANG")).

(** The first [save] of [refresh] is accepted by the database. *)
Definition accepted (c : Obj ChrootTarball) : bool :=
  match model_save ct_id with_ct_id ChrootTarball.clash
                   (with_ct_state TarballState.CURRENTLY_BUILDING (this c))
                   (tarball_table (site c)) with
  | Ok _ => true
  | Raise _ => false
  end.

Definition example_tarball : ChrootTarball :=
  {| ct_id := Some 3; ct_architecture := "amd64"; ct_series := "precise";
     last_refresh := None; ct_state := TarballState.NOT_AVAILABLE |}.

Definition tarball_obj : Obj ChrootTarball :=
  {| this := example_tarball;
     site := set_tarball_table [example_tarball] (example_site []) |}.

(** A name that [refresh] removes from the environment. *)
Definition locale_name (k : string) : bool :=
  Py.startswith (b k) (b "LC_") || Py.startswith (b k) (b "LANG").

(** From [c] to [c'] nothing has changed but the record of external
    calls. *)
Definition same_but_calls (c c' : Obj ChrootTarball) : Prop :=
  this c' = this c /\
  series_table (site c') = series_table (site c) /\
  tarball_table (site c') = tarball_table (site c) /\
  environ (site c') = environ (site c) /\
  cwd (site c') = cwd (site c) /\
  store (base (site c')) = store (base (site c)) /\
  clock (base (site c')) = clock (base (site c)) /\
  exists calls, history (base (site c')) = history (base (site c)) ++ calls.

(** The commands of [refresh]. *)
Definition mk_sbuild_argv (self : ChrootTarball) (proxy mirror : option string)
  : list string :=
  ["mk-sbuild"; ("--name=" ++ ct_series self)%string;
   ("--arch=" ++ ct_architecture self)%string; "--type=file"]
  ++ (if ChrootTarball.given proxy
      then [("--debootstrap-proxy=" ++ ChrootTarball.text proxy)%string] else [])
  ++ (if ChrootTarball.given mirror
      then [("--debootstrap-mirror=" ++ ChrootTarball.text mirror)%string] else [])
  ++ [ct_series self].

Definition sed_argv (self : ChrootTarball) : list string :=
  ["sudo"; "sed"; "-i"; "-e"; "s/^#source/source/g";
   ("/etc/schroot/chroot.d/sbuild-" ++ ct_series self ++ "-"
    ++ ct_architecture self)%string].

Definition customisation_argv (self : ChrootTarball) (cmd : list string)
  : list string :=
  ["schroot"; "-c";
   (ct_series self ++ "-" ++ ct_architecture self ++ "-source")%string;
   "-u"; "root"; "--"] ++ cmd.

Definition sbuild_update_argv (self : ChrootTarball) : list string :=
  ["sbuild-update"; "-udcar"; ct_series self;
   ("--arch=" ++ ct_architecture self)%string].

Definition scratch_calls (settings : SiteSettings) (self : ChrootTarball)
           (proxy mirror : option string) : list ext_call :=
  [LocalCmd (mk_sbuild_argv self proxy mirror) None; LocalCmd (sed_argv self) None]
  ++ match POST_MK_SBUILD_CUSTOMISATION settings with
     | Some cmd => [LocalCmd (customisation_argv self cmd) None]
     | None => []
     end.

(** The source chroot of [self] is among the lines of [stdout]. *)
Definition listed (self : ChrootTarball) (stdout : bytes) : bool :=
  existsb (Series.bytes_eqb
             (b ("source:" ++ ct_series self ++ "-" ++ ct_architecture self)%string))
          (Py.split Py.newline stdout).

Definition refresh_calls (settings : SiteSettings) (self : ChrootTarball)
           (proxy mirror : option string) (stdout : bytes) : list ext_call :=
  LocalCmd ["schroot"; "-l"] None
  :: (if listed self stdout then [] else scratch_calls settings self proxy mirror)
  ++ [LocalCmd (sbuild_update_argv self) None].

(** Every local command fails. *)
Definition failing_env : Env :=
  {| ssh_exec := ssh_exec calm_env;
     local_cmd := fun _ _ _ => Raise (ExternalError "CommandFailed");
     write_configuration := write_configuration calm_env;
     cloud_api := cloud_api calm_env;
     random := random calm_env |}.

(** * Properties *)

Unset Implicit Arguments.

(** ** The ORM operations *)

Section OrmFacts.
Variable Row : Type.
Implicit Types (p : Row -> bool) (f : Row -> Row) (rows : list Row).

Lemma update_app p f rows1 rows2 :
  Orm.update p f (rows1 ++ rows2) =
  ((fst (Orm.update p f rows1) + fst (Orm.update p f rows2))%nat,
   snd (Orm.update p f rows1) ++ snd (Orm.update p f rows2)).
Proof.
  induction rows1 as [|r rows1 IH]; simpl.
  - now destruct (Orm.update p f rows2).
  - rewrite IH. destruct (Orm.update p f rows1), (Orm.update p f rows2); simpl.
    now destruct (p r).
Qed.

Lemma update_no_match p f rows :
  (forall r, In r rows -> p r = false) -> Orm.update p f rows = (O, rows).
Proof.
  induction rows as [|r rows IH]; intros H; simpl; [reflexivity|].
  rewrite IH by (intros; apply H; now right).
  now rewrite (H r) by now left.
Qed.

Lemma update_count p f rows :
  fst (Orm.update p f rows) = List.length (filter p rows).
Proof.
  induction rows as [|r rows IH]; simpl; [reflexivity|].
  destruct (Orm.update p f rows) as [n rows']; simpl in *.
  destruct (p r); simpl; congruence.
Qed.

Lemma update_length p f rows :
  List.length (snd (Orm.update p f rows)) = List.length rows.
Proof.
  induction rows as [|r rows IH]; simpl; [reflexivity|].
  destruct (Orm.update p f rows) as [n rows']; simpl in *.
  destruct (p r); simpl; congruence.
Qed.

(** Row by row: a matching row is rewritten, any other is kept. *)
Lemma update_nth p f rows k :
  nth_error (snd (Orm.update p f rows)) k =
  option_map (fun r => if p r then f r else r) (nth_error rows k).
Proof.
  revert k; induction rows as [|r rows IH]; intros k; simpl.
  - now destruct k.
  - specialize (IH (pred k)).
    destruct (Orm.update p f rows) as [n rows']; simpl in *.
    destruct k as [|k]; simpl in *; destruct (p r); simpl; auto.
Qed.

Lemma update_map_key (K : Type) (key : Row -> K) p f rows :
  (forall r, key (f r) = key r) ->
  map key (snd (Orm.update p f rows)) = map key rows.
Proof.
  intros Hk. induction rows as [|r rows IH]; simpl; [reflexivity|].
  destruct (Orm.update p f rows) as [n rows']; simpl in *.
  destruct (p r); simpl; rewrite ?Hk; congruence.
Qed.

Variable key : Row -> Z.

Lemma insert_desc_In r x sorted :
  In x (Orm.insert_desc key r sorted) <-> x = r \/ In x sorted.
Proof.
  induction sorted as [|y sorted IH]; simpl.
  - intuition.
  - destruct (key y <=? key r); simpl; rewrite ?IH; intuition.
Qed.

Lemma order_by_desc_In x rows :
  In x (Orm.order_by_desc key rows) <-> In x rows.
Proof.
  induction rows as [|r rows IH]; simpl; [tauto|].
  rewrite insert_desc_In, IH. intuition.
Qed.

Lemma insert_desc_head_max r sorted :
  head_max key sorted -> head_max key (Orm.insert_desc key r sorted).
Proof.
  destruct sorted as [|y sorted]; simpl.
  - intros _ c [<-|[]]. lia.
  - intros H. destruct (key y <=? key r) eqn:E; simpl.
    + apply Z.leb_le in E. intros c [<-|Hc]; [lia|].
      specialize (H c Hc). lia.
    + apply Z.leb_gt in E. intros c [<-|Hc]; [lia|].
      apply insert_desc_In in Hc. destruct Hc as [->|Hc]; [lia|].
      apply H. now right.
Qed.

Lemma order_by_desc_head_max rows : head_max key (Orm.order_by_desc key rows).
Proof.
  induction rows as [|r rows IH]; simpl; [exact I|].
  now apply insert_desc_head_max.
Qed.

Lemma order_by_desc_first rows r :
  index0 (Orm.order_by_desc key rows) = Ok r ->
  In r rows /\ forall c, In c rows -> key c <= key r.
Proof.
  intros H. pose proof (order_by_desc_head_max rows) as Hm.
  destruct (Orm.order_by_desc key rows) as [|x l] eqn:E; simpl in H; [discriminate|].
  injection H as ->. split.
  - apply order_by_desc_In. rewrite E. now left.
  - intros c Hc. apply Hm. rewrite <- E. now apply order_by_desc_In.
Qed.

Lemma order_by_desc_empty rows :
  index0 (Orm.order_by_desc key rows) = Raise IndexError <-> rows = [].
Proof.
  split.
  - destruct rows as [|r rows]; [reflexivity|]. intros H. exfalso.
    assert (Hin : In r (Orm.order_by_desc key (r :: rows)))
      by (apply order_by_desc_In; now left).
    destruct (Orm.order_by_desc key (r :: rows)); [destruct Hin | discriminate].
  - now intros ->.
Qed.
End OrmFacts.

(** ** BuildRecord: the primary key and the conditional update *)

Section BuildRecordFacts.
Import BuildRecord.

Lemma set_buildrecords_same s : set_buildrecords (buildrecords s) s = s.
Proof. now destruct s. Qed.

(** [id] is the primary key: two rows with the same [id] are one row. *)
Lemma id_unique rows r1 r2 :
  NoDup (map br_id rows) -> In r1 rows -> In r2 rows ->
  br_id r1 = br_id r2 -> r1 = r2.
Proof.
  induction rows as [|x rows IH]; simpl; intros Hnd H1 H2 E; [tauto|].
  inversion Hnd as [|? ? Hx Hnd']; subst.
  destruct H1 as [->|H1], H2 as [->|H2]; auto.
  - exfalso. apply Hx. rewrite E. now apply in_map.
  - exfalso. apply Hx. rewrite <- E. now apply in_map.
Qed.

Lemma id_split rows r :
  NoDup (map br_id rows) -> In r rows ->
  exists pre post, rows = pre ++ r :: post /\
    forall x, In x pre \/ In x post -> (br_id x =? br_id r) = false.
Proof.
  intros Hnd Hin. destruct (in_split _ _ Hin) as (pre & post & ->).
  exists pre, post. split; [reflexivity|].
  intros x Hx. apply Z.eqb_neq. intros E.
  assert (Hr : In r (pre ++ r :: post)) by (apply in_or_app; right; now left).
  assert (Hx' : In x (pre ++ r :: post))
    by (apply in_or_app; destruct Hx; [now left | right; now right]).
  pose proof (id_unique _ _ _ Hnd Hx' Hr E) as ->.
  rewrite map_app in Hnd. simpl in Hnd. apply NoDup_remove_2 in Hnd.
  apply Hnd. apply in_or_app. destruct Hx as [Hx|Hx]; [left|right]; now apply in_map.
Qed.

Lemma filter_id_split pre post r :
  (forall x, In x pre \/ In x post -> (br_id x =? br_id r) = false) ->
  filter (fun x => br_id x =? br_id r) (pre ++ r :: post) = [r].
Proof.
  intros H. rewrite filter_app. simpl. rewrite Z.eqb_refl.
  assert (Hf : forall l, (forall x, In x l -> (br_id x =? br_id r) = false) ->
                         filter (fun x => br_id x =? br_id r) l = []).
  { induction l as [|y l IH]; simpl; intros Hl; [reflexivity|].
    rewrite (Hl y) by now left. apply IH. intros; apply Hl; now right. }
  rewrite !Hf; auto.
Qed.

(** The conditional update of an unassigned row, under the primary key:
    exactly that row is rewritten. *)
Lemma conditional_update_wins rows r node :
  NoDup (map br_id rows) -> In r rows -> build_node r = None ->
  exists pre post, rows = pre ++ r :: post /\
    conditional_update (br_id r) node rows =
      (1%nat, pre ++ with_build_node (Some node) r :: post) /\
    Orm.get (fun x => br_id x =? br_id r)
            (pre ++ with_build_node (Some node) r :: post) =
      Ok (with_build_node (Some node) r).
Proof.
  intros Hnd Hin Hnull. destruct (id_split _ _ Hnd Hin) as (pre & post & -> & Hne).
  exists pre, post. split; [reflexivity|]. split.
  - unfold conditional_update. rewrite update_app. simpl.
    rewrite !update_no_match.
    + assert (Hc : claimable (br_id r) r = true)
        by (unfold claimable; now rewrite Z.eqb_refl, Hnull).
      simpl. rewrite Hc. reflexivity.
    + intros x Hx. unfold claimable. now rewrite Hne by now right.
    + intros x Hx. unfold claimable. now rewrite Hne by now left.
  - unfold Orm.get.
    change (fun x => br_id x =? br_id r)
      with (fun x => br_id x =? br_id (with_build_node (Some node) r)).
    rewrite filter_id_split; [reflexivity|]. exact Hne.
Qed.

(** A row that already has a node is not matched by any conditional
    update. *)
Lemma claimed_not_claimable i r :
  build_node r <> None -> claimable i r = false.
Proof.
  unfold claimable. destruct (build_node r); [intros _|congruence].
  apply andb_false_r.
Qed.

Lemma conditional_update_keeps_claimed i node rows k r :
  nth_error rows k = Some r -> build_node r <> None ->
  nth_error (snd (conditional_update i node rows)) k = Some r.
Proof.
  intros Hk Hn. unfold conditional_update. rewrite update_nth, Hk. simpl.
  now rewrite claimed_not_claimable.
Qed.

Lemma conditional_update_ids i node rows :
  map br_id (snd (conditional_update i node rows)) = map br_id rows.
Proof. apply update_map_key. reflexivity. Qed.

(** No match: the table is left as it was. *)
Lemma conditional_update_zero i node rows rows' :
  conditional_update i node rows = (O, rows') -> rows' = rows.
Proof.
  unfold conditional_update. intros H.
  pose proof (update_count _ (claimable i) (with_build_node (Some node)) rows) as Hc.
  rewrite H in Hc. simpl in Hc.
  assert (Hnone : forall r, In r rows -> claimable i r = false).
  { intros r Hr. destruct (claimable i r) eqn:E; [|reflexivity].
    assert (Hf : In r (filter (claimable i) rows)) by (apply filter_In; auto).
    destruct (filter (claimable i) rows); [destruct Hf | discriminate]. }
  rewrite (update_no_match _ _ _ _ Hnone) in H. congruence.
Qed.

(** Under the primary key at most one row matches. *)
Lemma conditional_update_at_most_one i node rows :
  NoDup (map br_id rows) ->
  (fst (conditional_update i node rows) <= 1)%nat.
Proof.
  intros Hnd. unfold conditional_update. rewrite update_count.
  destruct (filter (claimable i) rows) as [|r1 [|r2 l]] eqn:E; simpl; try lia.
  exfalso.
  assert (H1 : In r1 (filter (claimable i) rows)) by (rewrite E; now left).
  assert (H2 : In r2 (filter (claimable i) rows)) by (rewrite E; right; now left).
  apply filter_In in H1, H2. destruct H1 as [H1 C1], H2 as [H2 C2].
  unfold claimable in C1, C2. apply andb_prop in C1, C2.
  destruct C1 as [C1 _], C2 as [C2 _]. apply Z.eqb_eq in C1, C2.
  assert (r1 = r2) by (eapply id_unique; eauto; congruence). subst r2.
  assert (Hf : NoDup (map br_id (filter (claimable i) rows))).
  { clear -Hnd. induction rows as [|x rows IH]; simpl; [constructor|].
    inversion Hnd; subst. destruct (claimable i x); simpl; auto.
    constructor; auto. intros Hin. apply in_map_iff in Hin.
    destruct Hin as (y & Ey & Hy). apply filter_In in Hy.
    match goal with H : ~ In _ _ |- _ => apply H end.
    rewrite <- Ey. apply in_map. tauto. }
  rewrite E in Hf. simpl in Hf. inversion Hf; subst. simpl in *. tauto.
Qed.
End BuildRecordFacts.

(** ** BuildRecord.pick_build, one caller *)

Section PickBuild.
Import BuildRecord.

Lemma pending_unassigned r rows :
  In r (pending_builds rows) -> In r rows /\ build_node r = None.
Proof.
  unfold pending_builds. rewrite filter_In. unfold pending.
  intros [Hin H]. apply andb_prop in H. destruct H as [_ H].
  split; [exact Hin|]. now destruct (build_node r).
Qed.

Lemma scan_empty node rows :
  pending_builds rows = [] ->
  pick_step node AtScan rows = (Returned (Ok None), rows).
Proof. intros H. simpl. now rewrite H. Qed.

Lemma scan_first node rows :
  pending_builds rows <> [] ->
  exists r, In r (pending_builds rows) /\
    (forall c, In c (pending_builds rows) -> priority c <= priority r) /\
    pick_step node AtScan rows = (AtUpdate r, rows).
Proof.
  intros Hne. simpl.
  destruct (index0 (Orm.order_by_desc priority (pending_builds rows))) as [r|e] eqn:E.
  - exists r. destruct (order_by_desc_first _ _ _ _ E). auto.
  - exfalso. apply Hne. apply (order_by_desc_empty _ priority).
    destruct (Orm.order_by_desc priority (pending_builds rows)); simpl in *; congruence.
Qed.

Lemma update_get_steps node rows r :
  NoDup (map br_id rows) -> In r rows -> build_node r = None ->
  let rows' := snd (conditional_update (br_id r) node rows) in
  pick_step node (AtUpdate r) rows = (AtGet r, rows') /\
  pick_step node (AtGet r) rows' =
    (Returned (Ok (Some (with_build_node (Some node) r))), rows').
Proof.
  intros Hnd Hin Hnull rows'.
  destruct (conditional_update_wins rows r node Hnd Hin Hnull)
    as (pre & post & Hrows & Hupd & Hget).
  subst rows'. simpl. rewrite Hupd. simpl. now rewrite Hget.
Qed.

(** What a lone caller returns, for every amount of fuel. *)
Lemma pick_build_cases fuel node s :
  NoDup (map br_id (buildrecords s)) ->
  let rows := buildrecords s in
  pick_build fuel node s =
    match index0 (Orm.order_by_desc priority (pending_builds rows)) with
    | Raise _ => match fuel with O => None | S _ => Some (Ok None, s) end
    | Ok r =>
        if (fuel <? 3)%nat then None
        else Some (Ok (Some (with_build_node (Some (bn_name node)) r)),
                   set_buildrecords
                     (snd (conditional_update (br_id r) (bn_name node) rows)) s)
    end.
Proof.
  intros Hnd rows. subst rows.
  destruct (index0 (Orm.order_by_desc priority (pending_builds (buildrecords s))))
    as [r|e] eqn:E.
  - destruct (order_by_desc_first _ _ _ _ E) as [Hin _].
    destruct (pending_unassigned _ _ Hin) as [Hrows Hnull].
    destruct (update_get_steps (bn_name node) _ r Hnd Hrows Hnull) as [Hu Hg].
    assert (Hscan : pick_step (bn_name node) AtScan (buildrecords s)
                    = (AtUpdate r, buildrecords s)) by (simpl; now rewrite E).
    unfold pick_build.
    destruct fuel as [|[|[|fuel]]]; cbn [run Nat.ltb Nat.leb];
      rewrite ?Hscan; try reflexivity;
      cbn [run]; rewrite ?Hu; try reflexivity;
      cbn [run]; rewrite ?Hg; try reflexivity.
    destruct fuel; reflexivity.
  - destruct fuel as [|fuel]; [reflexivity|].
    unfold pick_build. cbn [run]. cbn [pick_step]. rewrite E.
    destruct fuel; simpl; now rewrite set_buildrecords_same.
Qed.

Lemma pending_builds_perm rows1 rows2 :
  Permutation rows1 rows2 ->
  forall r, In r (pending_builds rows1) <-> In r (pending_builds rows2).
Proof.
  intros P r. unfold pending_builds. rewrite !filter_In.
  split; intros [H1 H2]; split; auto;
    [eapply Permutation_in; eauto | eapply Permutation_in; [symmetry|]; eauto].
Qed.

Lemma pick_build_returns_max fuel node s r st :
  NoDup (map br_id (buildrecords s)) ->
  pick_build fuel node s = Some (Ok (Some r), st) ->
  exists r0, In r0 (pending_builds (buildrecords s)) /\
    (forall c, In c (pending_builds (buildrecords s)) -> priority c <= priority r0) /\
    priority r = priority r0.
Proof.
  intros Hnd H. rewrite (pick_build_cases fuel node s Hnd) in H.
  destruct (index0 (Orm.order_by_desc priority (pending_builds (buildrecords s))))
    as [r0|e] eqn:E.
  - destruct (order_by_desc_first _ _ _ _ E) as [Hin Hmax].
    exists r0. split; [exact Hin|]. split; [exact Hmax|].
    destruct (fuel <? 3)%nat; [discriminate|]. injection H as <- _. reflexivity.
  - destruct fuel; discriminate.
Qed.

(** C2.  With [id] a primary key, [pick_build] run by one caller returns
    [None] when no build is pending, and otherwise claims a pending build
    whose priority is the highest among the pending ones; the priority of
    the build it claims does not depend on the order of the rows. *)
Theorem pick_build_highest_priority (node : BuildNode) (s : Store) :
  NoDup (map br_id (buildrecords s)) ->
  let builds := pending_builds (buildrecords s) in
  (builds = [] ->
     forall fuel, pick_build (S fuel) node s = Some (Ok None, s)) /\
  (builds <> [] ->
     exists r, In r builds /\
       (forall c, In c builds -> priority c <= priority r) /\
       forall fuel,
         pick_build (3 + fuel) node s =
           Some (Ok (Some (with_build_node (Some (bn_name node)) r)),
                 set_buildrecords
                   (snd (conditional_update (br_id r) (bn_name node)
                                            (buildrecords s))) s)) /\
  (forall s2 fuel fuel2 r r2 st st2,
     Permutation (buildrecords s) (buildrecords s2) ->
     pick_build fuel node s = Some (Ok (Some r), st) ->
     pick_build fuel2 node s2 = Some (Ok (Some r2), st2) ->
     priority r2 = priority r).
Proof.
  intros Hnd builds. subst builds. split; [|split].
  - intros E fuel. rewrite (pick_build_cases (S fuel) node s Hnd), E. reflexivity.
  - intros Hne.
    destruct (index0 (Orm.order_by_desc priority (pending_builds (buildrecords s))))
      as [r|e] eqn:E.
    + destruct (order_by_desc_first _ _ _ _ E) as [Hin Hmax].
      exists r. split; [exact Hin|]. split; [exact Hmax|]. intros fuel.
      rewrite (pick_build_cases (3 + fuel) node s Hnd), E. reflexivity.
    + exfalso. apply Hne. apply (order_by_desc_empty _ priority).
      destruct (Orm.order_by_desc priority (pending_builds (buildrecords s)));
        simpl in *; congruence.
  - intros s2 fuel fuel2 r r2 st st2 P H1 H2.
    assert (Hnd2 : NoDup (map br_id (buildrecords s2))).
    { eapply Permutation_NoDup; [|exact Hnd]. now apply Permutation_map. }
    destruct (pick_build_returns_max _ _ _ _ _ Hnd H1) as (a & Ha & Hamax & ->).
    destruct (pick_build_returns_max _ _ _ _ _ Hnd2 H2) as (a2 & Ha2 & Hamax2 & ->).
    pose proof (pending_builds_perm _ _ P) as Hp.
    apply Hp in Ha. apply Hp in Ha2.
    specialize (Hamax _ Ha2). specialize (Hamax2 _ Ha). lia.
Qed.

(** The example of the specification: priorities 10, 50, 30, in every
    order of insertion. *)
Example pick_build_10_50_30 :
  let r10 := example_record 1 10 in
  let r50 := example_record 2 50 in
  let r30 := example_record 3 30 in
  Forall (fun rows =>
            option_map fst (pick_build 3 example_node (example_store rows))
            = Some (Ok (Some (with_build_node (Some "buildd-1") r50))))
         [ [r10; r50; r30]; [r10; r30; r50]; [r50; r10; r30];
           [r50; r30; r10]; [r30; r10; r50]; [r30; r50; r10] ].
Proof. repeat constructor. Qed.

Lemma pick_build_highest_priority_witness :
  let s := example_store [example_record 1 10; example_record 2 50;
                          example_record 3 30] in
  NoDup (map br_id (buildrecords s)) /\
  exists r, In r (pending_builds (buildrecords s)) /\
    (forall c, In c (pending_builds (buildrecords s)) -> priority c <= priority r) /\
    forall fuel,
      pick_build (3 + fuel) example_node s =
        Some (Ok (Some (with_build_node (Some (bn_name example_node)) r)),
              set_buildrecords
                (snd (conditional_update (br_id r) (bn_name example_node)
                                         (buildrecords s))) s).
Proof.
  intros s.
  assert (Hnd : NoDup (map br_id (buildrecords s))).
  { simpl. repeat constructor; simpl; intuition discriminate. }
  split; [exact Hnd|].
  apply (pick_build_highest_priority example_node s Hnd). discriminate.
Defined.
End PickBuild.

(** ** BuildRecord.pick_build, concurrent callers *)

Section ConcurrentClaim.
Import BuildRecord.

Lemma update_In_keep (Row : Type) (p : Row -> bool) f rows r :
  In r rows -> p r = false -> In r (snd (Orm.update p f rows)).
Proof.
  induction rows as [|x rows IH]; simpl; [tauto|]. intros Hin Hp.
  destruct (Orm.update p f rows) as [n rows']; simpl in *.
  destruct Hin as [->|Hin].
  - rewrite Hp. now left.
  - destruct (p x); right; auto.
Qed.

Lemma update_In_hit (Row : Type) (p : Row -> bool) f rows r :
  In r rows -> p r = true -> In (f r) (snd (Orm.update p f rows)).
Proof.
  induction rows as [|x rows IH]; simpl; [tauto|]. intros Hin Hp.
  destruct (Orm.update p f rows) as [n rows']; simpl in *.
  destruct Hin as [->|Hin].
  - rewrite Hp. now left.
  - destruct (p x); right; auto.
Qed.

Lemma in_held_ids i cs :
  In i (held_ids cs) <-> exists c, In c cs /\ holds (c_pc c) = Some i.
Proof.
  unfold held_ids. rewrite in_flat_map. split.
  - intros (c & Hc & Hi). exists c. split; [exact Hc|].
    destruct (holds (c_pc c)); simpl in Hi; [|tauto]. destruct Hi as [->|[]]. reflexivity.
  - intros (c & Hc & Hi). exists c. split; [exact Hc|]. rewrite Hi. now left.
Qed.

Lemma held_ids_app cs1 cs2 : held_ids (cs1 ++ cs2) = held_ids cs1 ++ held_ids cs2.
Proof. unfold held_ids. apply flat_map_app. Qed.

(** Every step leaves the table alone or is a conditional update. *)
Lemma pick_step_db node p rows p' rows' :
  pick_step node p rows = (p', rows') ->
  rows' = rows \/ exists i, rows' = snd (conditional_update i node rows).
Proof.
  destruct p as [|nb|nb|r]; simpl.
  - destruct (index0 _); intros [= <- <-]; now left.
  - destruct (conditional_update (br_id nb) node rows) as [m rs] eqn:E.
    destruct (Nat.eqb m 1); intros [= <- <-]; right; exists (br_id nb);
      now rewrite E.
  - destruct (Orm.get _ rows); intros [= <- <-]; now left.
  - intros [= <- <-]; now left.
Qed.

Lemma holds_assigned_step node p rows p' rows' c :
  pick_step node p rows = (p', rows') ->
  holds_assigned rows c -> holds_assigned rows' c.
Proof.
  intros Hs Hc. destruct (pick_step_db _ _ _ _ _ Hs) as [->|[j ->]]; [exact Hc|].
  intros i Hi. destruct (Hc i Hi) as (r & Hin & Hid & Hn).
  exists r. split; [|tauto].
  apply update_In_keep; [exact Hin|]. apply claimed_not_claimable. congruence.
Qed.

Lemma pick_step_ids node p rows p' rows' :
  pick_step node p rows = (p', rows') -> map br_id rows' = map br_id rows.
Proof.
  intros Hs. destruct (pick_step_db _ _ _ _ _ Hs) as [->|[j ->]]; [reflexivity|].
  apply conditional_update_ids.
Qed.

(** A stored assignment survives every step. *)
Lemma pick_step_keeps_claimed node p rows p' rows' k r :
  pick_step node p rows = (p', rows') ->
  nth_error rows k = Some r -> build_node r <> None ->
  nth_error rows' k = Some r.
Proof.
  intros Hs Hk Hn. destruct (pick_step_db _ _ _ _ _ Hs) as [->|[j ->]]; [exact Hk|].
  now apply conditional_update_keeps_claimed.
Qed.

(** The moving caller: what it holds afterwards. *)
Lemma pick_step_holds node p rows p' rows' :
  NoDup (map br_id rows) ->
  pick_step node p rows = (p', rows') ->
  holds_assigned rows {| c_node := node; c_pc := p |} ->
  holds_assigned rows' {| c_node := node; c_pc := p' |} /\
  (holds p' = holds p \/ holds p' = None \/
   exists r, holds p = None /\ holds p' = Some (br_id r) /\
             In r rows /\ build_node r = None).
Proof.
  intros Hnd Hs Hc. destruct p as [|nb|nb|res].
  - simpl in Hs. destruct (index0 _); injection Hs as <- <-;
      (split; [intros i Hi; discriminate | now left]).
  - simpl in Hs.
    destruct (conditional_update (br_id nb) node rows) as [m rs] eqn:E.
    destruct (Nat.eqb m 1) eqn:Em; injection Hs as <- <-.
    + apply Nat.eqb_eq in Em. subst m.
      pose proof (update_count _ (claimable (br_id nb))
                    (with_build_node (Some node)) rows) as Hcnt.
      unfold conditional_update in E. rewrite E in Hcnt. simpl in Hcnt.
      destruct (filter (claimable (br_id nb)) rows) as [|r l] eqn:Ef; [discriminate|].
      assert (Hr : In r (filter (claimable (br_id nb)) rows)) by (rewrite Ef; now left).
      apply filter_In in Hr. destruct Hr as [Hin Hcl].
      pose proof Hcl as Hcl'. unfold claimable in Hcl'. apply andb_prop in Hcl'.
      destruct Hcl' as [Hid Hnull]. apply Z.eqb_eq in Hid.
      assert (Hnone : build_node r = None) by (now destruct (build_node r)).
      split.
      * intros i Hi. simpl in Hi. injection Hi as <-.
        exists (with_build_node (Some node) r). split; [|split; [exact Hid|reflexivity]].
        replace rs with (snd (Orm.update (claimable (br_id nb))
                                (with_build_node (Some node)) rows))
          by now rewrite E.
        now apply update_In_hit.
      * right; right. exists r. simpl. rewrite Hid. auto.
    + split; [intros i Hi; discriminate | now left].
  - simpl in Hs. destruct (Hc (br_id nb) eq_refl) as (r0 & Hin0 & Hid0 & Hn0).
    destruct (id_split _ _ Hnd Hin0) as (pre & post & Hrows & Hne).
    unfold Orm.get in Hs. rewrite <- Hid0, Hrows, filter_id_split in Hs by exact Hne.
    injection Hs as <- <-. split.
    + intros i Hi. simpl in Hi. injection Hi as <-. exists r0.
      rewrite <- Hrows. auto.
    + left. simpl. congruence.
  - simpl in Hs. injection Hs as <- <-. split; [exact Hc | now left].
Qed.

Lemma NoDup_middle (l1 l2 : list Z) (m m' : list Z) :
  NoDup (l1 ++ m ++ l2) ->
  (m' = m \/ m' = [] \/
   exists i, m = [] /\ m' = [i] /\ ~ In i (l1 ++ l2)) ->
  NoDup (l1 ++ m' ++ l2).
Proof.
  intros H [->|[->|(i & -> & -> & Hi)]]; [exact H| |].
  - simpl. apply NoDup_app_remove_l in H as H2. apply NoDup_app_remove_l in H2.
    clear -H H2. induction l1 as [|x l1 IH]; simpl in *; [exact H2|].
    inversion H as [|? ? Hx Hnd]; subst. constructor.
    + intros Hin. apply Hx. apply in_app_iff in Hin. apply in_app_iff.
      destruct Hin; [now left | right; apply in_app_iff; now right].
    + apply IH. exact Hnd.
  - simpl in *. now apply NoDup_Add with (a := i) (l := l1 ++ l2);
      [apply Add_app|].
Qed.

Theorem step_preserves_invariant s s' :
  claim_invariant s -> step s s' -> claim_invariant s'.
Proof.
  intros Hinv Hstep.
  destruct Hstep as [rows pre c post p' rows' Hs].
  destruct Hinv as (Hnd & Hheld & Hall). unfold claim_invariant. simpl in *.
  rewrite Forall_forall in Hall.
  assert (Hc : holds_assigned rows {| c_node := c_node c; c_pc := c_pc c |}).
  { intros i Hi. apply (Hall c); [apply in_elt | exact Hi]. }
  destruct (pick_step_holds _ _ _ _ _ Hnd Hs Hc) as [Hc' Hcases].
  split; [|split].
  - rewrite (pick_step_ids _ _ _ _ _ Hs). exact Hnd.
  - rewrite held_ids_app in *. simpl in *.
    change (held_ids (?x :: post)) with
      ((match holds (c_pc x) with Some i => [i] | None => [] end) ++ held_ids post)
      in *.
    simpl. apply NoDup_middle with
      (m := match holds (c_pc c) with Some i => [i] | None => [] end);
      [exact Hheld|].
    destruct Hcases as [->|[->|(r & Hn & -> & Hin & Hnull)]];
      [now left | right; now left |].
    right; right. exists (br_id r). rewrite Hn.
    split; [reflexivity|]. split; [reflexivity|].
    intros Hi. rewrite <- held_ids_app in Hi. apply in_held_ids in Hi.
    destruct Hi as (c2 & Hc2 & Hh2).
    assert (Hin2 : In c2 (pre ++ c :: post)).
    { apply in_app_iff in Hc2. apply in_app_iff.
      destruct Hc2; [now left | right; now right]. }
    destruct (Hall c2 Hin2 _ Hh2) as (r2 & Hr2 & Hid2 & Hn2).
    assert (r2 = r) by (eapply id_unique; eauto). subst r2. congruence.
  - rewrite Forall_forall. intros c2 Hc2.
    apply in_app_iff in Hc2. destruct Hc2 as [Hc2|[<-|Hc2]].
    + eapply holds_assigned_step; [exact Hs|]. apply Hall.
      apply in_app_iff; now left.
    + exact Hc'.
    + eapply holds_assigned_step; [exact Hs|]. apply Hall.
      apply in_app_iff; right; now right.
Qed.
End ConcurrentClaim.

Section ClaimExclusive.
Import BuildRecord.

Lemma initial_invariant s : initial s -> claim_invariant s.
Proof.
  intros [Hnd Hscan]. unfold claim_invariant. split; [exact Hnd|].
  assert (Hnone : forall c, In c (callers s) -> holds (c_pc c) = None).
  { rewrite Forall_forall in Hscan. intros c Hc. now rewrite (Hscan c Hc). }
  split.
  - assert (E : held_ids (callers s) = []); [|rewrite E; constructor].
    destruct (held_ids (callers s)) as [|i l] eqn:E; [reflexivity|].
    assert (Hi : In i (held_ids (callers s))) by (rewrite E; now left).
    apply in_held_ids in Hi. destruct Hi as (c & Hc & Hh).
    rewrite (Hnone c Hc) in Hh. discriminate.
  - rewrite Forall_forall. intros c Hc i Hi. rewrite (Hnone c Hc) in Hi. discriminate.
Qed.

Lemma steps_invariant s s' :
  claim_invariant s -> steps s s' -> claim_invariant s'.
Proof.
  intros Hinv Hsteps. induction Hsteps as [|s1 s2 s3 H12 _ IH]; [exact Hinv|].
  apply IH. eapply step_preserves_invariant; eauto.
Qed.

Lemma steps_keep_claimed s s' k r :
  steps s s' ->
  nth_error (db s) k = Some r -> build_node r <> None ->
  nth_error (db s') k = Some r.
Proof.
  intros Hsteps. induction Hsteps as [|s1 s2 s3 H12 _ IH]; [auto|].
  intros Hk Hn. apply IH; [|exact Hn].
  destruct H12 as [rows pre c post p' rows' Hs]. simpl in *.
  eapply pick_step_keeps_claimed; eauto.
Qed.

(** One conditional update, under the primary key: either exactly one
    row, unassigned until now, gets the caller's node and the caller goes on
    to fetch it, or nothing changes and the caller scans again. *)
Lemma update_step_dichotomy node nb rows :
  NoDup (map br_id rows) ->
  (exists pre r post,
      rows = pre ++ r :: post /\ br_id r = br_id nb /\ build_node r = None /\
      pick_step node (AtUpdate nb) rows =
        (AtGet nb, pre ++ with_build_node (Some node) r :: post)) \/
  ((forall r, In r rows -> br_id r = br_id nb -> build_node r <> None) /\
   pick_step node (AtUpdate nb) rows = (AtScan, rows)).
Proof.
  intros Hnd.
  destruct (filter (claimable (br_id nb)) rows) as [|r l] eqn:Ef.
  - right.
    assert (Hnone : forall r, In r rows -> claimable (br_id nb) r = false).
    { intros r Hr. destruct (claimable (br_id nb) r) eqn:E; [|reflexivity].
      assert (Hf : In r (filter (claimable (br_id nb)) rows)) by (apply filter_In; auto).
      rewrite Ef in Hf. destruct Hf. }
    split.
    + intros r Hr Hid Hn. specialize (Hnone r Hr). unfold claimable in Hnone.
      rewrite Hid, Z.eqb_refl, Hn in Hnone. discriminate.
    + simpl. unfold conditional_update. now rewrite update_no_match.
  - left.
    assert (Hr : In r (filter (claimable (br_id nb)) rows)) by (rewrite Ef; now left).
    apply filter_In in Hr. destruct Hr as [Hin Hcl].
    unfold claimable in Hcl. apply andb_prop in Hcl.
    destruct Hcl as [Hid Hnull]. apply Z.eqb_eq in Hid.
    assert (Hnone : build_node r = None) by (now destruct (build_node r)).
    destruct (conditional_update_wins rows r node Hnd Hin Hnone)
      as (pre & post & Hrows & Hupd & _).
    exists pre, r, post. split; [exact Hrows|]. split; [exact Hid|].
    split; [exact Hnone|]. simpl. rewrite <- Hid, Hupd. reflexivity.
Qed.

(** C1.  Callers of [pick_build] interleaved statement by statement, from
    a state in which every caller is about to scan: a record that has a
    node keeps it through every later step (no conditional update matches
    it again); no two callers hold the same record, and a record a caller
    holds is assigned to that caller's node; and each conditional update
    either assigns exactly one so far unassigned record to its caller or
    changes nothing and sends the caller back to the scan. *)
Theorem pick_build_claim_exclusive (s0 s1 s2 : system) :
  initial s0 -> steps s0 s1 -> steps s1 s2 ->
  (forall k r, nth_error (db s1) k = Some r -> build_node r <> None ->
               nth_error (db s2) k = Some r /\
               forall i, claimable i r = false) /\
  NoDup (held_ids (callers s2)) /\
  Forall (holds_assigned (db s2)) (callers s2) /\
  (forall c nb, In c (callers s2) -> c_pc c = AtUpdate nb ->
     (exists pre r post,
         db s2 = pre ++ r :: post /\ br_id r = br_id nb /\ build_node r = None /\
         pick_step (c_node c) (c_pc c) (db s2) =
           (AtGet nb, pre ++ with_build_node (Some (c_node c)) r :: post)) \/
     ((forall r, In r (db s2) -> br_id r = br_id nb -> build_node r <> None) /\
      pick_step (c_node c) (c_pc c) (db s2) = (AtScan, db s2))).
Proof.
  intros Hinit H01 H12.
  assert (Hinv : claim_invariant s2).
  { eapply steps_invariant; [|exact H12].
    eapply steps_invariant; [|exact H01]. now apply initial_invariant. }
  destruct Hinv as (Hnd & Hheld & Hall).
  split; [|split; [exact Hheld | split; [exact Hall|]]].
  - intros k r Hk Hn. split.
    + eapply steps_keep_claimed; eauto.
    + intros i. now apply claimed_not_claimable.
  - intros c nb _ ->. now apply update_step_dichotomy.
Qed.

Ltac caller_step pre c post :=
  eapply steps_more;
  [ apply (step_caller _ pre c post); reflexivity | simpl ].

Lemma race_run_1 : steps race_start race_claimed.
Proof.
  unfold race_start, race_claimed.
  caller_step (@nil caller) {| c_node := "buildd-1"; c_pc := AtScan |}
              [ {| c_node := "buildd-2"; c_pc := AtScan |} ].
  caller_step [ {| c_node := "buildd-1"; c_pc := AtUpdate (example_record 1 10) |} ]
              {| c_node := "buildd-2"; c_pc := AtScan |} (@nil caller).
  caller_step (@nil caller)
              {| c_node := "buildd-1"; c_pc := AtUpdate (example_record 1 10) |}
              [ {| c_node := "buildd-2"; c_pc := AtUpdate (example_record 1 10) |} ].
  apply steps_refl.
Defined.

Lemma race_run_2 : steps race_claimed race_end.
Proof.
  unfold race_claimed, race_end.
  caller_step [ {| c_node := "buildd-1"; c_pc := AtGet (example_record 1 10) |} ]
              {| c_node := "buildd-2"; c_pc := AtUpdate (example_record 1 10) |}
              (@nil caller).
  caller_step [ {| c_node := "buildd-1"; c_pc := AtGet (example_record 1 10) |} ]
              {| c_node := "buildd-2"; c_pc := AtScan |} (@nil caller).
  caller_step (@nil caller)
              {| c_node := "buildd-1"; c_pc := AtGet (example_record 1 10) |}
              [ {| c_node := "buildd-2"; c_pc := Returned (Ok None) |} ].
  apply steps_refl.
Defined.

Lemma pick_build_claim_exclusive_witness :
  initial race_start /\ steps race_start race_claimed /\
  steps race_claimed race_end /\
  NoDup (held_ids (callers race_end)) /\
  Forall (holds_assigned (db race_end)) (callers race_end).
Proof.
  assert (Hinit : initial race_start).
  { split; simpl; repeat constructor. intros []. }
  split; [exact Hinit|]. split; [exact race_run_1|]. split; [exact race_run_2|].
  destruct (pick_build_claim_exclusive race_start race_claimed race_end
              Hinit race_run_1 race_run_2) as (_ & H1 & H2 & _).
  split; [exact H1 | exact H2].
Defined.
End ClaimExclusive.

(** ** The transport: run_cmd *)

Section Transport.
Import BuildNode.

Lemma firstn_nonempty (n : nat) (x : ascii) (buf : bytes) :
  (0 < n)%nat -> firstn n (x :: buf) <> [].
Proof. destruct n; [lia|]. discriminate. Qed.

Lemma recv_size_pos : (0 < 4096)%nat.
Proof. apply Nat.lt_0_succ. Qed.

Lemma firstn_chunk_ok (x : ascii) (buf : bytes) : chunk_ok (firstn 4096 (x :: buf)).
Proof.
  split.
  - apply firstn_nonempty, recv_size_pos.
  - apply firstn_le_length.
Qed.

Lemma skipn_shorter (x : ascii) (buf : bytes) :
  (List.length (skipn 4096 (x :: buf)) < List.length (x :: buf))%nat.
Proof.
  pose proof recv_size_pos. rewrite length_skipn.
  generalize dependent 4096%nat. intros n Hn.
  change (List.length (x :: buf)) with (S (List.length buf)). lia.
Qed.

Lemma recv_nonempty (x : ascii) (buf : bytes) :
  Nat.eqb (List.length (firstn 4096 (x :: buf))) 0 = false.
Proof.
  pose proof (firstn_nonempty 4096 x buf recv_size_pos) as H.
  destruct (firstn 4096 (x :: buf)); [congruence | reflexivity].
Qed.

(** The receive loop on a channel with the error stream combined: all
    the output still to come is yielded, in order, and the exit status
    decides how the loop ends. *)
Lemma recv_loop_drains cmd fuel :
  forall ib eb rem st,
    (List.length rem + List.length ib
     + List.length (List.concat (map Channel.payload rem)) < fuel)%nat ->
    let chan := {| Channel.in_buffer := ib; Channel.in_stderr_buffer := eb;
                   Channel.combine_stderr := true;
                   Channel.remote := rem; Channel.status := st |} in
    exists ys,
      recv_loop fuel cmd chan = Some (ys, finish_of st cmd) /\
      List.concat ys = pending_output chan /\
      Forall chunk_ok ys.
Proof.
  induction fuel as [|fuel IH]; intros ib eb rem st Hfuel chan; [lia|].
  subst chan. unfold pending_output. cbn [Channel.in_buffer Channel.remote].
  destruct ib as [|x buf].
  - destruct rem as [|e rest].
    + (* closed and drained *)
      exists []. cbn. unfold finish_of.
      destruct (st =? 0); simpl; auto.
    + (* the next arrival *)
      assert (Hfeed : Channel.feed e rest
                {| Channel.in_buffer := []; Channel.in_stderr_buffer := eb;
                   Channel.combine_stderr := true;
                   Channel.remote := e :: rest; Channel.status := st |}
              = {| Channel.in_buffer := Channel.payload e;
                   Channel.in_stderr_buffer := eb;
                   Channel.combine_stderr := true;
                   Channel.remote := rest; Channel.status := st |})
        by (destruct e; reflexivity).
      cbn [recv_loop Channel.select Channel.recv_ready Channel.in_buffer
           Channel.remote].
      rewrite Hfeed. cbn [Channel.recv_ready Channel.in_buffer].
      simpl in Hfuel. rewrite length_app in Hfuel.
      destruct (Channel.payload e) as [|y pl] eqn:Epl.
      * destruct (IH [] eb rest st) as (ys & Hrun & Hcat & Hok); [simpl; lia|].
        exists ys. simpl. rewrite Epl. simpl. auto.
      * cbn [Channel.recv Channel.in_buffer Channel.in_stderr_buffer
             Channel.combine_stderr Channel.remote Channel.status].
        rewrite recv_nonempty.
        pose proof (skipn_shorter y pl) as Hsk.
        destruct (IH (skipn 4096 (y :: pl)) eb rest st) as (ys & Hrun & Hcat & Hok);
          [simpl in *; lia|].
        rewrite Hrun. exists (firstn 4096 (y :: pl) :: ys).
        split; [reflexivity|]. split.
        -- cbn [List.concat map]. rewrite Hcat. unfold pending_output.
           cbn [Channel.in_buffer Channel.remote]. rewrite Epl.
           rewrite !app_assoc, firstn_skipn. reflexivity.
        -- constructor; [apply firstn_chunk_ok | exact Hok].
  - (* data is buffered *)
    cbn [recv_loop Channel.select Channel.recv_ready Channel.in_buffer
         Channel.recv Channel.in_stderr_buffer Channel.combine_stderr
         Channel.remote Channel.status].
    rewrite recv_nonempty.
    pose proof (skipn_shorter x buf) as Hsk.
    destruct (IH (skipn 4096 (x :: buf)) eb rem st) as (ys & Hrun & Hcat & Hok);
      [simpl in *; lia|].
    rewrite Hrun. exists (firstn 4096 (x :: buf) :: ys).
    split; [reflexivity|]. split.
    + cbn [List.concat]. rewrite Hcat. unfold pending_output.
      cbn [Channel.in_buffer Channel.remote].
      rewrite app_assoc, firstn_skipn. reflexivity.
    + constructor; [apply firstn_chunk_ok | exact Hok].
Qed.

(** [run_cmd] on a command that was started: total, with the whole
    combined output yielded. *)
Lemma run_cmd_runs cmd input p :
  exists ys,
    run_cmd cmd input (Runs p) = Some (ys, finish_of (exit_status p) cmd) /\
    List.concat ys = combined_output p /\
    Forall chunk_ok ys.
Proof.
  unfold run_cmd.
  change (Channel.set_combine_stderr true (Channel.exec_command p))
    with {| Channel.in_buffer := []; Channel.in_stderr_buffer := [];
            Channel.combine_stderr := true;
            Channel.remote := emissions p; Channel.status := exit_status p |}.
  destruct (recv_loop_drains cmd
              (Channel.budget
                 {| Channel.in_buffer := []; Channel.in_stderr_buffer := [];
                    Channel.combine_stderr := true;
                    Channel.remote := emissions p;
                    Channel.status := exit_status p |})
              [] [] (emissions p) (exit_status p))
    as (ys & Hrun & Hcat & Hok).
  - unfold Channel.budget. simpl. lia.
  - exists ys. auto.
Qed.

Lemma run_cmd_total cmd input reply : run_cmd cmd input reply <> None.
Proof.
  destruct reply as [e|p]; [discriminate|].
  destruct (run_cmd_runs cmd input p) as (ys & H & _). congruence.
Qed.
End Transport.

(** ** _run_cmd: the output collected and the lines logged *)

Section Collect.
Import BuildNode.

Lemma split_nonempty sep s : Py.split sep s <> [].
Proof.
  destruct s as [|c s]; simpl; [discriminate|].
  destruct (Ascii.eqb c sep); [discriminate|].
  destruct (Py.split sep s); discriminate.
Qed.

Lemma removelast_cons (A : Type) (x : A) (l : list A) :
  l <> [] -> removelast (x :: l) = x :: removelast l.
Proof. destruct l; [congruence | reflexivity]. Qed.

Lemma last_cons (A : Type) (x : A) (l : list A) (d : A) :
  l <> [] -> last (x :: l) d = last l d.
Proof. destruct l; [congruence | reflexivity]. Qed.

(** Splitting a concatenation: the complete lines of the first part, then
    the lines of what remains of it followed by the second part. *)
Lemma split_app sep (s1 s2 : bytes) :
  removelast (Py.split sep (s1 ++ s2)) =
    removelast (Py.split sep s1)
    ++ removelast (Py.split sep (last (Py.split sep s1) [] ++ s2)) /\
  last (Py.split sep (s1 ++ s2)) [] =
    last (Py.split sep (last (Py.split sep s1) [] ++ s2)) [].
Proof.
  induction s1 as [|c s1 [IH1 IH2]]; [simpl; auto|].
  cbn [app Py.split]. destruct (Ascii.eqb c sep) eqn:Ec.
  - rewrite !removelast_cons, !last_cons by apply split_nonempty.
    rewrite IH1, IH2. auto.
  - pose proof (split_nonempty sep s1) as Hne1.
    pose proof (split_nonempty sep (s1 ++ s2)) as Hne2.
    destruct (Py.split sep s1) as [|w ws] eqn:E1; [congruence|].
    destruct (Py.split sep (s1 ++ s2)) as [|w' ws'] eqn:E2; [congruence|].
    destruct ws as [|w2 ws].
    + (* no separator in [s1] *)
      cbn [removelast last app]. cbn [app Py.split]. rewrite Ec.
      cbn [last] in IH1, IH2. cbn [removelast app] in IH1.
      destruct (Py.split sep (w ++ s2)) as [|v vs] eqn:E3;
        [now apply split_nonempty in E3|].
      destruct ws' as [|w2' ws'].
      * destruct vs as [|v2 vs]; cbn [removelast last] in *;
          [subst; auto | discriminate].
      * destruct vs as [|v2 vs]; [discriminate|].
        cbn [removelast last] in *. injection IH1 as -> ->. auto.
    + (* [s1] has a separator *)
      assert (Hl : forall x : list ascii,
                 last (x :: w2 :: ws) [] = last (w2 :: ws) []) by reflexivity.
      assert (Hr : forall x : list ascii,
                 removelast (x :: w2 :: ws) = x :: removelast (w2 :: ws))
        by reflexivity.
      rewrite !Hl, !Hr. rewrite Hl, Hr in IH1. rewrite Hl in IH2.
      destruct ws' as [|w2' ws']; [discriminate|].
      change (removelast ((c :: w') :: w2' :: ws'))
        with ((c :: w') :: removelast (w2' :: ws')).
      change (removelast (w' :: w2' :: ws'))
        with (w' :: removelast (w2' :: ws')) in IH1.
      change (last ((c :: w') :: w2' :: ws') []) with (last (w2' :: ws') []).
      change (last (w' :: w2' :: ws') []) with (last (w2' :: ws') []) in IH2.
      cbn [app] in IH1. injection IH1 as -> IH1.
      cbn [app]. split; [f_equal; exact IH1 | exact IH2].
Qed.


(** What follows the last separator has no separator. *)
Lemma split_last_no_sep sep (s : bytes) :
  Py.split sep (last (Py.split sep s) []) = [last (Py.split sep s) []].
Proof.
  induction s as [|c s IH]; [reflexivity|].
  cbn [Py.split]. destruct (Ascii.eqb c sep) eqn:Ec.
  - rewrite last_cons by apply split_nonempty. exact IH.
  - pose proof (split_nonempty sep s) as Hne.
    destruct (Py.split sep s) as [|w ws] eqn:E; [congruence|].
    destruct ws as [|w2 ws].
    + cbn [last] in *. cbn [Py.split]. rewrite Ec, IH. reflexivity.
    + change (last ((c :: w) :: w2 :: ws) []) with (last (w2 :: ws) []).
      exact IH.
Qed.

Lemma log_whole_lines_no_newline (lbuf : bytes) :
  no_newline lbuf -> log_whole_lines lbuf = ([], lbuf).
Proof. unfold no_newline, log_whole_lines. now intros ->. Qed.

Lemma consume_spec ys :
  forall out lbuf logged,
    no_newline lbuf ->
    consume ys out lbuf logged =
      (out ++ List.concat ys,
       last (Py.split Py.newline (lbuf ++ List.concat ys)) [],
       logged ++ removelast (Py.split Py.newline (lbuf ++ List.concat ys))).
Proof.
  induction ys as [|data ys IH]; intros out lbuf logged Hl.
  - simpl. rewrite !app_nil_r, Hl. simpl. rewrite app_nil_r. reflexivity.
  - cbn [consume List.concat]. unfold log_whole_lines.
    rewrite IH by apply split_last_no_sep.
    destruct (split_app Py.newline (lbuf ++ data) (List.concat ys)) as [H1 H2].
    rewrite <- !app_assoc in *. rewrite H1, H2. reflexivity.
Qed.

(** [_run_cmd] on a run of the generator: on success the whole output is
    returned and every line logged; on failure the exception goes to the
    caller and the complete lines received so far are in the log. *)
Lemma collect_spec ys fin :
  collect (ys, fin) =
    match fin with
    | Ok _ => (Py.split Py.newline (List.concat ys), Ok (List.concat ys))
    | Raise e => (removelast (Py.split Py.newline (List.concat ys)), Raise e)
    end.
Proof.
  unfold collect. cbn [fst snd].
  rewrite consume_spec by reflexivity. cbn [app].
  destruct fin as [[]|e]; [|reflexivity].
  rewrite log_whole_lines_no_newline by apply split_last_no_sep.
  cbn [app]. rewrite <- app_removelast_last by apply split_nonempty.
  reflexivity.
Qed.

(** C7.  A command that was started and exits with a non-zero status:
    [run_cmd] yields all of the combined standard output and standard error
    and then raises "Command ... failed"; the consumer has received every
    chunk before the exception, and [_run_cmd] has logged the complete
    lines.  With exit status zero no exception is raised, the same chunks
    are yielded, and [_run_cmd] returns their concatenation, the whole
    combined output. *)
Theorem run_cmd_exit_status (cmd : string) (input : option bytes) (p : process) :
  let data := combined_output p in
  let fin := if exit_status p =? 0 then Ok tt
             else Raise (PyException ("Command " ++ cmd ++ " failed")) in
  exists ys,
    run_cmd cmd input (Runs p) = Some (ys, fin) /\
    List.concat ys = data /\
    Forall chunk_ok ys /\
    collect (ys, fin) =
      if exit_status p =? 0
      then (Py.split Py.newline data, Ok data)
      else (removelast (Py.split Py.newline data),
            Raise (PyException ("Command " ++ cmd ++ " failed"))).
Proof.
  intros data fin.
  destruct (run_cmd_runs cmd input p) as (ys & Hrun & Hcat & Hok).
  exists ys. unfold finish_of, command_failed in Hrun.
  split; [exact Hrun|]. split; [exact Hcat|]. split; [exact Hok|].
  rewrite collect_spec. subst fin data. rewrite Hcat.
  destruct (exit_status p =? 0); reflexivity.
Qed.

Example run_cmd_failing :
  run_cmd "make" None
    (Runs {| emissions := [Stdout (b "cc a.c"); Stderr (b "
a.c:1: error
ld: "); Quiet; Stderr (b "failed")];
             exit_status := 2 |})
  = Some ([b "cc a.c"; b "
a.c:1: error
ld: "; b "failed"], Raise (PyException "Command make failed")).
Proof. reflexivity. Qed.
End Collect.

(** ** update_state *)

Section UpdateState.

(** [BuildRecord.update_state]: the rows with the object's [id] get the
    new state and nothing else changes. *)
Lemma record_update_state_frame (self : BuildRecord) (new_state : Z) (s : Store) :
  exists rows',
    BuildRecord.update_state self new_state s =
      Ok (with_br_state new_state self, set_buildrecords rows' s) /\
    List.length rows' = List.length (buildrecords s) /\
    forall k r, nth_error (buildrecords s) k = Some r ->
      nth_error rows' k =
        Some (if br_id r =? br_id self then with_br_state new_state r else r).
Proof.
  unfold BuildRecord.update_state. cbn [getattr_id has_id_field BuildRecord_meta explicit_pk].
  eexists. split; [reflexivity|]. split.
  - apply update_length.
  - intros k r Hk. rewrite update_nth, Hk. reflexivity.
Qed.

Lemma with_br_state_frame (st : Z) (r : BuildRecord) :
  br_state (with_br_state st r) = st /\
  br_id (with_br_state st r) = br_id r /\
  source_package_name (with_br_state st r) = source_package_name r /\
  version (with_br_state st r) = version r /\
  architecture (with_br_state st r) = architecture r /\
  priority (with_br_state st r) = priority r /\
  series (with_br_state st r) = series r /\
  build_node (with_br_state st r) = build_node r /\
  created (with_br_state st r) = created r.
Proof. repeat split. Qed.

(** C10, on the code.  [BuildRecord.update_state] returns normally; the
    object and the rows with the object's [id] get the new state, keep every
    other field, and every other row and table is as before.
    [BuildNode.update_state] reads [self.id], which a class keyed by [name]
    does not have: it raises [AttributeError] before any write, so the
    node's state is written neither in the store nor on the object. *)
Theorem update_state_record_writes_node_raises :
  (forall (self : BuildRecord) (new_state : Z) (s : Store),
      exists self' s',
        BuildRecord.update_state self new_state s = Ok (self', s') /\
        br_state self' = new_state /\ same_but_state self self' /\
        buildnodes s' = buildnodes s /\ keypairs s' = keypairs s /\
        clouds s' = clouds s /\
        List.length (buildrecords s') = List.length (buildrecords s) /\
        forall k r, nth_error (buildrecords s) k = Some r ->
          exists r',
            nth_error (buildrecords s') k = Some r' /\
            same_but_state r r' /\
            (br_id r = br_id self -> br_state r' = new_state) /\
            (br_id r <> br_id self -> r' = r)) /\
  (forall (new_state : Z) (c : Ctx),
      BuildNode.update_state new_state c = Exc (AttributeError "id") c).
Proof.
  split; [|reflexivity].
  intros self new_state s.
  destruct (record_update_state_frame self new_state s) as (rows' & Hrun & Hlen & Hrows).
  exists (with_br_state new_state self), (set_buildrecords rows' s).
  split; [exact Hrun|]. split; [reflexivity|].
  split; [repeat split|]. repeat (split; [reflexivity|]).
  split; [exact Hlen|]. intros k r Hk.
  cbn [buildrecords set_buildrecords]. rewrite (Hrows k r Hk).
  destruct (br_id r =? br_id self) eqn:E.
  - apply Z.eqb_eq in E. eexists. split; [reflexivity|].
    split; [repeat split|]. split; [reflexivity | congruence].
  - apply Z.eqb_neq in E. exists r. split; [reflexivity|].
    split; [repeat split|]. split; [congruence | reflexivity].
Qed.
End UpdateState.

(** ** build *)

Section Build.
Import BuildNode.
Variable env : Env.

Lemma same_objects_refl c : same_objects c c.
Proof. repeat split. Qed.

Lemma same_objects_trans c1 c2 c3 :
  same_objects c1 c2 -> same_objects c2 c3 -> same_objects c1 c3.
Proof. unfold same_objects. intuition congruence. Qed.

Lemma ends_with_bind (R : Ctx -> Ctx -> Prop) (A B : Type)
      (m : M Ctx A) (k : A -> M Ctx B) c :
  (forall c1 c2 c3, R c1 c2 -> R c2 c3 -> R c1 c3) ->
  ends_with R m c ->
  (forall a c', R c c' -> ends_with R (k a) c') ->
  ends_with R (bind m k) c.
Proof.
  unfold ends_with, bind. intros Htrans Hm Hk.
  destruct (m c) as [a c'|e c'|]; [|exact Hm|exact Hm].
  specialize (Hk a c' Hm).
  destruct (k a c') as [x c''|e c''|]; [| |exact Hk]; eauto.
Qed.

Lemma ends_keeping_bind (A B : Type) (m : M Ctx A) (k : A -> M Ctx B) c :
  ends_keeping m c ->
  (forall a c', same_objects c c' -> ends_keeping (k a) c') ->
  ends_keeping (bind m k) c.
Proof. apply ends_with_bind. exact same_objects_trans. Qed.

Lemma ends_keeping_ret (A : Type) (a : A) c : ends_keeping (ret a) c.
Proof. apply same_objects_refl. Qed.

Lemma ends_keeping_run_cmd cmd input c : ends_keeping (_run_cmd env cmd input) c.
Proof.
  unfold ends_keeping, ends_with, _run_cmd.
  destruct (run_cmd cmd input _) as [t|] eqn:E; [|now apply run_cmd_total in E].
  destruct (snd (collect t)); repeat split.
Qed.

(** The [try] block of [build] with its [except Exception: pass]. *)
Lemma build_try_block c :
  exists c',
    try_except
      (bind (record_attr "series" (fun r => r)) (fun r =>
       bind (_run_cmd env "mkdir build" None) (fun _ =>
       bind get_state (fun c =>
       bind (_run_cmd env (sbuild_command (self c) r) None) (fun _ =>
       bind (_run_cmd env "cd build; dput return *.changes" None) (fun _ =>
       ret tt))))))
      (fun _ => ret tt) c = Ret tt c' /\
    same_objects c c'.
Proof.
  set (body := bind (record_attr "series" (fun r => r)) _).
  assert (H : ends_keeping body c).
  { subst body. apply ends_keeping_bind.
    - unfold ends_keeping, ends_with, record_attr. destruct (build_record c);
        apply same_objects_refl.
    - intros r c1 _. apply ends_keeping_bind; [apply ends_keeping_run_cmd|].
      intros _ c2 _. apply ends_keeping_bind; [apply same_objects_refl|].
      intros c3 c4 _. apply ends_keeping_bind; [apply ends_keeping_run_cmd|].
      intros _ c5 _. apply ends_keeping_bind; [apply ends_keeping_run_cmd|].
      intros _ c6 _. apply ends_keeping_ret. }
  unfold ends_keeping, ends_with in H. unfold try_except.
  destruct (body c) as [[] c'|e c'|]; [| |destruct H]; exists c'; auto.
Qed.

(** C3, on the code.  [build] starts with [self.update_state], which
    raises [AttributeError] (the class is keyed by [name], see C10): the
    exception leaves [build] before the [try] block, and neither state is
    written. *)
Theorem build_raises_attribute_error (c : Ctx) :
  build env c = Exc (AttributeError "id") c.
Proof. reflexivity. Qed.

Lemma bind_ret (S A B : Type) (m : M S A) (k : A -> M S B) s a s' :
  m s = Ret a s' -> bind m k s = k a s'.
Proof. unfold bind. now intros ->. Qed.

Lemma bind_exc (S A B : Type) (m : M S A) (k : A -> M S B) s e s' :
  m s = Exc e s' -> bind m k s = Exc e s'.
Proof. unfold bind. now intros ->. Qed.

Lemma update_In_inv (Row : Type) (p : Row -> bool) f rows y :
  In y (snd (Orm.update p f rows)) ->
  exists x, In x rows /\ y = if p x then f x else x.
Proof.
  induction rows as [|x rows IH]; simpl; [tauto|].
  destruct (Orm.update p f rows) as [n rows']; simpl in *.
  destruct (p x) eqn:E; simpl; intros [<-|H].
  - exists x. rewrite E. auto.
  - destruct (IH H) as (x' & ? & ?). eauto.
  - exists x. rewrite E. auto.
  - destruct (IH H) as (x' & ? & ?). eauto.
Qed.

Lemma update_state_by_pk_spec (st : Z) (c : Ctx) :
  exists c',
    update_state_by_pk st c = Ret tt c' /\
    self c' = with_bn_state st (self c) /\
    build_record c' = build_record c /\
    buildrecords (store (world c')) = buildrecords (store (world c)) /\
    forall n, In n (buildnodes (store (world c'))) ->
              bn_name n = bn_name (self c) -> bn_state n = st.
Proof.
  eexists. split; [reflexivity|]. cbn. repeat split.
  intros n Hn Hname. apply update_In_inv in Hn. destruct Hn as (x & _ & ->).
  destruct (String.eqb (bn_name x) (bn_name (self c))) eqn:E; [reflexivity|].
  apply String.eqb_neq in E. congruence.
Qed.

Lemma record_update_state_spec (st : Z) (c : Ctx) (r : BuildRecord) :
  build_record c = Some r ->
  exists c',
    record_update_state st c = Ret tt c' /\
    self c' = self c /\
    build_record c' = Some (with_br_state st r) /\
    buildnodes (store (world c')) = buildnodes (store (world c)) /\
    forall x, In x (buildrecords (store (world c'))) ->
              br_id x = br_id r -> br_state x = st.
Proof.
  intros Hr. unfold record_update_state. rewrite Hr.
  eexists. split; [reflexivity|]. cbn. repeat split.
  intros x Hx Hid. apply update_In_inv in Hx. destruct Hx as (y & _ & ->).
  destruct (br_id y =? br_id r) eqn:E; [reflexivity|].
  apply Z.eqb_neq in E. congruence.
Qed.

(** With the state written through the primary key, [build] does what
    C3 says: whatever the remote commands do, it returns with the record
    marked as successfully built and the node as shutting down, on the
    objects and in the store. *)
Lemma build_with_pk_marks_built (c : Ctx) (r : BuildRecord) :
  build_record c = Some r ->
  exists c',
    build_with env update_state_by_pk c = Ret tt c' /\
    bn_state (self c') = NodeState.SHUTTING_DOWN /\
    (exists r', build_record c' = Some r' /\
                br_state r' = BuildState.SUCCESFULLY_BUILT) /\
    (forall n, In n (buildnodes (store (world c'))) ->
               bn_name n = bn_name (self c) ->
               bn_state n = NodeState.SHUTTING_DOWN) /\
    (forall x, In x (buildrecords (store (world c'))) ->
               br_id x = br_id r ->
               br_state x = BuildState.SUCCESFULLY_BUILT).
Proof.
  intros Hr. unfold build_with.
  destruct (update_state_by_pk_spec NodeState.BUILDING c)
    as (c1 & E1 & S1 & R1 & _ & _).
  erewrite bind_ret by exact E1.
  destruct (record_update_state_spec BuildState.BUILDING c1 r)
    as (c2 & E2 & S2 & R2 & _ & _); [congruence|].
  erewrite bind_ret by exact E2.
  destruct (build_try_block c2) as (c3 & E3 & S3 & R3 & W3).
  erewrite bind_ret by exact E3.
  destruct (record_update_state_spec BuildState.SUCCESFULLY_BUILT c3
              (with_br_state BuildState.BUILDING r))
    as (c4 & E4 & S4 & R4 & _ & B4); [congruence|].
  erewrite bind_ret by exact E4.
  destruct (update_state_by_pk_spec NodeState.SHUTTING_DOWN c4)
    as (c5 & E5 & S5 & R5 & B5 & N5).
  exists c5. split; [exact E5|]. split; [now rewrite S5|]. split.
  - eexists. split; [rewrite R5; exact R4 | reflexivity].
  - split.
    + intros n Hn Hname. apply N5; [exact Hn|].
      rewrite S4, S3, S2, S1. exact Hname.
    + intros x Hx Hid. rewrite B5 in Hx. now apply B4.
Qed.
End Build.

(** ** _run_cmd as its callers see it *)

Section RunCmd.
Import BuildNode.
Variable env : Env.

Lemma _run_cmd_spec cmd input c :
  let call := SshExec (bn_name (self c)) cmd input in
  _run_cmd env cmd input c =
    match remote_result env (List.length (history (world c)))
                        (bn_name (self c)) cmd input with
    | Ok out => Ret out (called call c)
    | Raise e => Exc e (called call c)
    end.
Proof.
  intros call. unfold _run_cmd, remote_result.
  destruct (ssh_exec env _ _ cmd input) as [e|p]; [reflexivity|].
  destruct (run_cmd_runs cmd input p) as (ys & Hrun & Hcat & _).
  rewrite Hrun, collect_spec. unfold finish_of.
  destruct (exit_status p =? 0); cbn [snd]; [now rewrite Hcat | reflexivity].
Qed.
End RunCmd.

(** ** prepare: the connectivity wait *)

Section ConnectivityWait.
Import BuildNode.
Variable env : Env.
Variable settings : Settings.

(** One round of the loop. *)
Lemma wait_round fuel c :
  wait_for_connection env (S fuel) c =
    if probe_succeeds env (bn_name (self c)) (List.length (history (world c)))
    then Ret tt (called (probe_call c) c)
    else wait_for_connection env fuel (slept 5 (called (probe_call c) c)).
Proof.
  cbn [wait_for_connection]. unfold bind at 1. unfold try_except, bind at 1.
  rewrite _run_cmd_spec. unfold probe_succeeds.
  destruct (remote_result env _ _ "id" None); reflexivity.
Qed.

Lemma history_after_round c :
  List.length (history (world (slept 5 (called (probe_call c) c)))) =
  S (List.length (history (world c))).
Proof. cbn. rewrite length_app. simpl. lia. Qed.

Lemma wait_succeeds_after n :
  forall c fuel,
    probes_fail env c n ->
    probe_succeeds env (bn_name (self c))
                   (List.length (history (world c)) + n) = true ->
    (n < fuel)%nat ->
    exists c',
      wait_for_connection env fuel c = Ret tt c' /\
      same_objects c c' /\
      clock (world c') = clock (world c) + 5 * Z.of_nat n /\
      List.length (history (world c')) = S (List.length (history (world c)) + n).
Proof.
  induction n as [|n IH]; intros c fuel Hfail Hok Hfuel;
    (destruct fuel as [|fuel]; [lia|]); rewrite wait_round.
  - rewrite Nat.add_0_r in Hok. rewrite Hok. eexists. split; [reflexivity|].
    cbn. repeat split; try lia. rewrite length_app. simpl. lia.
  - rewrite <- (Nat.add_0_r (List.length (history (world c)))).
    rewrite (Hfail 0%nat) by lia.
    destruct (IH (slept 5 (called (probe_call c) c)) fuel)
      as (c' & Hrun & Hsame & Hclock & Hhist).
    + intros k Hk. rewrite history_after_round. cbn [slept called set_world self].
      replace (S (List.length (history (world c))) + k)%nat
        with (List.length (history (world c)) + S k)%nat by lia.
      apply Hfail. lia.
    + rewrite history_after_round. cbn [slept called set_world self].
      replace (S (List.length (history (world c))) + n)%nat
        with (List.length (history (world c)) + S n)%nat by lia.
      exact Hok.
    + lia.
    + exists c'. split; [exact Hrun|]. split; [|split].
      * eapply same_objects_trans; [|exact Hsame]. repeat split.
      * rewrite Hclock. cbn [slept called set_world world clock record_call]. lia.
      * rewrite Hhist, history_after_round. lia.
Qed.

Lemma wait_diverges fuel :
  forall c,
    (forall n, probes_fail env c n) ->
    wait_for_connection env fuel c = Diverge.
Proof.
  induction fuel as [|fuel IH]; intros c Hfail; [reflexivity|].
  rewrite wait_round.
  rewrite <- (Nat.add_0_r (List.length (history (world c)))).
  rewrite (Hfail 1%nat 0%nat) by lia.
  apply IH. intros n k Hk.
  rewrite history_after_round. cbn [slept called set_world self].
  replace (S (List.length (history (world c))) + k)%nat
    with (List.length (history (world c)) + S k)%nat by lia.
  apply (Hfail (S (S k))). lia.
Qed.

(** The loop ends only by a successful probe, never by an exception. *)
Lemma wait_ends_by_success fuel :
  forall c,
    match wait_for_connection env fuel c with
    | Ret _ c' =>
        exists n, (n < fuel)%nat /\ probes_fail env c n /\
          probe_succeeds env (bn_name (self c))
                         (List.length (history (world c)) + n) = true /\
          same_objects c c' /\
          clock (world c') = clock (world c) + 5 * Z.of_nat n
    | Exc _ _ => False
    | Diverge => probes_fail env c fuel
    end.
Proof.
  induction fuel as [|fuel IH]; intros c.
  - simpl. intros k Hk. lia.
  - rewrite wait_round.
    destruct (probe_succeeds env (bn_name (self c))
                (List.length (history (world c)))) eqn:E.
    + exists 0%nat. rewrite Nat.add_0_r. split; [lia|]. split; [intros k Hk; lia|].
      split; [exact E|]. split; [repeat split | cbn; lia].
    + specialize (IH (slept 5 (called (probe_call c) c))).
      assert (Hshift : forall n,
                 probes_fail env (slept 5 (called (probe_call c) c)) n ->
                 probes_fail env c (S n)).
      { intros n Hn k Hk. destruct k as [|k]; [now rewrite Nat.add_0_r|].
        specialize (Hn k ltac:(lia)).
        rewrite history_after_round in Hn. cbn [slept called set_world self] in Hn.
        replace (List.length (history (world c)) + S k)%nat
          with (S (List.length (history (world c))) + k)%nat by lia.
        exact Hn. }
      destruct (wait_for_connection env fuel _) as [[] c'|e c'|]; [|exact IH|auto].
      destruct IH as (n & Hn & Hfail & Hok & Hsame & Hclock).
      exists (S n). split; [lia|]. split; [auto|]. split; [|split].
      * rewrite history_after_round in Hok. cbn [slept called set_world self] in Hok.
        replace (List.length (history (world c)) + S n)%nat
          with (S (List.length (history (world c))) + n)%nat by lia.
        exact Hok.
      * eapply same_objects_trans; [|exact Hsame]. repeat split.
      * rewrite Hclock. cbn [slept called set_world world clock record_call]. lia.
Qed.

Lemma prepare_unfold fuel c :
  prepare env settings fuel c =
    try_except
      (bind (wait_for_connection env fuel) (fun _ => bootstrap env settings))
      (fun e =>
         bind get_state (fun c =>
         bind (log_fmt "Preparing build node %s failed" [bn_name (self c)])
              (fun _ => delete env settings)))
      (saved_in_state NodeState.BOOTING c).
Proof. reflexivity. Qed.

(** C9.  The connectivity wait of [prepare].  After [n] failed probes and
    a successful one the loop has slept exactly [5 * n] seconds and has
    left the objects and the database alone (no deletion), however large [n]
    is; if no probe ever succeeds, the loop is still running after any
    number of rounds, and so is [prepare]; the loop never ends with an
    exception, and when it ends, its last probe has succeeded. *)
Theorem connectivity_wait_unbounded (c : Ctx) :
  (forall n fuel,
      probes_fail env c n ->
      probe_succeeds env (bn_name (self c))
                     (List.length (history (world c)) + n) = true ->
      (n < fuel)%nat ->
      exists c',
        wait_for_connection env fuel c = Ret tt c' /\
        same_objects c c' /\
        clock (world c') = clock (world c) + 5 * Z.of_nat n) /\
  ((forall n, probes_fail env c n) ->
     forall fuel,
       wait_for_connection env fuel c = Diverge /\
       prepare env settings fuel c = Diverge) /\
  (forall fuel e c', wait_for_connection env fuel c <> Exc e c') /\
  (forall fuel c',
      wait_for_connection env fuel c = Ret tt c' ->
      exists n, (n < fuel)%nat /\ probes_fail env c n /\
        probe_succeeds env (bn_name (self c))
                       (List.length (history (world c)) + n) = true /\
        same_objects c c' /\
        clock (world c') = clock (world c) + 5 * Z.of_nat n).
Proof.
  split; [|split; [|split]].
  - intros n fuel Hfail Hok Hfuel.
    destruct (wait_succeeds_after n c fuel Hfail Hok Hfuel) as (c' & ? & ? & ? & _).
    eauto.
  - intros Hfail fuel. split; [now apply wait_diverges|].
    rewrite prepare_unfold. unfold try_except, bind.
    rewrite wait_diverges; [reflexivity|]. exact Hfail.
  - intros fuel e c' H. pose proof (wait_ends_by_success fuel c) as Hw.
    now rewrite H in Hw.
  - intros fuel c' H. pose proof (wait_ends_by_success fuel c) as Hw.
    now rewrite H in Hw.
Qed.
End ConnectivityWait.

Section ConnectivityWaitExamples.
Import BuildNode.

(** A node that refuses two connections and then accepts one; and a node
    that never accepts one. *)
Lemma connectivity_wait_unbounded_witness :
  probes_fail (flaky_env 2) example_ctx 2 /\
  probe_succeeds (flaky_env 2) (bn_name (self example_ctx))
                 (List.length (history (world example_ctx)) + 2) = true /\
  (exists c',
      wait_for_connection (flaky_env 2) 3 example_ctx = Ret tt c' /\
      same_objects example_ctx c' /\
      clock (world c') = clock (world example_ctx) + 5 * Z.of_nat 2) /\
  (forall n, probes_fail dead_env example_ctx n) /\
  (forall fuel,
      wait_for_connection dead_env fuel example_ctx = Diverge /\
      prepare dead_env example_settings fuel example_ctx = Diverge).
Proof.
  assert (Hfail : probes_fail (flaky_env 2) example_ctx 2).
  { intros k Hk. destruct k as [|[|k]]; [reflexivity | reflexivity | lia]. }
  assert (Hok : probe_succeeds (flaky_env 2) (bn_name (self example_ctx))
                  (List.length (history (world example_ctx)) + 2) = true)
    by reflexivity.
  assert (Hdead : forall n, probes_fail dead_env example_ctx n)
    by (intros n k _; reflexivity).
  destruct (connectivity_wait_unbounded (flaky_env 2) example_settings example_ctx)
    as (Ha & _).
  destruct (connectivity_wait_unbounded dead_env example_settings example_ctx)
    as (_ & Hb & _).
  split; [exact Hfail|]. split; [exact Hok|].
  split; [apply (Ha 2%nat 3%nat Hfail Hok); lia|].
  split; [exact Hdead|]. exact (Hb Hdead).
Defined.
End ConnectivityWaitExamples.

(** ** delete *)

Section Teardown.
Import BuildNode.
Variable env : Env.
Variable settings : Settings.

Lemma log_fmt_ret (S : Type) fmt args (s : S) r :
  Py.format fmt args = Ok r -> log_fmt fmt args s = Ret tt s.
Proof. unfold log_fmt, bind, lift_result. now intros ->. Qed.

Lemma log_fmt_raise (S : Type) fmt args (s : S) e :
  Py.format fmt args = Raise e -> log_fmt fmt args s = Exc e s.
Proof. unfold log_fmt, bind, lift_result. now intros ->. Qed.

Lemma in_world_cloud_call cloud op c :
  in_world (cloud_call env cloud op) c =
    match cloud_api env (List.length (history (world c))) cloud op with
    | Ok a => Ret a (called (CloudCall cloud op) c)
    | Raise e => Exc e (called (CloudCall cloud op) c)
    end.
Proof.
  unfold in_world, cloud_call, ask. destruct (cloud_api env _ cloud op); reflexivity.
Qed.

Lemma in_world_utils_run_cmd argv input c :
  in_world (utils_run_cmd env argv input) c =
    match local_cmd env (List.length (history (world c))) argv input with
    | Ok a => Ret a (called (LocalCmd argv input) c)
    | Raise e => Exc e (called (LocalCmd argv input) c)
    end.
Proof.
  unfold in_world, utils_run_cmd, ask. destruct (local_cmd env _ argv input); reflexivity.
Qed.

Ltac run_log := erewrite log_fmt_ret by reflexivity; cbv beta iota.

(** [delete] without floating addresses, statement by statement. *)
Lemma delete_no_floating c :
  USE_FLOATING_IPS settings = false ->
  delete env settings c =
    let i := List.length (history (world c)) in
    let c1 := called (server_delete_call c) c in
    match cloud_api env i (bn_cloud (self c))
                    (ServerDelete (cloud_node_id (self c))) with
    | Raise e => Exc e c1
    | Ok _ =>
        if String.eqb (signing_key_id (self c)) "" then Ret tt (torn_down c1)
        else
          let c2 := called (revoke_call c) c1 in
          match local_cmd env (S i) (revoke_argv (signing_key_id (self c))) None with
          | Raise e => Exc e c2
          | Ok _ => Ret tt (torn_down c2)
          end
    end.
Proof.
  intros Hfl. unfold delete. erewrite bind_ret by reflexivity.
  rewrite Hfl. erewrite bind_ret by reflexivity.
  unfold bind at 1. run_log.
  unfold bind at 1. rewrite in_world_cloud_call.
  cbv zeta. destruct (cloud_api env _ _ _) as [a|e]; [|reflexivity].
  destruct (String.eqb (signing_key_id (self c)) "") eqn:Ek; cbn [negb].
  - erewrite bind_ret by reflexivity. reflexivity.
  - unfold bind at 1. unfold bind at 1. run_log.
    unfold bind at 1. rewrite in_world_utils_run_cmd.
    replace (List.length (history (world (called
               (CloudCall (bn_cloud (self c))
                          (ServerDelete (cloud_node_id (self c)))) c))))
      with (S (List.length (history (world c))))
      by (cbn; rewrite length_app; simpl; lia).
    fold (revoke_argv (signing_key_id (self c))).
    destruct (local_cmd env _ _ None) as [o|e]; reflexivity.
Qed.

Lemma update_as_map (Row : Type) (p : Row -> bool) f rows :
  snd (Orm.update p f rows) = map (fun r => if p r then f r else r) rows.
Proof.
  induction rows as [|r rows IH]; simpl; [reflexivity|].
  destruct (Orm.update p f rows) as [n rows']; simpl in *.
  destruct (p r); simpl; congruence.
Qed.

Lemma release_unreferenced name r : references name (release name r) = false.
Proof.
  unfold release. destruct (references name r) eqn:E; [reflexivity | exact E].
Qed.

Lemma references_iff name r :
  references name r = true <-> build_node r = Some name.
Proof.
  unfold references. destruct (build_node r) as [n|]; [|split; discriminate].
  rewrite String.eqb_eq. split; congruence.
Qed.

Lemma filter_all (A : Type) (p : A -> bool) l :
  (forall x, In x l -> p x = true) -> filter p l = l.
Proof.
  induction l as [|x l IH]; simpl; intros H; [reflexivity|].
  rewrite (H x) by now left. f_equal. apply IH. intros; apply H; now right.
Qed.

Lemma delete_store_eq name s : delete_store name s = without_node name s.
Proof.
  unfold delete_store, without_node, Orm.delete. cbn.
  rewrite update_as_map. fold (release name).
  unfold set_buildnodes, set_buildrecords. cbn. f_equal.
  apply filter_all. intros r Hr. apply in_map_iff in Hr.
  destruct Hr as (x & <- & _). now rewrite release_unreferenced.
Qed.

(** After the teardown no record references the node and its row is
    gone; a record that referenced it is as before with the reference
    null, any other record is untouched. *)
Lemma without_node_spec name s :
  (forall r, In r (buildrecords (without_node name s)) -> build_node r <> Some name) /\
  (forall n, In n (buildnodes (without_node name s)) -> bn_name n <> name) /\
  (forall r, In r (buildrecords s) -> build_node r = Some name ->
             In (with_build_node None r) (buildrecords (without_node name s))) /\
  (forall r, In r (buildrecords s) -> build_node r <> Some name ->
             In r (buildrecords (without_node name s))).
Proof.
  unfold without_node. cbn. repeat split.
  - intros r Hr Hn. apply in_map_iff in Hr. destruct Hr as (x & <- & _).
    apply references_iff in Hn. now rewrite release_unreferenced in Hn.
  - intros n Hn. apply filter_In in Hn. destruct Hn as [_ Hn].
    apply negb_true_iff, String.eqb_neq in Hn. exact Hn.
  - intros r Hr Hn. apply in_map_iff. exists r. split; [|exact Hr].
    unfold release. apply references_iff in Hn. now rewrite Hn.
  - intros r Hr Hn. apply in_map_iff. exists r. split; [|exact Hr].
    unfold release. destruct (references name r) eqn:E; [|reflexivity].
    apply references_iff in E. congruence.
Qed.

Lemma without_node_idempotent name s :
  without_node name (without_node name s) = without_node name s.
Proof.
  unfold without_node. cbn. f_equal.
  - rewrite map_map. apply map_ext. intros r. unfold release at 1.
    now rewrite release_unreferenced.
  - apply filter_all. intros n Hn. apply filter_In in Hn. tauto.
Qed.

Lemma delete_returns c :
  USE_FLOATING_IPS settings = false ->
  teardown_ok env c = true ->
  exists c',
    delete env settings c = Ret tt c' /\
    store (world c') = without_node (bn_name (self c)) (store (world c)).
Proof.
  intros Hfl Hok. rewrite (delete_no_floating c Hfl). cbv zeta.
  unfold teardown_ok in Hok.
  destruct (cloud_api env _ _ _) as [a|e]; [|discriminate].
  destruct (String.eqb (signing_key_id (self c)) "").
  - eexists. split; [reflexivity|]. cbn. apply delete_store_eq.
  - destruct (local_cmd env _ _ None) as [o|e]; [|discriminate].
    eexists. split; [reflexivity|]. cbn. apply delete_store_eq.
Qed.

Lemma delete_raises c :
  USE_FLOATING_IPS settings = false ->
  teardown_ok env c = false ->
  exists e c', delete env settings c = Exc e c' /\ same_objects c c'.
Proof.
  intros Hfl Hok. rewrite (delete_no_floating c Hfl). cbv zeta.
  unfold teardown_ok in Hok.
  destruct (cloud_api env _ _ _) as [a|e].
  - destruct (String.eqb (signing_key_id (self c)) ""); [discriminate|].
    destruct (local_cmd env _ _ None) as [o|e]; [discriminate|].
    do 2 eexists. split; [reflexivity|]. repeat split.
  - do 2 eexists. split; [reflexivity|]. repeat split.
Qed.

(** C6, as the code has it.  Without floating addresses, [delete] on a
    node object (a first call, or a call after a teardown that raised)
    returns normally exactly when its external calls succeed: the deletion
    of the server and, if the node has a signing key, its revocation.  Then
    no build record references the node, the node's row is gone, and a
    further teardown would find nothing left to change in these tables.
    If one of the calls raises, the exception reaches the caller and the
    records and the row are as before. *)
Theorem delete_returns_iff_teardown_calls_succeed (c : Ctx) :
  USE_FLOATING_IPS settings = false ->
  let name := bn_name (self c) in
  (teardown_ok env c = true ->
     exists c',
       delete env settings c = Ret tt c' /\
       store (world c') = without_node name (store (world c)) /\
       (forall r, In r (buildrecords (store (world c'))) ->
                  build_node r <> Some name) /\
       (forall n, In n (buildnodes (store (world c'))) -> bn_name n <> name) /\
       without_node name (store (world c')) = store (world c')) /\
  (teardown_ok env c = false ->
     exists e c', delete env settings c = Exc e c' /\ same_objects c c').
Proof.
  intros Hfl name. split.
  - intros Hok. destruct (delete_returns c Hfl Hok) as (c' & Hrun & Hstore).
    exists c'. split; [exact Hrun|]. split; [exact Hstore|].
    rewrite Hstore.
    destruct (without_node_spec name (store (world c))) as (H1 & H2 & _).
    split; [exact H1|]. split; [exact H2|]. apply without_node_idempotent.
  - now apply delete_raises.
Qed.

(** With floating addresses in use, [delete] formats three values into
    a message with two conversions: it never gets to the server, the key,
    the references or the row. *)
Lemma delete_with_floating_ips_raises c :
  USE_FLOATING_IPS settings = true ->
  exists e c', delete env settings c = Exc e c' /\ same_objects c c'.
Proof.
  intros Hfl. unfold delete. erewrite bind_ret by reflexivity.
  rewrite Hfl. unfold bind at 1. unfold bind at 1. unfold bind at 1.
  unfold ip. erewrite bind_ret by reflexivity.
  unfold bind at 1. rewrite in_world_cloud_call.
  destruct (cloud_api env _ _ _) as [addresses|e];
    [|do 2 eexists; split; [reflexivity | repeat split]].
  rewrite Hfl. unfold lift_result.
  destruct (Py.index addresses 1) as [floating_ip|e];
    [|do 2 eexists; split; [reflexivity | repeat split]].
  unfold ret at 1. unfold bind at 1. rewrite in_world_cloud_call.
  destruct (cloud_api env _ _ _) as [ref|e];
    [|do 2 eexists; split; [reflexivity | repeat split]].
  unfold bind at 1. run_log.
  unfold bind at 1. rewrite in_world_cloud_call.
  destruct (cloud_api env _ _ _) as [x|e];
    [|do 2 eexists; split; [reflexivity | repeat split]].
  unfold bind at 1. erewrite log_fmt_raise by reflexivity.
  do 2 eexists. split; [reflexivity | repeat split].
Qed.
End Teardown.

Section TeardownExamples.
Import BuildNode.

Lemma delete_returns_iff_teardown_calls_succeed_witness :
  USE_FLOATING_IPS example_settings = false /\
  teardown_ok calm_env keyed_ctx = true /\
  exists c',
    delete calm_env example_settings keyed_ctx = Ret tt c' /\
    buildrecords (store (world c')) = [example_record 1 10] /\
    buildnodes (store (world c')) = [].
Proof.
  split; [reflexivity|]. split; [reflexivity|].
  destruct (delete_returns_iff_teardown_calls_succeed
              calm_env example_settings keyed_ctx eq_refl) as [Hok _].
  destruct (Hok eq_refl) as (c' & Hrun & Hstore & _).
  exists c'. split; [exact Hrun|]. rewrite Hstore. split; reflexivity.
Defined.

(** The first teardown stops at the key revocation, after the server
    is gone; the second one finds no server and raises, and the record is
    still bound to the node. *)
Lemma delete_after_partial_teardown_raises :
  match delete delete_once_env example_settings keyed_ctx with
  | Exc e1 c1 =>
      e1 = ExternalError "CommandFailed" /\
      match delete delete_once_env example_settings c1 with
      | Exc e2 c2 =>
          e2 = ExternalError "NotFound" /\
          buildrecords (store (world c2)) = [claimed_record] /\
          build_node claimed_record = Some (bn_name (self keyed_ctx)) /\
          buildnodes (store (world c2)) = [example_node]
      | _ => False
      end
  | _ => False
  end.
Proof. vm_compute. repeat split. Qed.
End TeardownExamples.

(** ** prepare: what follows the wait *)

Section Prepare.
Import BuildNode.
Variable env : Env.
Variable settings : Settings.

Lemma bind_ret_inv (S A B : Type) (m : M S A) (k : A -> M S B) s b s' :
  bind m k s = Ret b s' ->
  exists a s1, m s = Ret a s1 /\ k a s1 = Ret b s'.
Proof.
  unfold bind. destruct (m s) as [a s1|e s1|]; [eauto | discriminate | discriminate].
Qed.

Lemma same_records_refl c : same_records c c.
Proof. repeat split. Qed.

Lemma same_records_trans c1 c2 c3 :
  same_records c1 c2 -> same_records c2 c3 -> same_records c1 c3.
Proof. unfold same_records. intuition congruence. Qed.

Lemma same_objects_records c c' : same_objects c c' -> same_records c c'.
Proof. unfold same_objects, same_records. intuition congruence. Qed.

Lemma keeps_run_cmd cmd input c : ends_with same_records (_run_cmd env cmd input) c.
Proof.
  unfold ends_with. rewrite _run_cmd_spec.
  destruct (remote_result env _ _ cmd input); repeat split.
Qed.

Lemma keeps_lift_result (A : Type) (r : result A) c :
  ends_with same_records (lift_result r) c.
Proof. destruct r; repeat split. Qed.

Lemma keeps_record_attr (A : Type) attr (f : BuildRecord -> A) c :
  ends_with same_records (record_attr attr f) c.
Proof. unfold ends_with, record_attr. destruct (build_record c); repeat split. Qed.

Lemma keeps_assign_state st c : ends_with same_records (assign_state st) c.
Proof. repeat split. Qed.

Lemma keeps_save c : ends_with same_records save c.
Proof. repeat split. Qed.

Lemma keeps_get_state c : ends_with same_records get_state c.
Proof. repeat split. Qed.

Lemma keeps_signing_key k c :
  ends_with same_records
    (modify (fun c => set_self (with_signing_key_id k (self c)) c)) c.
Proof. repeat split. Qed.

Lemma keeps_utils_run_cmd argv input c :
  ends_with same_records (in_world (utils_run_cmd env argv input)) c.
Proof.
  unfold ends_with. rewrite in_world_utils_run_cmd.
  destruct (local_cmd env _ argv input); repeat split.
Qed.

Lemma keeps_write_configuration s c :
  ends_with same_records
    (in_world (ask (WriteConfiguration s) (fun n => write_configuration env n s))) c.
Proof.
  unfold ends_with, in_world, ask.
  destruct (write_configuration env _ s); repeat split.
Qed.

Ltac keeps_step :=
  first [ apply keeps_run_cmd | apply keeps_lift_result | apply keeps_record_attr
        | apply keeps_assign_state | apply keeps_save | apply keeps_get_state
        | apply keeps_signing_key | apply keeps_utils_run_cmd
        | apply keeps_write_configuration ].

(** The bootstrap ends, returning or raising, and leaves the node's name
    and the build records alone. *)
Lemma bootstrap_ends c : ends_with same_records (bootstrap env settings) c.
Proof.
  unfold bootstrap.
  repeat (apply ends_with_bind;
          [exact same_records_trans | keeps_step | intros ? ? _]).
  keeps_step.
Qed.

Lemma save_In (Row : Type) (p : Row -> bool) (obj : Row) rows :
  p obj = true -> In obj (Orm.save p obj rows).
Proof.
  intros Hobj. unfold Orm.save. destruct (existsb p rows) eqn:E.
  - apply existsb_exists in E. destruct E as (x & Hx & Hp).
    apply (update_In_hit _ _ (fun _ => obj) _ _ Hx Hp).
  - apply in_or_app. right. now left.
Qed.

(** When the bootstrap returns, the node is ready, on the object and in
    its row. *)
Lemma bootstrap_returns_ready c c' :
  bootstrap env settings c = Ret tt c' ->
  bn_state (self c') = NodeState.READY /\
  In (self c') (buildnodes (store (world c'))).
Proof.
  unfold bootstrap. intros H.
  do 17 (apply bind_ret_inv in H; destruct H as (? & ? & _ & H)).
  apply bind_ret_inv in H. destruct H as ([] & c1 & H1 & H).
  apply bind_ret_inv in H. destruct H as ([] & c2 & H2 & H).
  apply bind_ret_inv in H. destruct H as (s & c3 & H3 & H).
  unfold assign_state, modify in H1. injection H1 as H1. subst c1.
  unfold save, modify in H2. injection H2 as H2. subst c2.
  unfold record_attr in H3. destruct (build_record _); [|discriminate].
  injection H3 as H3 H3'. subst s c3.
  unfold in_world, ask in H.
  destruct (write_configuration env _ _); [|discriminate].
  injection H as H. subst c'. split; [reflexivity|]. cbn -[Orm.save].
  apply save_In. apply String.eqb_refl.
Qed.

Lemma prepare_after_wait fuel c c1 :
  wait_for_connection env fuel (saved_in_state NodeState.BOOTING c) = Ret tt c1 ->
  prepare env settings fuel c =
    match bootstrap env settings c1 with
    | Ret x c2 => Ret x c2
    | Exc e c2 => delete env settings c2
    | Diverge => Diverge
    end.
Proof.
  intros Hwait. rewrite prepare_unfold. unfold try_except.
  erewrite bind_ret by exact Hwait.
  destruct (bootstrap env settings c1) as [x c2|e c2|]; [reflexivity| |reflexivity].
  erewrite bind_ret by reflexivity.
  unfold bind. erewrite log_fmt_ret by reflexivity. reflexivity.
Qed.

Lemma wait_keeps fuel c c1 :
  wait_for_connection env fuel c = Ret tt c1 -> same_objects c c1.
Proof.
  intros H. pose proof (wait_ends_by_success env fuel c) as Hw.
  rewrite H in Hw. destruct Hw as (n & _ & _ & _ & Hs & _). exact Hs.
Qed.

(** From the call of [prepare] to the point where a bootstrap step
    raises: the node's name and the build records have not changed. *)
Lemma prepare_keeps_records fuel c c1 e c2 :
  wait_for_connection env fuel (saved_in_state NodeState.BOOTING c) = Ret tt c1 ->
  bootstrap env settings c1 = Exc e c2 ->
  same_records c c2.
Proof.
  intros Hwait Hboot.
  apply same_records_trans with (c2 := saved_in_state NodeState.BOOTING c);
    [repeat split|].
  apply same_records_trans with (c2 := c1);
    [apply same_objects_records, (wait_keeps _ _ _ Hwait)|].
  pose proof (bootstrap_ends c1) as Hb. unfold ends_with in Hb.
  now rewrite Hboot in Hb.
Qed.

(** C4, as the code has it.  Once the connectivity wait is over, an
    exception raised by any later step of [prepare] (from the change to
    PREPARING to the notification of the repository) is caught and [delete]
    runs at once: the outcome of [prepare] is the outcome of that [delete],
    so the caller never sees the step's exception, [prepare] returns
    normally whenever the teardown does, and then the node's row is gone.
    If no step raises, [prepare] returns with the node READY and saved.
    The steps themselves always end. *)
Theorem prepare_catches_bootstrap_failures (fuel : nat) (c c1 : Ctx) :
  wait_for_connection env fuel (saved_in_state NodeState.BOOTING c) = Ret tt c1 ->
  match bootstrap env settings c1 with
  | Ret _ c2 =>
      prepare env settings fuel c = Ret tt c2 /\
      bn_state (self c2) = NodeState.READY /\
      In (self c2) (buildnodes (store (world c2)))
  | Exc e c2 =>
      prepare env settings fuel c = delete env settings c2 /\
      bn_name (self c2) = bn_name (self c) /\
      (USE_FLOATING_IPS settings = false -> teardown_ok env c2 = true ->
       exists c',
         prepare env settings fuel c = Ret tt c' /\
         forall n, In n (buildnodes (store (world c'))) ->
                   bn_name n <> bn_name (self c))
  | Diverge => False
  end.
Proof.
  intros Hwait. rewrite (prepare_after_wait fuel c c1 Hwait).
  pose proof (bootstrap_ends c1) as Hends. unfold ends_with in Hends.
  destruct (bootstrap env settings c1) as [[] c2|e c2|] eqn:Hboot; [| |exact Hends].
  - split; [reflexivity|]. exact (bootstrap_returns_ready c1 c2 Hboot).
  - split; [reflexivity|].
    destruct (prepare_keeps_records fuel c c1 e c2 Hwait Hboot) as (Hname & _ & _).
    split; [exact Hname|]. intros Hfl Hok.
    destruct (delete_returns env settings c2 Hfl Hok) as (c' & Hrun & Hstore).
    exists c'. split; [exact Hrun|]. rewrite Hstore, Hname.
    apply without_node_spec.
Qed.

(** C5, as the code has it.  When a step of [prepare] after the
    connectivity wait raises and the external calls of the teardown
    succeed (floating addresses not in use), [prepare] returns with no
    build record referencing the node: every record that was bound to it has
    a null reference, those still in state NEEDS_BUILDING are pending
    again, and the node's row is gone. *)
Theorem prepare_failure_releases_records (fuel : nat) (c c1 c2 : Ctx) (e : exn) :
  USE_FLOATING_IPS settings = false ->
  wait_for_connection env fuel (saved_in_state NodeState.BOOTING c) = Ret tt c1 ->
  bootstrap env settings c1 = Exc e c2 ->
  teardown_ok env c2 = true ->
  let name := bn_name (self c) in
  exists c',
    prepare env settings fuel c = Ret tt c' /\
    (forall r, In r (buildrecords (store (world c'))) ->
               build_node r <> Some name) /\
    (forall r, In r (buildrecords (store (world c))) ->
               build_node r = Some name ->
               br_state r = BuildState.NEEDS_BUILDING ->
               In (with_build_node None r)
                  (BuildRecord.pending_builds (buildrecords (store (world c'))))) /\
    (forall n, In n (buildnodes (store (world c'))) -> bn_name n <> name).
Proof.
  intros Hfl Hwait Hboot Hok name.
  rewrite (prepare_after_wait fuel c c1 Hwait), Hboot.
  destruct (prepare_keeps_records fuel c c1 e c2 Hwait Hboot) as (Hname & _ & Hrecs).
  destruct (delete_returns env settings c2 Hfl Hok) as (c' & Hrun & Hstore).
  exists c'. split; [exact Hrun|]. rewrite Hstore, Hname. fold name.
  destruct (without_node_spec name (store (world c2))) as (H1 & H2 & H3 & _).
  split; [exact H1|]. split; [|exact H2].
  intros r Hr Hn Hst. unfold BuildRecord.pending_builds. apply filter_In. split.
  - apply H3; [now rewrite Hrecs | exact Hn].
  - unfold BuildRecord.pending. cbn. rewrite Hst. reflexivity.
Qed.
End Prepare.

Section PrepareExamples.
Import BuildNode.

Lemma prepare_catches_bootstrap_failures_witness :
  wait_for_connection failing_update_env 1
    (saved_in_state NodeState.BOOTING example_ctx) = Ret tt connected_ctx /\
  exists c2,
    bootstrap failing_update_env example_settings connected_ctx
      = Exc (PyException "Command sudo apt-get update failed") c2 /\
    prepare failing_update_env example_settings 1 example_ctx
      = delete failing_update_env example_settings c2.
Proof.
  assert (Hwait : wait_for_connection failing_update_env 1
            (saved_in_state NodeState.BOOTING example_ctx) = Ret tt connected_ctx)
    by reflexivity.
  split; [exact Hwait|].
  pose proof (prepare_catches_bootstrap_failures
                failing_update_env example_settings 1 example_ctx connected_ctx
                Hwait) as H.
  destruct (bootstrap failing_update_env example_settings connected_ctx)
    as [x c2|e c2|] eqn:E;
    [vm_compute in E; discriminate | | destruct H].
  exists c2. destruct H as (H & _). split; [|exact H].
  vm_compute in E. injection E as <- <-. reflexivity.
Defined.

Lemma prepare_failure_releases_records_witness :
  exists c',
    prepare failing_update_env example_settings 1 example_ctx = Ret tt c' /\
    (forall r, In r (buildrecords (store (world c'))) ->
               build_node r <> Some "buildd-1") /\
    In (example_record 1 10)
       (BuildRecord.pending_builds (buildrecords (store (world c')))).
Proof.
  assert (Hwait : wait_for_connection failing_update_env 1
            (saved_in_state NodeState.BOOTING example_ctx) = Ret tt connected_ctx)
    by reflexivity.
  destruct (bootstrap failing_update_env example_settings connected_ctx)
    as [x c2|e c2|] eqn:E;
    [vm_compute in E; discriminate | | vm_compute in E; discriminate].
  assert (Hok : teardown_ok failing_update_env c2 = true).
  { vm_compute in E. injection E as _ <-. reflexivity. }
  destruct (prepare_failure_releases_records
              failing_update_env example_settings 1 example_ctx connected_ctx c2 e
              eq_refl Hwait E Hok) as (c' & Hrun & Hnone & Hpending & _).
  exists c'. split; [exact Hrun|]. split; [exact Hnone|].
  apply (Hpending claimed_record); [now left | reflexivity | reflexivity].
Defined.

(** The first probe raises, the second succeeds, and so does every
    later step: an exception was raised in [prepare], the node is not
    deleted but READY. *)
Lemma prepare_probe_exception_no_delete :
  probe_succeeds (flaky_env 1) (bn_name (self example_ctx)) 0 = false /\
  match prepare (flaky_env 1) example_settings 2 example_ctx with
  | Ret _ c' =>
      bn_state (self c') = NodeState.READY /\
      buildnodes (store (world c')) = [self c'] /\
      clock (world c') = 5 /\
      forall call, In call (history (world c')) ->
                   call <> server_delete_call example_ctx
  | _ => False
  end.
Proof.
  split; [reflexivity|]. vm_compute. repeat split.
  intros call Hin Heq. subst call.
  repeat (destruct Hin as [Hin|Hin]; [discriminate|]). destruct Hin.
Qed.

(** The key is generated on the node but its export fails.  The
    teardown deletes the server and then tries to revoke a key that the
    local keyring never had: [prepare] raises, and the record stays bound to
    the node, whose server is gone. *)
Lemma prepare_failure_leaves_record_bound :
  match prepare export_fails_env example_settings 1 example_ctx with
  | Exc e c' =>
      e = ExternalError "CommandFailed" /\
      In (server_delete_call example_ctx) (history (world c')) /\
      buildrecords (store (world c')) = [claimed_record] /\
      build_node claimed_record = Some (bn_name (self example_ctx)) /\
      br_state claimed_record = BuildState.NEEDS_BUILDING /\
      BuildRecord.pending_builds (buildrecords (store (world c'))) = [] /\
      map bn_name (buildnodes (store (world c'))) = [bn_name (self example_ctx)]
  | _ => False
  end.
Proof.
  vm_compute. repeat split.
  do 8 right. now left.
Qed.
End PrepareExamples.

(** ** start_new: the cached key pair *)

Section StartNew.
Import BuildNode.
Variable env : Env.
Variable settings : Settings.

Lemma sat_bind (S A B : Type) (m : M S A) (k : A -> M S B) w
      (Q1 : A -> S -> Prop) (E1 : S -> Prop) (Q : B -> S -> Prop) (E : S -> Prop) :
  sat m w Q1 E1 ->
  (forall w', E1 w' -> E w') ->
  (forall a w1, Q1 a w1 -> sat (k a) w1 Q E) ->
  sat (bind m k) w Q E.
Proof.
  unfold sat, bind. intros Hm HE Hk.
  destruct (m w) as [a w1|e w1|]; [apply Hk, Hm | apply HE, Hm | exact I].
Qed.

Lemma sat_weaken (S A : Type) (m : M S A) w
      (Q Q' : A -> S -> Prop) (E E' : S -> Prop) :
  sat m w Q E ->
  (forall a w', Q a w' -> Q' a w') ->
  (forall w', E w' -> E' w') ->
  sat m w Q' E'.
Proof.
  unfold sat. intros Hm HQ HE.
  destruct (m w); [apply HQ, Hm | apply HE, Hm | exact I].
Qed.

Lemma quiet_refl w : quiet w w.
Proof.
  split; [reflexivity|]. exists []. now rewrite app_nil_r.
Qed.

Lemma quiet_trans w1 w2 w3 : quiet w1 w2 -> quiet w2 w3 -> quiet w1 w3.
Proof.
  intros [K1 (p1 & H1 & F1)] [K2 (p2 & H2 & F2)]. split; [congruence|].
  exists (p1 ++ p2). rewrite H2, H1, app_assoc. split; [reflexivity|].
  now rewrite forallb_app, F1, F2.
Qed.

Lemma quietly_bind (A B : Type) (m : M World A) (k : A -> M World B) :
  quietly m -> (forall a, quietly (k a)) -> quietly (bind m k).
Proof.
  intros Hm Hk w.
  apply sat_bind with (Q1 := fun _ w1 => quiet w w1) (E1 := fun w1 => quiet w w1);
    [apply Hm | auto |].
  intros a w1 H1.
  apply sat_weaken with (Q := fun _ w' => quiet w1 w') (E := fun w' => quiet w1 w');
    [apply Hk | |]; intros; eapply quiet_trans; eauto.
Qed.

Lemma quietly_ret (A : Type) (a : A) : quietly (ret a).
Proof. intros w. apply quiet_refl. Qed.

Lemma quietly_raise (A : Type) e : quietly (@raise World A e).
Proof. intros w. apply quiet_refl. Qed.

Lemma quietly_lift_result (A : Type) (r : result A) : quietly (lift_result r).
Proof. destruct r; [apply quietly_ret | apply quietly_raise]. Qed.

Lemma quietly_log_fmt fmt args : quietly (log_fmt fmt args).
Proof.
  unfold log_fmt. apply quietly_bind; [apply quietly_lift_result|].
  intros _. apply quietly_ret.
Qed.

Lemma quietly_get_state : quietly get_state.
Proof. intros w. apply quiet_refl. Qed.

Lemma quietly_sleep n : quietly (sleep n).
Proof. intros w. unfold sat, sleep. split; [reflexivity|]. exists []. now rewrite app_nil_r. Qed.

Lemma quietly_ask (A : Type) call (answer : nat -> result A) :
  creates_keypair call = false -> quietly (ask call answer).
Proof.
  intros Hc w. unfold sat, ask.
  assert (Hq : quiet w (record_call call w)).
  { split; [reflexivity|]. exists [call]. split; [reflexivity|].
    cbn. now rewrite Hc. }
  destruct (answer _); exact Hq.
Qed.

Lemma quietly_cloud_call cl op :
  creates_keypair (CloudCall cl op) = false -> quietly (cloud_call env cl op).
Proof. apply quietly_ask. Qed.

Lemma quietly_random_nat : quietly (random_nat env).
Proof. now apply quietly_ask. Qed.

Lemma quietly_try_except (A : Type) (m : M World A) h :
  quietly m -> (forall e, quietly (h e)) -> quietly (try_except m h).
Proof.
  intros Hm Hh w. specialize (Hm w). unfold sat, try_except in *.
  destruct (m w) as [a w1|e w1|]; [exact Hm | | exact I].
  specialize (Hh e w1). unfold sat in Hh.
  destruct (h e w1); [| |exact I]; eapply quiet_trans; eauto.
Qed.

Lemma quietly_choice (A : Type) (l : list A) : quietly (choice env l).
Proof.
  unfold choice. apply quietly_bind; [apply quietly_random_nat|].
  intros n. apply quietly_lift_result.
Qed.

Lemma quietly_unique_name fuel avoid : quietly (unique_name env fuel avoid).
Proof.
  induction fuel as [|fuel IH]; [intros w; exact I|].
  cbn [unique_name]. apply quietly_bind; [apply quietly_random_nat|].
  intros n. destruct (existsb _ avoid); [exact IH | apply quietly_ret].
Qed.

Lemma quietly_unique_buildnode_name fuel cl :
  quietly (get_unique_buildnode_name env fuel cl).
Proof.
  unfold get_unique_buildnode_name.
  apply quietly_bind; [now apply quietly_cloud_call|]. intros servers.
  apply quietly_bind; [apply quietly_get_state|]. intros w.
  apply quietly_unique_name.
Qed.

Lemma quietly_unique_keypair_name fuel cl :
  quietly (get_unique_keypair_name env fuel cl).
Proof.
  unfold get_unique_keypair_name.
  apply quietly_bind; [now apply quietly_cloud_call|]. intros names.
  apply quietly_unique_name.
Qed.

Lemma quietly_attach_loop rounds cl srv ip succeeded :
  quietly (attach_loop env rounds cl srv ip succeeded).
Proof.
  revert succeeded. induction rounds as [|rounds IH]; intros succeeded;
    [apply quietly_ret|].
  cbn [attach_loop]. apply quietly_bind.
  - apply quietly_try_except.
    + apply quietly_bind; [now apply quietly_cloud_call|].
      intros _. apply quietly_ret.
    + intros _. apply quietly_ret.
  - intros s. apply quietly_bind; [apply quietly_sleep|]. intros _. apply IH.
Qed.

Lemma quietly_attach_floating_ip cl name srv :
  quietly (attach_floating_ip env cl name srv).
Proof.
  unfold attach_floating_ip.
  apply quietly_bind; [apply quietly_log_fmt|]. intros _.
  apply quietly_bind; [now apply quietly_cloud_call|]. intros fip.
  apply quietly_bind; [apply quietly_log_fmt|]. intros _.
  apply quietly_bind; [apply quietly_log_fmt|]. intros _.
  apply quietly_bind; [apply quietly_attach_loop|]. intros [|].
  - apply quietly_log_fmt.
  - apply quietly_bind; [apply quietly_log_fmt|]. intros _.
    apply quietly_bind; [apply quietly_log_fmt|]. intros _.
    apply quietly_bind; [now apply quietly_cloud_call|]. intros _.
    apply quietly_bind; [apply quietly_log_fmt|]. intros _.
    apply quietly_bind; [now apply quietly_cloud_call|]. intros _.
    apply quietly_raise.
Qed.

Lemma quietly_save_node (bn : BuildNode) :
  quietly (modify (fun w =>
    set_store (set_buildnodes
      (Orm.save (fun n => String.eqb (bn_name n) (bn_name bn)) bn
                (buildnodes (store w))) (store w)) w)).
Proof. intros w. unfold sat, modify. split; [reflexivity|]. exists []. now rewrite app_nil_r. Qed.

(** The new row is for the chosen cloud; nothing else happens to the key
    pairs. *)
Lemma register_node_spec cl name srv w :
  sat (register_node env settings cl name srv) w
      (fun bn w' => quiet w w' /\ bn_cloud bn = cl)
      (fun w' => quiet w w').
Proof.
  unfold register_node.
  eapply sat_bind with (Q1 := fun _ w1 => quiet w w1) (E1 := fun w1 => quiet w w1).
  - destruct (USE_FLOATING_IPS settings);
      [apply quietly_attach_floating_ip | apply quietly_ret].
  - auto.
  - intros _ w1 H1.
    eapply sat_bind with (Q1 := fun _ w2 => quiet w w2) (E1 := fun w2 => quiet w w2).
    + eapply sat_weaken;
        [apply (quietly_save_node
                  {| bn_name := name; bn_cloud := cl; cloud_node_id := srv;
                     bn_state := NodeState.NEW; signing_key_id := "" |}) | |];
        cbn; intros; eapply quiet_trans; eauto.
    + auto.
    + intros _ w2 H2. unfold sat, ret. auto.
Qed.

Lemma keypair_set_ext cl s s' :
  keypairs s' = keypairs s -> keypair_set cl s' = keypair_set cl s.
Proof. unfold keypair_set. now intros ->. Qed.

Lemma quiet_at_most w w' : quiet w w' -> at_most_one_created w w'.
Proof. intros [H _]. now left. Qed.

Lemma keypair_ready_quiet w cl kp w1 w2 :
  keypair_ready w cl kp w1 -> quiet w1 w2 -> keypair_ready w cl kp w2.
Proof.
  intros [(H0 & Hc & Hk)|(rest & Hs & Hq)] H12.
  - left. split; [exact H0|]. split; [exact Hc|]. destruct H12 as [K _]. congruence.
  - right. exists rest. split; [exact Hs|]. eapply quiet_trans; eauto.
Qed.

Lemma keypair_ready_at_most w cl kp w1 :
  keypair_ready w cl kp w1 -> at_most_one_created w w1.
Proof.
  intros [(H0 & Hc & Hk)|(rest & Hs & Hq)].
  - right. exists kp. rewrite Hc. auto.
  - now apply quiet_at_most.
Qed.

Lemma created_with_quiet cl kp w1 w2 :
  created_with cl kp w1 -> quiet w1 w2 -> created_with cl kp w2.
Proof.
  intros (name & image & flavor & Hin) [_ (calls & Hh & _)].
  exists name, image, flavor. rewrite Hh. apply in_or_app. now left.
Qed.

Lemma cloud_call_spec cl op w :
  sat (cloud_call env cl op) w
      (fun _ w' => store w' = store w /\ history w' = history w ++ [CloudCall cl op])
      (fun w' => store w' = store w).
Proof.
  unfold sat, cloud_call, ask. destruct (cloud_api env _ cl op); cbn; auto.
Qed.

Lemma log_fmt_spec fmt args (w : World) :
  sat (log_fmt fmt args) w (fun _ w' => w' = w) (fun w' => w' = w).
Proof.
  unfold sat, log_fmt, bind, lift_result. destruct (Py.format fmt args); reflexivity.
Qed.

Lemma log_fmt_ok_spec fmt args r (w : World) :
  Py.format fmt args = Ok r ->
  sat (log_fmt fmt args) w (fun _ w' => w' = w) (fun _ => False).
Proof. intros H. unfold sat. now rewrite (log_fmt_ret _ _ _ _ _ H). Qed.

(** The [if]/[else] of [start_new]: a cloud without a key pair gets
    exactly one, appended to the table; a cloud with key pairs keeps them,
    the first one is used, and nothing is asked of the cloud. *)
Lemma ensure_keypair_spec fuel cl w :
  sat (ensure_keypair env fuel cl) w
      (fun kp w' =>
         (keypair_set cl (store w) = [] /\ kp_cloud kp = cl /\
          keypairs (store w') = keypairs (store w) ++ [kp]) \/
         (exists rest, keypair_set cl (store w) = kp :: rest /\ w' = w))
      (fun w' => keypairs (store w') = keypairs (store w)).
Proof.
  unfold ensure_keypair, sat. erewrite bind_ret by reflexivity.
  destruct (List.length (keypair_set cl (store w)) <? 1)%nat eqn:E.
  - apply Nat.ltb_lt in E.
    assert (Hnone : keypair_set cl (store w) = [])
      by (destruct (keypair_set cl (store w)); [reflexivity | simpl in E; lia]).
    change (sat (bind (log_fmt "Cloud %s does not have a keypair yet. Creating" [cl])
                      (fun _ =>
                       bind (get_unique_keypair_name env fuel cl) (fun name =>
                       bind (cloud_call env cl (KeypairsCreate name)) (fun kp =>
                       bind (modify (fun w =>
                               set_store (set_keypairs
                                 (keypairs (store w) ++
                                  [{| kp_cloud := cl; kp_name := name;
                                      private_key := field 0 kp;
                                      public_key := field 1 kp |}])
                                 (store w)) w)) (fun _ =>
                       bind (log_fmt "KeyPair %s created" [(name ++ "@" ++ cl)%string])
                            (fun _ =>
                       ret {| kp_cloud := cl; kp_name := name;
                              private_key := field 0 kp;
                              public_key := field 1 kp |})))))) w
              (fun kp w' =>
                 (keypair_set cl (store w) = [] /\ kp_cloud kp = cl /\
                  keypairs (store w') = keypairs (store w) ++ [kp]) \/
                 (exists rest, keypair_set cl (store w) = kp :: rest /\ w' = w))
              (fun w' => keypairs (store w') = keypairs (store w))).
    apply sat_bind with (Q1 := fun _ w1 => w1 = w) (E1 := fun w1 => w1 = w);
      [apply log_fmt_spec | now intros w' -> |]. intros _ w1 ->.
    apply sat_bind with (Q1 := fun _ w1 => quiet w w1) (E1 := fun w1 => quiet w w1);
      [apply quietly_unique_keypair_name | now intros w' [H _] |].
    intros name w1 [K1 _].
    apply sat_bind with (Q1 := fun _ w2 => store w2 = store w1)
                        (E1 := fun w2 => store w2 = store w1);
      [eapply sat_weaken; [apply cloud_call_spec | cbn; tauto | auto]
      | intros w' H; congruence |].
    intros kp w2 K2.
    apply sat_bind with
      (Q1 := fun _ w3 => keypairs (store w3) =
               keypairs (store w) ++
               [{| kp_cloud := cl; kp_name := name;
                   private_key := field 0 kp; public_key := field 1 kp |}])
      (E1 := fun _ => False);
      [unfold sat, modify; cbn; congruence | tauto |].
    intros _ w3 K3.
    apply sat_bind with
      (Q1 := fun _ w4 => w4 = w3) (E1 := fun _ => False);
      [eapply log_fmt_ok_spec; reflexivity | tauto |].
    intros _ w4 ->. unfold sat, ret. left. auto.
  - apply Nat.ltb_ge in E.
    destruct (keypair_set cl (store w)) as [|kp rest] eqn:Hs; [simpl in E; lia|].
    cbn. right. exists rest. auto.
Qed.

Lemma quiet_cloud_call_spec cl op w :
  creates_keypair (CloudCall cl op) = false ->
  sat (cloud_call env cl op) w
      (fun _ w' => quiet w w' /\ In (CloudCall cl op) (history w'))
      (fun w' => quiet w w').
Proof.
  intros Hc. pose proof (quietly_cloud_call cl op Hc w) as Hq.
  pose proof (cloud_call_spec cl op w) as Hs. unfold sat in *.
  destruct (cloud_call env cl op w) as [a w'|e w'|]; [|exact Hq|exact I].
  split; [exact Hq|]. destruct Hs as [_ ->]. apply in_or_app. right. now left.
Qed.

(** [start_new], whatever its outcome. *)
Lemma start_new_spec fuel w :
  sat (start_new env settings fuel) w
      (fun bn w' =>
         exists kp, keypair_ready w (bn_cloud bn) kp w' /\
                    created_with (bn_cloud bn) kp w')
      (fun w' => at_most_one_created w w').
Proof.
  unfold start_new.
  apply sat_bind with (Q1 := fun a w1 => a = w /\ w1 = w) (E1 := fun _ => False);
    [unfold sat, get_state; auto | tauto |].
  intros ? ? [-> ->].
  apply sat_bind with (Q1 := fun _ w1 => quiet w w1) (E1 := fun w1 => quiet w w1);
    [apply quietly_choice | apply quiet_at_most |].
  intros cloud w1 H1. cbv zeta.
  apply sat_bind with (Q1 := fun _ w2 => w2 = w1) (E1 := fun w2 => w2 = w1);
    [apply log_fmt_spec | intros ? ->; now apply quiet_at_most |].
  intros _ ? ->.
  apply sat_bind with
    (Q1 := fun kp w2 => keypair_ready w (cloud_name cloud) kp w2)
    (E1 := fun w2 => keypairs (store w2) = keypairs (store w)).
  - eapply sat_weaken; [apply ensure_keypair_spec | |].
    + intros kp w2 [(H0 & Hc & Hk)|(rest & Hs & ->)].
      * left. destruct H1 as [K1 _].
        rewrite (keypair_set_ext _ _ _ K1) in H0. split; [exact H0|].
        split; [exact Hc|]. congruence.
      * right. exists rest. destruct H1 as [K1 ?].
        rewrite (keypair_set_ext _ _ _ K1) in Hs. split; [exact Hs|].
        split; assumption.
    + intros w2 K2. destruct H1 as [K1 _]. congruence.
  - intros w2 K. left. exact K.
  - intros kp w2 Hready.
    apply sat_bind with (Q1 := fun _ w3 => w3 = w2) (E1 := fun w3 => w3 = w2);
      [apply log_fmt_spec | intros ? ->; eapply keypair_ready_at_most; eauto |].
    intros _ ? ->.
    apply sat_bind with (Q1 := fun _ w3 => quiet w2 w3) (E1 := fun w3 => quiet w2 w3);
      [apply quietly_unique_buildnode_name
      | intros w3 H3; eapply keypair_ready_at_most, keypair_ready_quiet; eauto |].
    intros name w3 H3.
    pose proof (keypair_ready_quiet _ _ _ _ _ Hready H3) as R3.
    apply sat_bind with (Q1 := fun _ w4 => quiet w3 w4) (E1 := fun w4 => quiet w3 w4);
      [now apply quietly_cloud_call
      | intros w4 H4; eapply keypair_ready_at_most, keypair_ready_quiet; eauto |].
    intros flavor w4 H4.
    pose proof (keypair_ready_quiet _ _ _ _ _ R3 H4) as R4.
    apply sat_bind with (Q1 := fun _ w5 => quiet w4 w5) (E1 := fun w5 => quiet w4 w5);
      [now apply quietly_cloud_call
      | intros w5 H5; eapply keypair_ready_at_most, keypair_ready_quiet; eauto |].
    intros image w5 H5.
    pose proof (keypair_ready_quiet _ _ _ _ _ R4 H5) as R5.
    apply sat_bind with (Q1 := fun _ w6 => w6 = w5) (E1 := fun w6 => w6 = w5);
      [apply log_fmt_spec | intros ? ->; eapply keypair_ready_at_most; eauto |].
    intros _ ? ->.
    apply sat_bind with
      (Q1 := fun _ w6 => quiet w5 w6 /\
               created_with (cloud_name cloud) kp w6)
      (E1 := fun w6 => quiet w5 w6).
    + eapply sat_weaken; [now apply quiet_cloud_call_spec | | auto].
      intros srv w6 [H6 Hin]. split; [exact H6|].
      exists name, (field 0 image), (field 0 flavor). exact Hin.
    + intros w6 H6. eapply keypair_ready_at_most, keypair_ready_quiet; eauto.
    + intros srv w6 [H6 Hc6].
      pose proof (keypair_ready_quiet _ _ _ _ _ R5 H6) as R6.
      eapply sat_weaken; [apply register_node_spec | |].
      * intros bn w7 [H7 ->]. exists kp. split.
        -- eapply keypair_ready_quiet; eauto.
        -- eapply created_with_quiet; eauto.
      * intros w7 H7. eapply keypair_ready_at_most, keypair_ready_quiet; eauto.
Qed.

Lemma keypair_set_app cl (s : Store) kp :
  filter (fun k => String.eqb (kp_cloud k) cl) (keypairs s ++ [kp]) =
  keypair_set cl s ++ (if String.eqb (kp_cloud kp) cl then [kp] else []).
Proof. rewrite filter_app. reflexivity. Qed.

Lemma at_most_one_preserves w w' :
  one_keypair_per_cloud (store w) -> at_most_one_created w w' ->
  one_keypair_per_cloud (store w').
Proof.
  intros Hinv [K|(kp & K & Hnone)] cl.
  - rewrite (keypair_set_ext _ _ _ K). apply Hinv.
  - unfold keypair_set at 1. rewrite K, keypair_set_app.
    destruct (String.eqb (kp_cloud kp) cl) eqn:E.
    + apply String.eqb_eq in E. subst cl. rewrite Hnone. simpl. lia.
    + rewrite app_nil_r. apply Hinv.
Qed.

(** C8.  A lease that returns a node on a cloud without a cached key
    pair has added exactly one key pair, for that cloud, and created the
    server with it.  A lease on a cloud that has key pairs leaves the table
    as it is, does not ask the cloud for a key pair, and creates the server
    with the first cached one.  So if every cloud has at most one key pair
    before [start_new], this is still so afterwards, whether it returns or
    raises. *)
Theorem start_new_caches_keypair (fuel : nat) (w : World) :
  (forall bn w',
      start_new env settings fuel w = Ret bn w' ->
      keypair_set (bn_cloud bn) (store w) = [] ->
      exists kp,
        keypairs (store w') = keypairs (store w) ++ [kp] /\
        keypair_set (bn_cloud bn) (store w') = [kp] /\
        created_with (bn_cloud bn) kp w') /\
  (forall bn w' kp rest,
      start_new env settings fuel w = Ret bn w' ->
      keypair_set (bn_cloud bn) (store w) = kp :: rest ->
      quiet w w' /\ created_with (bn_cloud bn) kp w') /\
  (one_keypair_per_cloud (store w) ->
     match start_new env settings fuel w with
     | Ret _ w' => one_keypair_per_cloud (store w')
     | Exc _ w' => one_keypair_per_cloud (store w')
     | Diverge => True
     end).
Proof.
  pose proof (start_new_spec fuel w) as Hspec. unfold sat in Hspec.
  split; [|split].
  - intros bn w' Hrun Hnone. rewrite Hrun in Hspec.
    destruct Hspec as (kp & [(_ & Hc & Hk)|(rest & Hs & _)] & Hcreated);
      [|congruence].
    exists kp. split; [exact Hk|]. split; [|exact Hcreated].
    unfold keypair_set at 1. rewrite Hk, keypair_set_app, Hnone, Hc.
    now rewrite String.eqb_refl.
  - intros bn w' kp rest Hrun Hsome. rewrite Hrun in Hspec.
    destruct Hspec as (kp' & [(H0 & _)|(rest' & Hs & Hq)] & Hcreated);
      [congruence|].
    rewrite Hsome in Hs. injection Hs as <- _. auto.
  - intros Hinv.
    destruct (start_new env settings fuel w) as [bn w'|e w'|]; [| |exact I].
    + destruct Hspec as (kp & Hready & _).
      eapply at_most_one_preserves; [exact Hinv|].
      eapply keypair_ready_at_most; eauto.
    + eapply at_most_one_preserves; eauto.
Qed.
End StartNew.

Section StartNewExamples.
Import BuildNode.

(** Two leases in a row on a cloud that starts without a key pair. *)
Lemma start_new_caches_keypair_witness :
  exists bn1 w1 bn2 w2 kp,
    start_new calm_env example_settings 1 lease_world = Ret bn1 w1 /\
    keypairs (store w1) = [kp] /\
    start_new calm_env example_settings 1 w1 = Ret bn2 w2 /\
    bn_cloud bn2 = bn_cloud bn1 /\
    keypairs (store w2) = [kp] /\
    created_with (bn_cloud bn2) kp w2.
Proof.
  destruct (start_new calm_env example_settings 1 lease_world)
    as [bn1 w1|e w1|] eqn:E1;
    [|vm_compute in E1; discriminate|vm_compute in E1; discriminate].
  pose proof E1 as E1c. vm_compute in E1c. injection E1c as Hbn1 Hw1.
  destruct (start_new calm_env example_settings 1 w1)
    as [bn2 w2|e w2|] eqn:E2;
    [|rewrite <- Hw1 in E2; vm_compute in E2; discriminate
     |rewrite <- Hw1 in E2; vm_compute in E2; discriminate].
  pose proof E2 as E2c. rewrite <- Hw1 in E2c. vm_compute in E2c.
  injection E2c as Hbn2 Hw2.
  destruct (start_new_caches_keypair calm_env example_settings 1 lease_world)
    as (HA & _ & _).
  destruct (HA bn1 w1 E1 eq_refl) as (kp & Hk & Hset & _).
  destruct (start_new_caches_keypair calm_env example_settings 1 w1)
    as (_ & HB & _).
  assert (Hcloud : bn_cloud bn2 = bn_cloud bn1) by (now rewrite <- Hbn1, <- Hbn2).
  destruct (HB bn2 w2 kp [] E2) as ([K _] & Hcreated);
    [rewrite Hcloud; exact Hset|].
  exists bn1, w1, bn2, w2, kp. repeat split; auto.
  rewrite K. exact Hk.
Defined.
End StartNewExamples.

(** * Further properties of the scheduling core *)

(** ** pick_build under interleaving *)

Section PickBuildMore.
Import BuildRecord.

Lemma get_by_id rows r :
  NoDup (map br_id rows) -> In r rows ->
  Orm.get (fun x => br_id x =? br_id r) rows = Ok r.
Proof.
  intros Hnd Hin. destruct (id_split rows r Hnd Hin) as (pre & post & -> & Hne).
  unfold Orm.get. now rewrite (filter_id_split pre post r Hne).
Qed.

Lemma pick_step_no_raise node p rows p' rows' e :
  NoDup (map br_id rows) ->
  holds_assigned rows {| c_node := node; c_pc := p |} ->
  p <> Returned (Raise e) ->
  pick_step node p rows = (p', rows') ->
  p' <> Returned (Raise e).
Proof.
  intros Hnd Hheld Hp Hstep. destruct p as [|nb|nb|r]; simpl in Hstep.
  - destruct (index0 _); injection Hstep as <- _; discriminate.
  - destruct (conditional_update (br_id nb) node rows) as [m rows1].
    destruct (Nat.eqb m 1); injection Hstep as <- _; discriminate.
  - destruct (Hheld (br_id nb) eq_refl) as (r & Hin & Hid & _).
    rewrite <- Hid, (get_by_id rows r Hnd Hin) in Hstep.
    injection Hstep as <- _. discriminate.
  - injection Hstep as <- _. exact Hp.
Qed.

Lemma pick_step_columns node p rows :
  map (with_build_node None) (snd (pick_step node p rows))
  = map (with_build_node None) rows.
Proof.
  destruct p as [|nb|nb|r]; simpl.
  - now destruct (index0 _).
  - pose proof (update_map_key _ _ (with_build_node None) (claimable (br_id nb))
                  (with_build_node (Some node)) rows (fun _ => eq_refl)) as H.
    unfold conditional_update.
    destruct (Orm.update _ _ rows) as [m rows1]. simpl in H.
    now destruct (Nat.eqb m 1).
  - now destruct (Orm.get _ rows).
  - reflexivity.
Qed.

Lemma steps_no_raise s s' :
  claim_invariant s ->
  (forall c e, In c (callers s) -> c_pc c <> Returned (Raise e)) ->
  steps s s' ->
  (forall c e, In c (callers s') -> c_pc c <> Returned (Raise e)) /\
  map (with_build_node None) (db s') = map (with_build_node None) (db s).
Proof.
  intros Hinv Hok Hsteps. induction Hsteps as [|s1 s2 s3 H12 _ IH]; [auto|].
  pose proof (step_preserves_invariant _ _ Hinv H12) as Hinv2.
  destruct H12 as [rows pre c post p' rows' Hs].
  destruct Hinv as (Hnd & _ & Hall). simpl in *.
  assert (Hc : holds_assigned rows {| c_node := c_node c; c_pc := c_pc c |}).
  { rewrite Forall_forall in Hall. destruct c. apply Hall.
    apply in_or_app. right. now left. }
  destruct IH as [IH1 IH2]; [exact Hinv2 | | split; [exact IH1|]].
  - intros c' e Hin. apply in_app_or in Hin. destruct Hin as [Hin|[<-|Hin]].
    + apply Hok. apply in_or_app. now left.
    + simpl. eapply pick_step_no_raise; eauto.
      apply Hok. apply in_or_app. right. now left.
    + apply Hok. apply in_or_app. right. now right.
  - rewrite IH2. pose proof (pick_step_columns (c_node c) (c_pc c) rows) as H.
    now rewrite Hs in H.
Qed.

(** X1.  Callers of [pick_build] interleaved statement by statement, from
    a state in which every caller is about to scan: no caller ever ends
    with an exception (the final [get] always finds its row, and only one),
    and no column of the table other than [build_node] ever changes, nor
    the number or the order of the rows. *)
Theorem pick_build_never_raises (s0 s : system) :
  initial s0 -> steps s0 s ->
  (forall c e, In c (callers s) -> c_pc c <> Returned (Raise e)) /\
  map (with_build_node None) (db s) = map (with_build_node None) (db s0).
Proof.
  intros Hinit Hsteps.
  apply (steps_no_raise s0 s (initial_invariant s0 Hinit)); [|exact Hsteps].
  intros c e Hin. destruct Hinit as [_ Hscan]. rewrite Forall_forall in Hscan.
  rewrite (Hscan c Hin). discriminate.
Qed.

Lemma pick_build_never_raises_witness :
  initial race_start /\ steps race_start race_claimed /\
  (forall c e, In c (callers race_claimed) -> c_pc c <> Returned (Raise e)) /\
  map (with_build_node None) (db race_claimed)
  = map (with_build_node None) (db race_start).
Proof.
  assert (Hinit : initial race_start).
  { split; simpl; repeat constructor. intros []. }
  split; [exact Hinit|]. split; [exact race_run_1|].
  exact (pick_build_never_raises race_start race_claimed Hinit race_run_1).
Defined.
End PickBuildMore.

(** ** pick_build, one caller: what a claim changes *)

Section PickBuildEffect.
Import BuildRecord.

Lemma pending_builds_app rows1 rows2 :
  pending_builds (rows1 ++ rows2) = pending_builds rows1 ++ pending_builds rows2.
Proof. apply filter_app. Qed.

Lemma pending_claimed node r : pending (with_build_node (Some node) r) = false.
Proof. unfold pending. simpl. apply andb_false_r. Qed.

(** The effect of a claim: one pending row of highest priority gets the
    node, in place. *)
Lemma pick_build_effect fuel node s r1 s1 :
  NoDup (map br_id (buildrecords s)) ->
  pick_build fuel node s = Some (Ok (Some r1), s1) ->
  exists pre r post,
    buildrecords s = pre ++ r :: post /\
    pending r = true /\
    (forall c, In c (pending_builds (buildrecords s)) -> priority c <= priority r) /\
    r1 = with_build_node (Some (bn_name node)) r /\
    s1 = set_buildrecords (pre ++ r1 :: post) s.
Proof.
  intros Hnd H. rewrite (pick_build_cases fuel node s Hnd) in H.
  destruct (index0 (Orm.order_by_desc priority (pending_builds (buildrecords s))))
    as [r|e] eqn:E; [|destruct fuel; discriminate].
  destruct (fuel <? 3)%nat; [discriminate|]. injection H as <- <-.
  destruct (order_by_desc_first _ _ _ _ E) as [Hin Hmax].
  pose proof Hin as Hp. unfold pending_builds in Hp. apply filter_In in Hp.
  destruct Hp as [Hrows Hpend].
  destruct (pending_unassigned _ _ Hin) as [_ Hnull].
  destruct (conditional_update_wins _ r (bn_name node) Hnd Hrows Hnull)
    as (pre & post & Hsplit & Hupd & _).
  exists pre, r, post. rewrite Hupd. auto.
Qed.

(** X2.  With [id] a primary key, a call of [pick_build] that returns a
    record has changed exactly that row: the row holds the returned object,
    which is assigned to the caller's node; every other row is where and
    what it was; one build less is pending; the other tables are
    untouched. *)
Theorem pick_build_claims_one (fuel : nat) (node : BuildNode) (s s1 : Store)
        (r1 : BuildRecord) :
  NoDup (map br_id (buildrecords s)) ->
  pick_build fuel node s = Some (Ok (Some r1), s1) ->
  In r1 (buildrecords s1) /\
  build_node r1 = Some (bn_name node) /\
  (forall k r, nth_error (buildrecords s) k = Some r ->
               br_id r <> br_id r1 ->
               nth_error (buildrecords s1) k = Some r) /\
  S (pending_build_count (buildrecords s1)) = pending_build_count (buildrecords s) /\
  buildnodes s1 = buildnodes s /\ keypairs s1 = keypairs s /\ clouds s1 = clouds s.
Proof.
  intros Hnd H.
  destruct (pick_build_effect fuel node s r1 s1 Hnd H)
    as (pre & r & post & Hrows & Hpend & _ & -> & ->).
  cbn [buildrecords buildnodes keypairs clouds set_buildrecords].
  split; [apply in_or_app; right; now left|]. split; [reflexivity|].
  split; [|split; [|auto]].
  - intros k r' Hk Hid. rewrite Hrows in Hk. cbn [br_id with_build_node] in Hid.
    destruct (Nat.lt_trichotomy k (List.length pre)) as [Hlt|[Heq|Hgt]].
    + rewrite nth_error_app1 in * by exact Hlt. exact Hk.
    + subst k. rewrite nth_error_app2, Nat.sub_diag in Hk by lia.
      simpl in Hk. injection Hk as <-. congruence.
    + rewrite nth_error_app2 in * by lia.
      destruct (k - List.length pre)%nat as [|j] eqn:Ej; [lia|]. exact Hk.
  - unfold pending_build_count. rewrite Hrows, !pending_builds_app.
    cbn [pending_builds filter]. fold (pending_builds post).
    rewrite Hpend, pending_claimed, !length_app. simpl. lia.
Qed.

Lemma pick_build_claims_one_witness :
  let s := example_store [example_record 1 10; example_record 2 50] in
  let r1 := with_build_node (Some "buildd-1") (example_record 2 50) in
  let s1 := example_store [example_record 1 10; r1] in
  NoDup (map br_id (buildrecords s)) /\
  pick_build 3 example_node s = Some (Ok (Some r1), s1) /\
  nth_error (buildrecords s1) 0 = Some (example_record 1 10) /\
  S (pending_build_count (buildrecords s1)) = pending_build_count (buildrecords s).
Proof.
  intros s r1 s1.
  assert (Hnd : NoDup (map br_id (buildrecords s))).
  { simpl. repeat constructor; simpl; intuition discriminate. }
  assert (Hrun : pick_build 3 example_node s = Some (Ok (Some r1), s1))
    by reflexivity.
  split; [exact Hnd|]. split; [exact Hrun|].
  destruct (pick_build_claims_one 3 example_node s s1 r1 Hnd Hrun)
    as (_ & _ & Hkeep & Hcount & _).
  split; [|exact Hcount].
  apply (Hkeep 0%nat (example_record 1 10)); [reflexivity | discriminate].
Defined.

(** X3.  Builds are handed out in order of priority: of two successive
    calls of [pick_build] that return records, the second returns another
    record, and its priority is not higher than that of the first. *)
Theorem pick_build_twice_descending (fuel1 fuel2 : nat) (node1 node2 : BuildNode)
        (s s1 s2 : Store) (r1 r2 : BuildRecord) :
  NoDup (map br_id (buildrecords s)) ->
  pick_build fuel1 node1 s = Some (Ok (Some r1), s1) ->
  pick_build fuel2 node2 s1 = Some (Ok (Some r2), s2) ->
  br_id r2 <> br_id r1 /\ priority r2 <= priority r1.
Proof.
  intros Hnd H1 H2.
  destruct (pick_build_effect fuel1 node1 s r1 s1 Hnd H1)
    as (pre & r & post & Hrows & Hpend & Hmax & -> & ->).
  assert (Hnd1 : NoDup (map br_id (pre ++ with_build_node (Some (bn_name node1)) r
                                       :: post))).
  { rewrite Hrows in Hnd. rewrite map_app in *. exact Hnd. }
  destruct (pick_build_effect fuel2 node2
              (set_buildrecords
                 (pre ++ with_build_node (Some (bn_name node1)) r :: post) s)
              r2 s2 Hnd1 H2)
    as (pre' & r' & post' & Hrows' & Hpend' & _ & -> & _).
  cbn [buildrecords set_buildrecords] in Hrows'.
  cbn [br_id priority with_build_node].
  assert (Hin' : In r' (pre ++ with_build_node (Some (bn_name node1)) r :: post)).
  { rewrite Hrows'. apply in_or_app. right. now left. }
  assert (Hcases : In r' pre \/ In r' post).
  { apply in_app_or in Hin'. destruct Hin' as [Hin'|[Heq|Hin']]; auto.
    subst r'. rewrite pending_claimed in Hpend'. discriminate. }
  split.
  - intros Heq. rewrite Hrows, map_app in Hnd. cbn [map] in Hnd.
    apply NoDup_remove_2 in Hnd. apply Hnd. rewrite <- Heq.
    apply in_or_app. destruct Hcases as [Hc|Hc]; [left|right]; now apply in_map.
  - apply Hmax. unfold pending_builds. apply filter_In. split; [|exact Hpend'].
    rewrite Hrows. apply in_or_app.
    destruct Hcases as [Hc|Hc]; [left | right; right]; exact Hc.
Qed.

Lemma pick_build_twice_descending_witness :
  let s := example_store [example_record 1 10; example_record 2 50] in
  let r1 := with_build_node (Some "buildd-1") (example_record 2 50) in
  let r2 := with_build_node (Some "buildd-1") (example_record 1 10) in
  NoDup (map br_id (buildrecords s)) /\
  pick_build 3 example_node s
    = Some (Ok (Some r1), example_store [example_record 1 10; r1]) /\
  pick_build 3 example_node (example_store [example_record 1 10; r1])
    = Some (Ok (Some r2), example_store [r2; r1]) /\
  br_id r2 <> br_id r1 /\ priority r2 <= priority r1.
Proof.
  intros s r1 r2.
  assert (Hnd : NoDup (map br_id (buildrecords s))).
  { simpl. repeat constructor; simpl; intuition discriminate. }
  split; [exact Hnd|]. split; [reflexivity|]. split; [reflexivity|].
  exact (pick_build_twice_descending 3 3 example_node example_node s _ _ r1 r2
           Hnd eq_refl eq_refl).
Defined.
End PickBuildEffect.

(** ** Lines: what [_run_cmd] logs and what [prepare] reads *)

Section Lines.
Import BuildNode.

Lemma split_join sep (s : bytes) : join sep (Py.split sep s) = s.
Proof.
  induction s as [|c s IH]; [reflexivity|].
  cbn [Py.split]. destruct (Ascii.eqb c sep) eqn:Ec.
  - apply Ascii.eqb_eq in Ec. subst c.
    pose proof (split_nonempty sep s) as Hne.
    destruct (Py.split sep s) as [|w ws]; [congruence|].
    cbn [join app]. cbn [join] in IH. now rewrite IH.
  - pose proof (split_nonempty sep s) as Hne.
    destruct (Py.split sep s) as [|w ws]; [congruence|].
    destruct ws as [|w2 ws]; cbn [join] in *; [now rewrite IH|].
    rewrite <- IH. reflexivity.
Qed.

Lemma split_parts_no_sep sep (s l : bytes) :
  In l (Py.split sep s) -> ~ In sep l.
Proof.
  revert l. induction s as [|c s IH]; intros l Hl.
  - destruct Hl as [<-|[]]. intros [].
  - cbn [Py.split] in Hl. destruct (Ascii.eqb c sep) eqn:Ec.
    + destruct Hl as [<-|Hl]; [intros [] | now apply IH].
    + destruct (Py.split sep s) as [|w ws].
      * destruct Hl as [<-|[]]. intros [H|[]]. subst c.
        now rewrite Ascii.eqb_refl in Ec.
      * destruct Hl as [<-|Hl].
        -- intros [H|H]; [subst c; now rewrite Ascii.eqb_refl in Ec|].
           apply (IH w); [now left | exact H].
        -- apply IH. now right.
Qed.

Lemma split_length sep (s : bytes) :
  List.length (Py.split sep s) = S (count_occ ascii_dec s sep).
Proof.
  induction s as [|c s IH]; [reflexivity|].
  cbn [Py.split count_occ]. destruct (Ascii.eqb c sep) eqn:Ec.
  - apply Ascii.eqb_eq in Ec. subst c.
    destruct (ascii_dec sep sep); [|congruence]. simpl. now rewrite IH.
  - destruct (ascii_dec c sep) as [->|_]; [now rewrite Ascii.eqb_refl in Ec|].
    pose proof (split_nonempty sep s) as Hne.
    destruct (Py.split sep s) as [|w ws]; [congruence|]. exact IH.
Qed.

(** X4.  [log_whole_lines] loses nothing of the buffer: the lines it
    logs, joined by newlines with the rest it keeps, are the buffer; neither
    a logged line nor the rest holds a newline; one line is logged for each
    newline of the buffer. *)
Theorem log_whole_lines_loses_nothing (lbuf : bytes) :
  let (lines, rest) := log_whole_lines lbuf in
  join Py.newline (lines ++ [rest]) = lbuf /\
  (forall l, In l lines -> ~ In Py.newline l) /\
  ~ In Py.newline rest /\
  List.length lines = count_occ ascii_dec lbuf Py.newline.
Proof.
  unfold log_whole_lines.
  pose proof (split_nonempty Py.newline lbuf) as Hne.
  pose proof (app_removelast_last [] Hne) as Hsplit.
  split; [rewrite <- Hsplit; apply split_join|].
  assert (Hin : forall l,
             In l (removelast (Py.split Py.newline lbuf) ++
                   [last (Py.split Py.newline lbuf) []]) ->
             ~ In Py.newline l).
  { rewrite <- Hsplit. apply split_parts_no_sep. }
  split; [intros l Hl; apply Hin, in_or_app; now left|].
  split; [apply Hin, in_or_app; right; now left|].
  pose proof (split_length Py.newline lbuf) as Hlen.
  rewrite Hsplit, length_app in Hlen. simpl in Hlen. lia.
Qed.

Lemma startswith_app (l p : bytes) :
  Py.startswith l p = true -> l = p ++ skipn (List.length p) l.
Proof.
  revert l. induction p as [|c p IH]; intros l H; [reflexivity|].
  destruct l as [|x l]; [discriminate|]. cbn [Py.startswith] in H.
  apply andb_prop in H. destruct H as [Hc Hp]. apply Ascii.eqb_eq in Hc. subst x.
  cbn [List.length skipn app]. f_equal. now apply IH.
Qed.

Lemma key_line_third_word (l : bytes) :
  Py.startswith l (b "gpg: key ") = true ->
  Py.index (Py.split " " l) 2 = Ok (key_word l).
Proof.
  intros H. apply startswith_app in H. unfold key_word.
  change (List.length (b "gpg: key ")) with 9%nat in H.
  rewrite H at 1. generalize (skipn 9 l). intros rest.
  pose proof (split_nonempty " " rest) as Hne.
  cbn. destruct (Py.split " " rest) as [|w ws]; [congruence|]. reflexivity.
Qed.

Lemma scan_key_id_spec (lines : list bytes) :
  forall key_id,
  exists res,
    scan_key_id lines key_id = Ok res /\
    ((res = key_id /\
      forall l, In l lines -> Py.startswith l (b "gpg: key ") = false) \/
     (exists pre l post,
        lines = pre ++ l :: post /\
        Py.startswith l (b "gpg: key ") = true /\
        (forall x, In x post -> Py.startswith x (b "gpg: key ") = false) /\
        res = Some (key_word l))).
Proof.
  induction lines as [|l lines IH]; intros key_id.
  - exists key_id. split; [reflexivity|]. left. split; [reflexivity|intros _ []].
  - cbn [scan_key_id]. destruct (Py.startswith l (b "gpg: key ")) eqn:Hl.
    + rewrite (key_line_third_word l Hl).
      destruct (IH (Some (key_word l))) as (res & Hres & [[-> Hnone]|Hsome]).
      * exists (Some (key_word l)). split; [exact Hres|]. right.
        exists [], l, lines. auto.
      * destruct Hsome as (pre & l' & post & -> & Hk & Hpost & ->).
        exists (Some (key_word l')). split; [exact Hres|]. right.
        exists (l :: pre), l', post. auto.
    + destruct (IH key_id) as (res & Hres & [[-> Hnone]|Hsome]).
      * exists key_id. split; [exact Hres|]. left. split; [reflexivity|].
        intros x [<-|Hx]; auto.
      * destruct Hsome as (pre & l' & post & -> & Hk & Hpost & ->).
        exists (Some (key_word l')). split; [exact Hres|]. right.
        exists (l :: pre), l', post. auto.
Qed.

(** X5.  Reading the key id from the output of the key generation: the
    id is the word after the marker "gpg: key " on the last line that
    starts with the marker; if no line does, [key_id] is never assigned and
    the assignment that follows raises UnboundLocalError.  No other
    exception is possible: a line that starts with the marker always has a
    third word. *)
Theorem parse_key_id_last_key_line (out : bytes) :
  match parse_key_id out with
  | Ok k =>
      exists pre l post,
        Py.split Py.newline out = pre ++ l :: post /\
        Py.startswith l (b "gpg: key ") = true /\
        (forall x, In x post -> Py.startswith x (b "gpg: key ") = false) /\
        k = string_of_list_ascii (key_word l)
  | Raise e =>
      e = UnboundLocalError "key_id" /\
      forall l, In l (Py.split Py.newline out) ->
                Py.startswith l (b "gpg: key ") = false
  end.
Proof.
  unfold parse_key_id.
  destruct (scan_key_id_spec (Py.split Py.newline out) None)
    as (res & -> & [[-> Hnone]|(pre & l & post & Hlines & Hk & Hpost & ->)]).
  - auto.
  - exists pre, l, post. auto.
Qed.

Example parse_key_id_example :
  parse_key_id (b "gpg: keyring created
gpg: key 0BADF00D marked as ultimately trusted
gpg: key 1A2B3C4D marked as ultimately trusted
public and secret key created and signed.") = Ok "1A2B3C4D" /\
  parse_key_id (b "gpg: keyring created") = Raise (UnboundLocalError "key_id").
Proof. split; reflexivity. Qed.
End Lines.

(** ** Names for new key pairs and nodes *)

Section UniqueNames.
Import BuildNode.
Variable env : Env.

Lemma existsb_eqb_In (name : string) (names : list string) :
  existsb (String.eqb name) names = true <-> In name names.
Proof.
  rewrite existsb_exists. split.
  - intros (x & Hx & E). apply String.eqb_eq in E. now subst.
  - intros H. exists name. split; [exact H | apply String.eqb_refl].
Qed.

Lemma unique_name_spec fuel names_to_avoid :
  forall w,
    sat (unique_name env fuel names_to_avoid) w
        (fun name w' =>
           store w' = store w /\ ~ In name names_to_avoid /\
           exists k, 1 <= k <= 1000 /\ name = buildd_name k)
        (fun _ => False).
Proof.
  induction fuel as [|fuel IH]; intros w; [exact I|].
  unfold sat. cbn [unique_name]. unfold bind at 1. unfold random_nat, ask.
  set (n := random env (List.length (history w))).
  destruct (existsb _ names_to_avoid) eqn:E.
  - specialize (IH (record_call Random w)). unfold sat in IH.
    destruct (unique_name env fuel names_to_avoid (record_call Random w))
      as [name w'|e w'|]; auto.
  - unfold ret. split; [reflexivity|]. split.
    + intros Hin. apply existsb_eqb_In in Hin. congruence.
    + exists (1 + Z.of_nat (n mod 1000)). split; [|reflexivity].
      pose proof (Nat.mod_upper_bound n 1000). lia.
Qed.

Lemma unique_name_taken fuel names_to_avoid :
  (forall k, (k < 1000)%nat -> In (buildd_name (1 + Z.of_nat k)) names_to_avoid) ->
  forall w, unique_name env fuel names_to_avoid w = Diverge.
Proof.
  intros Hall. induction fuel as [|fuel IH]; intros w; [reflexivity|].
  cbn [unique_name]. unfold bind at 1. unfold random_nat, ask.
  set (n := random env (List.length (history w))).
  assert (E : existsb (String.eqb (buildd_name (1 + Z.of_nat (n mod 1000))))
                      names_to_avoid = true).
  { apply existsb_eqb_In, Hall, Nat.mod_upper_bound. discriminate. }
  unfold buildd_name in E. rewrite E. apply IH.
Qed.

(** X6.  A name that [get_unique_buildnode_name] returns is buildd-N
    with N from 1 to 1000, is not the name of a server the cloud listed and
    is not the name of any BuildNode row; a name that
    [get_unique_keypair_name] returns is not among the key pairs the cloud
    listed.  Neither function changes the database. *)
Theorem unique_names_are_fresh (fuel : nat) (cloud : string) (w : World) :
  let listed op :=
    match cloud_api env (List.length (history w)) cloud op with
    | Ok names => names
    | Raise _ => []
    end in
  (forall name w',
     get_unique_buildnode_name env fuel cloud w = Ret name w' ->
     store w' = store w /\
     ~ In name (listed ServersList) /\
     ~ In name (map bn_name (buildnodes (store w))) /\
     exists k, 1 <= k <= 1000 /\ name = buildd_name k) /\
  (forall name w',
     get_unique_keypair_name env fuel cloud w = Ret name w' ->
     store w' = store w /\
     ~ In name (listed KeypairsList) /\
     exists k, 1 <= k <= 1000 /\ name = buildd_name k).
Proof.
  intros listed. subst listed. split; intros name w'.
  - unfold get_unique_buildnode_name, bind, cloud_call, ask, get_state.
    destruct (cloud_api env _ cloud ServersList) as [servers|e]; [|discriminate].
    intros H.
    pose proof (unique_name_spec fuel
                  (servers ++ map bn_name (buildnodes (store w)))
                  (record_call (CloudCall cloud ServersList) w)) as Hs.
    unfold sat in Hs. cbn [store record_call] in *. rewrite H in Hs.
    destruct Hs as (Hstore & Hfresh & Hk).
    split; [exact Hstore|].
    split; [intros Hin; apply Hfresh, in_or_app; now left|].
    split; [intros Hin; apply Hfresh, in_or_app; now right | exact Hk].
  - unfold get_unique_keypair_name, bind, cloud_call, ask.
    destruct (cloud_api env _ cloud KeypairsList) as [names|e]; [|discriminate].
    intros H.
    pose proof (unique_name_spec fuel names
                  (record_call (CloudCall cloud KeypairsList) w)) as Hs.
    unfold sat in Hs. rewrite H in Hs. exact Hs.
Qed.

(** X7.  When every name from buildd-1 to buildd-1000 is the name of a
    BuildNode row, [get_unique_buildnode_name] never returns: if the cloud
    lists its servers the loop runs forever, whatever the random numbers. *)
Theorem unique_names_exhausted (fuel : nat) (cloud : string) (w : World) :
  (forall k, (k < 1000)%nat ->
             In (buildd_name (1 + Z.of_nat k))
                (map bn_name (buildnodes (store w)))) ->
  match get_unique_buildnode_name env fuel cloud w with
  | Ret _ _ => False
  | Exc e _ =>
      cloud_api env (List.length (history w)) cloud ServersList = Raise e
  | Diverge =>
      exists servers,
        cloud_api env (List.length (history w)) cloud ServersList = Ok servers
  end.
Proof.
  intros Hall.
  unfold get_unique_buildnode_name, bind, cloud_call, ask, get_state.
  destruct (cloud_api env _ cloud ServersList) as [servers|e]; [|reflexivity].
  cbn [store record_call]. rewrite unique_name_taken; [eauto|].
  intros k Hk. apply in_or_app. right. now apply Hall.
Qed.
End UniqueNames.

Section UniqueNamesExamples.
Import BuildNode.

Lemma fleet_names n k :
  (k < n)%nat -> In (buildd_name (1 + Z.of_nat k)) (map bn_name (fleet n)).
Proof.
  intros Hk. unfold fleet. rewrite map_map. cbn [bn_name].
  apply in_map_iff. exists k. split; [reflexivity|]. apply in_seq. lia.
Qed.

Lemma unique_names_are_fresh_witness :
  exists w',
    get_unique_buildnode_name busy_env 3 "cloud" lease_world = Ret "buildd-4" w' /\
    store w' = store lease_world /\
    ~ In "buildd-4" ["buildd-2"; "buildd-3"].
Proof.
  destruct (get_unique_buildnode_name busy_env 3 "cloud" lease_world)
    as [name w'|e w'|] eqn:E; try discriminate E.
  assert (Hname : name = "buildd-4") by (vm_compute in E; congruence).
  subst name. exists w'. split; [reflexivity|].
  destruct (unique_names_are_fresh busy_env 3 "cloud" lease_world)
    as [Hnode _].
  destruct (Hnode "buildd-4" w' E) as (Hstore & Hfresh & _).
  split; [exact Hstore | exact Hfresh].
Defined.

Lemma unique_names_exhausted_witness :
  (forall k, (k < 1000)%nat ->
             In (buildd_name (1 + Z.of_nat k))
                (map bn_name (buildnodes (store crowded_world)))) /\
  get_unique_buildnode_name calm_env 3 "cloud" crowded_world = Diverge.
Proof.
  assert (H : forall k, (k < 1000)%nat ->
                In (buildd_name (1 + Z.of_nat k))
                   (map bn_name (buildnodes (store crowded_world)))).
  { intros k Hk. apply (fleet_names 1000 k Hk). }
  split; [exact H|].
  pose proof (unique_names_exhausted calm_env 3 "cloud" crowded_world H) as T.
  destruct (get_unique_buildnode_name calm_env 3 "cloud" crowded_world)
    as [name w'|e w'|]; [destruct T | discriminate T | reflexivity].
Defined.
End UniqueNamesExamples.

(** ** start_new: the rows it writes *)

Section StartNewRows.
Import BuildNode.
Variable env : Env.
Variable settings : Settings.

Lemma rows_kept_refl w : rows_kept w w.
Proof. repeat split. Qed.

Lemma rows_kept_trans w1 w2 w3 :
  rows_kept w1 w2 -> rows_kept w2 w3 -> rows_kept w1 w3.
Proof. unfold rows_kept. intuition congruence. Qed.

Lemma rows_kept_store w w' : store w' = store w -> rows_kept w w'.
Proof. unfold rows_kept. now intros ->. Qed.

Lemma keeping_bind (A B : Type) (m : M World A) (k : A -> M World B) :
  keeping m -> (forall a, keeping (k a)) -> keeping (bind m k).
Proof.
  intros Hm Hk w.
  apply sat_bind with (Q1 := fun _ w1 => rows_kept w w1)
                      (E1 := fun w1 => rows_kept w w1);
    [apply Hm | auto |].
  intros a w1 H1.
  apply sat_weaken with (Q := fun _ w' => rows_kept w1 w')
                        (E := fun w' => rows_kept w1 w');
    [apply Hk | |]; intros; eapply rows_kept_trans; eauto.
Qed.

Lemma keeping_ret (A : Type) (a : A) : keeping (ret a).
Proof. intros w. apply rows_kept_refl. Qed.

Lemma keeping_raise (A : Type) e : keeping (@raise World A e).
Proof. intros w. apply rows_kept_refl. Qed.

Lemma keeping_lift_result (A : Type) (r : result A) : keeping (lift_result r).
Proof. destruct r; [apply keeping_ret | apply keeping_raise]. Qed.

Lemma keeping_log_fmt fmt args : keeping (log_fmt fmt args).
Proof.
  unfold log_fmt. apply keeping_bind; [apply keeping_lift_result|].
  intros _. apply keeping_ret.
Qed.

Lemma keeping_get_state : keeping get_state.
Proof. intros w. apply rows_kept_refl. Qed.

Lemma keeping_sleep n : keeping (sleep n).
Proof. intros w. repeat split. Qed.

Lemma keeping_ask (A : Type) call (answer : nat -> result A) :
  keeping (ask call answer).
Proof. intros w. unfold sat, ask. destruct (answer _); repeat split. Qed.

Lemma keeping_try_except (A : Type) (m : M World A) h :
  keeping m -> (forall e, keeping (h e)) -> keeping (try_except m h).
Proof.
  intros Hm Hh w. specialize (Hm w). unfold sat, try_except in *.
  destruct (m w) as [a w1|e w1|]; [exact Hm | | exact I].
  specialize (Hh e w1). unfold sat in Hh.
  destruct (h e w1); [| |exact I]; eapply rows_kept_trans; eauto.
Qed.

Lemma keeping_unique_name fuel avoid : keeping (unique_name env fuel avoid).
Proof.
  induction fuel as [|fuel IH]; [intros w; exact I|].
  cbn [unique_name]. apply keeping_bind; [apply keeping_ask|].
  intros n. destruct (existsb _ avoid); [exact IH | apply keeping_ret].
Qed.

Lemma keeping_attach_loop rounds cl srv ip succeeded :
  keeping (attach_loop env rounds cl srv ip succeeded).
Proof.
  revert succeeded. induction rounds as [|rounds IH]; intros succeeded;
    [apply keeping_ret|].
  cbn [attach_loop]. apply keeping_bind.
  - apply keeping_try_except.
    + apply keeping_bind; [apply keeping_ask|]. intros _. apply keeping_ret.
    + intros _. apply keeping_ret.
  - intros s. apply keeping_bind; [apply keeping_sleep|]. intros _. apply IH.
Qed.

Lemma keeping_attach_floating_ip cl name srv :
  keeping (attach_floating_ip env cl name srv).
Proof.
  unfold attach_floating_ip.
  apply keeping_bind; [apply keeping_log_fmt|]. intros _.
  apply keeping_bind; [apply keeping_ask|]. intros fip.
  apply keeping_bind; [apply keeping_log_fmt|]. intros _.
  apply keeping_bind; [apply keeping_log_fmt|]. intros _.
  apply keeping_bind; [apply keeping_attach_loop|]. intros [|].
  - apply keeping_log_fmt.
  - apply keeping_bind; [apply keeping_log_fmt|]. intros _.
    apply keeping_bind; [apply keeping_log_fmt|]. intros _.
    apply keeping_bind; [apply keeping_ask|]. intros _.
    apply keeping_bind; [apply keeping_log_fmt|]. intros _.
    apply keeping_bind; [apply keeping_ask|]. intros _.
    apply keeping_raise.
Qed.

Lemma keeping_ensure_keypair fuel cl : keeping (ensure_keypair env fuel cl).
Proof.
  unfold ensure_keypair.
  apply keeping_bind; [apply keeping_get_state|]. intros w0.
  destruct (List.length (keypair_set cl (store w0)) <? 1)%nat.
  - apply keeping_bind; [apply keeping_log_fmt|]. intros _.
    apply keeping_bind.
    { unfold get_unique_keypair_name.
      apply keeping_bind; [apply keeping_ask|]. intros names.
      apply keeping_unique_name. }
    intros name.
    apply keeping_bind; [apply keeping_ask|]. intros kp.
    apply keeping_bind; [intros w; repeat split|]. intros _.
    apply keeping_bind; [apply keeping_log_fmt|]. intros _.
    apply keeping_ret.
  - apply keeping_lift_result.
Qed.

Lemma choice_spec (A : Type) (l : list A) w :
  sat (choice env l) w (fun a w' => rows_kept w w' /\ In a l)
      (fun w' => rows_kept w w').
Proof.
  unfold sat, choice, bind, random_nat, ask, lift_result, Py.index.
  destruct (nth_error l _) as [a|] eqn:E; cbn.
  - split; [repeat split|]. eapply nth_error_In; eauto.
  - repeat split.
Qed.

Lemma buildnode_name_spec fuel cl w :
  sat (get_unique_buildnode_name env fuel cl) w
      (fun name w' =>
         rows_kept w w' /\ ~ In name (map bn_name (buildnodes (store w))))
      (fun w' => rows_kept w w').
Proof.
  unfold sat, get_unique_buildnode_name, bind, cloud_call, ask, get_state.
  destruct (cloud_api env _ cl ServersList) as [servers|e0]; [|repeat split].
  pose proof (unique_name_spec env fuel
                (servers ++ map bn_name (buildnodes (store w)))
                (record_call (CloudCall cl ServersList) w)) as Hs.
  unfold sat in Hs. cbn [store record_call] in *.
  destruct (unique_name env fuel _ _) as [name w'|e w'|]; [|destruct Hs|exact I].
  destruct Hs as (Hstore & Hfresh & _).
  split; [now apply rows_kept_store|].
  intros Hin. apply Hfresh, in_or_app. now right.
Qed.

Lemma save_fresh (bn : BuildNode) (rows : list BuildNode) :
  ~ In (bn_name bn) (map bn_name rows) ->
  Orm.save (fun n => String.eqb (bn_name n) (bn_name bn)) bn rows = rows ++ [bn].
Proof.
  intros Hfresh. unfold Orm.save.
  destruct (existsb _ rows) eqn:E; [|reflexivity].
  apply existsb_exists in E. destruct E as (n & Hn & Heq).
  apply String.eqb_eq in Heq. exfalso. apply Hfresh. rewrite <- Heq.
  now apply in_map.
Qed.

(** What follows the creation of the server: one new row, or none. *)
Lemma register_node_rows cl name srv w :
  ~ In name (map bn_name (buildnodes (store w))) ->
  sat (register_node env settings cl name srv) w
      (fun bn w' =>
         bn = {| bn_name := name; bn_cloud := cl; cloud_node_id := srv;
                 bn_state := NodeState.NEW; signing_key_id := "" |} /\
         buildnodes (store w') = buildnodes (store w) ++ [bn] /\
         buildrecords (store w') = buildrecords (store w) /\
         clouds (store w') = clouds (store w))
      (fun w' => rows_kept w w').
Proof.
  intros Hfresh. unfold register_node.
  apply sat_bind with (Q1 := fun _ w1 => rows_kept w w1)
                      (E1 := fun w1 => rows_kept w w1).
  - destruct (USE_FLOATING_IPS settings);
      [apply keeping_attach_floating_ip | apply keeping_ret].
  - auto.
  - intros _ w1 (Hr & Hn & Hc). unfold sat, bind, modify, ret.
    cbn [store set_store buildnodes buildrecords clouds set_buildnodes].
    split; [reflexivity|]. split; [|auto].
    rewrite Hn. apply (save_fresh
      {| bn_name := name; bn_cloud := cl; cloud_node_id := srv;
         bn_state := NodeState.NEW; signing_key_id := "" |}).
    exact Hfresh.
Qed.

Lemma start_new_rows fuel w :
  sat (start_new env settings fuel) w
      (fun bn w' =>
         buildnodes (store w') = buildnodes (store w) ++ [bn] /\
         ~ In (bn_name bn) (map bn_name (buildnodes (store w))) /\
         bn_state bn = NodeState.NEW /\ signing_key_id bn = "" /\
         (exists cloud, In cloud (clouds (store w)) /\
                        bn_cloud bn = cloud_name cloud) /\
         buildrecords (store w') = buildrecords (store w) /\
         clouds (store w') = clouds (store w))
      (fun w' => rows_kept w w').
Proof.
  unfold start_new.
  apply sat_bind with (Q1 := fun a w1 => a = w /\ w1 = w) (E1 := fun _ => False);
    [unfold sat, get_state; auto | tauto |].
  intros ? ? [-> ->].
  apply sat_bind with (Q1 := fun cloud w1 => rows_kept w w1 /\
                                             In cloud (clouds (store w)))
                      (E1 := fun w1 => rows_kept w w1);
    [apply choice_spec | auto |].
  intros cloud w1 [H1 Hcloud]. cbv zeta.
  assert (Hstep : forall (A : Type) (m : M World A) (k : A -> M World BuildNode)
                         w1 Q,
             rows_kept w w1 -> keeping m ->
             (forall a w2, rows_kept w w2 ->
                           sat (k a) w2 Q (fun w' => rows_kept w w')) ->
             sat (bind m k) w1 Q (fun w' => rows_kept w w')).
  { intros A m k w0 Q H0 Hm Hk.
    apply sat_bind with (Q1 := fun _ w2 => rows_kept w w2)
                        (E1 := fun w2 => rows_kept w w2).
    - eapply sat_weaken; [apply Hm | |];
        intros; eapply rows_kept_trans; eauto.
    - auto.
    - intros a w2 H2. now apply Hk. }
  apply Hstep; [exact H1 | apply keeping_log_fmt|]. intros _ w2 H2.
  apply Hstep; [exact H2 | apply keeping_ensure_keypair|]. intros keypair w3 H3.
  apply Hstep; [exact H3 | apply keeping_log_fmt|]. intros _ w4 H4.
  apply sat_bind with
    (Q1 := fun name w5 => rows_kept w w5 /\
                          ~ In name (map bn_name (buildnodes (store w))))
    (E1 := fun w5 => rows_kept w w5).
  { eapply sat_weaken; [apply buildnode_name_spec | |].
    - intros name w5 [H5 Hf]. split; [eapply rows_kept_trans; eauto|].
      destruct H4 as (_ & <- & _). exact Hf.
    - intros; eapply rows_kept_trans; eauto. }
  { auto. }
  intros name w5 [H5 Hfresh].
  apply Hstep; [exact H5 | apply keeping_ask|]. intros flavor w6 H6.
  apply Hstep; [exact H6 | apply keeping_ask|]. intros image w7 H7.
  apply Hstep; [exact H7 | apply keeping_log_fmt|]. intros _ w8 H8.
  apply Hstep; [exact H8 | apply keeping_ask|]. intros srv w9 H9.
  destruct H9 as (Hr9 & Hn9 & Hc9).
  eapply sat_weaken; [apply register_node_rows | |].
  - rewrite Hn9. exact Hfresh.
  - intros bn w' (-> & Hn & Hr & Hc). cbn [bn_name bn_state signing_key_id bn_cloud].
    split; [now rewrite Hn, Hn9|]. split; [exact Hfresh|].
    split; [reflexivity|]. split; [reflexivity|].
    split; [eauto|]. split; congruence.
  - intros w' Hk. eapply rows_kept_trans; [|exact Hk]. repeat split; assumption.
Qed.

Lemma start_new_no_cloud fuel w :
  clouds (store w) = [] ->
  start_new env settings fuel w = Exc IndexError (record_call Random w).
Proof.
  intros Hc. unfold start_new, bind at 1. unfold get_state. unfold bind at 1.
  rewrite Hc. unfold choice, bind, random_nat, ask, lift_result, Py.index.
  now destruct (random env _ mod _)%nat.
Qed.

(** X8.  [start_new] writes one BuildNode row or none.  When it returns
    a node, that node has been appended to the table as a new row (its name
    was not in use), in state NEW and without a signing key, on one of the
    configured clouds.  When it raises, no row has been written; with no
    cloud configured it raises IndexError at once.  Build records and
    clouds are never touched. *)
Theorem start_new_registers_one_node (fuel : nat) (w : World) :
  match start_new env settings fuel w with
  | Ret bn w' =>
      buildnodes (store w') = buildnodes (store w) ++ [bn] /\
      ~ In (bn_name bn) (map bn_name (buildnodes (store w))) /\
      bn_state bn = NodeState.NEW /\ signing_key_id bn = "" /\
      (exists cloud, In cloud (clouds (store w)) /\
                     bn_cloud bn = cloud_name cloud) /\
      buildrecords (store w') = buildrecords (store w) /\
      clouds (store w') = clouds (store w)
  | Exc e w' =>
      rows_kept w w' /\
      (clouds (store w) = [] -> e = IndexError /\ history w' = history w ++ [Random])
  | Diverge => True
  end.
Proof.
  pose proof (start_new_rows fuel w) as H. unfold sat in H.
  destruct (start_new env settings fuel w) as [bn w'|e w'|] eqn:E;
    [exact H | | exact I].
  split; [exact H|]. intros Hc.
  rewrite (start_new_no_cloud fuel w Hc) in E. injection E as <- <-. auto.
Qed.
End StartNewRows.

(** ** Floating addresses *)

Section FloatingAddresses.
Import BuildNode.
Variable env : Env.
Variable settings : Settings.

Lemma existsb_seq_S (f : nat -> bool) (n : nat) :
  existsb f (seq 0 (S n)) = f 0%nat || existsb (fun k => f (S k)) (seq 0 n).
Proof.
  cbn [seq existsb]. f_equal. rewrite <- seq_shift.
  induction (seq 0 n) as [|x l IH]; [reflexivity|].
  cbn [map existsb]. now rewrite IH.
Qed.

Lemma existsb_ext (A : Type) (f g : A -> bool) (l : list A) :
  (forall x, f x = g x) -> existsb f l = existsb g l.
Proof.
  intros H. induction l as [|x l IH]; [reflexivity|].
  cbn [existsb]. now rewrite H, IH.
Qed.

Lemma attach_round rounds cloud srv ip succeeded w :
  attach_loop env (S rounds) cloud srv ip succeeded w =
    attach_loop env rounds cloud srv ip
      (attach_succeeds env cloud srv ip (List.length (history w)) || succeeded)
      {| store := store w; clock := clock w + 1;
         history := history w ++ [CloudCall cloud (ServerAddFloatingIp srv ip)] |}.
Proof.
  cbn [attach_loop]. unfold bind at 1. unfold try_except, bind at 1.
  unfold cloud_call, ask, attach_succeeds.
  destruct (cloud_api env (List.length (history w)) cloud
                      (ServerAddFloatingIp srv ip)); reflexivity.
Qed.

Lemma attach_loop_spec (rounds : nat) (cloud srv ip : string) :
  forall (succeeded : bool) (w : World),
    attach_loop env rounds cloud srv ip succeeded w =
      Ret (succeeded ||
           existsb (fun k => attach_succeeds env cloud srv ip
                               (List.length (history w) + k))
                   (seq 0 rounds))
          {| store := store w;
             clock := clock w + Z.of_nat rounds;
             history := history w ++
                        repeat (CloudCall cloud (ServerAddFloatingIp srv ip))
                               rounds |}.
Proof.
  induction rounds as [|rounds IH]; intros succeeded w.
  - cbn [attach_loop seq existsb repeat]. unfold ret.
    rewrite orb_false_r, app_nil_r, Z.add_0_r. now destruct w.
  - rewrite attach_round, IH. cbn [store clock history].
    rewrite existsb_seq_S, Nat.add_0_r, length_app. cbn [List.length].
    rewrite <- app_assoc. cbn [app repeat].
    rewrite (existsb_ext _
               (fun k => attach_succeeds env cloud srv ip
                           (List.length (history w) + 1 + k))
               (fun k => attach_succeeds env cloud srv ip
                           (List.length (history w) + S k)))
      by (intros k; f_equal; lia).
    f_equal.
    + destruct (attach_succeeds env cloud srv ip (List.length (history w)));
        destruct succeeded; reflexivity.
    + f_equal. lia.
Qed.

(** X9.  The loop that attaches the floating address never raises and
    never stops early: it makes every one of its attempts, one second
    apart, also after an attempt has succeeded, and reports success exactly
    when at least one attempt was answered without an exception (or success
    was recorded before). *)
Theorem attach_loop_keeps_trying (rounds : nat) (cloud srv ip : string)
        (succeeded : bool) (w : World) :
  exists w',
    attach_loop env rounds cloud srv ip succeeded w =
      Ret (succeeded ||
           existsb (fun k => attach_succeeds env cloud srv ip
                               (List.length (history w) + k))
                   (seq 0 rounds)) w' /\
    store w' = store w /\
    clock w' = clock w + Z.of_nat rounds /\
    history w' = history w ++
                 repeat (CloudCall cloud (ServerAddFloatingIp srv ip)) rounds.
Proof. eexists. split; [apply attach_loop_spec|]. auto. Qed.

Ltac log_ok := erewrite log_fmt_ret by reflexivity; cbv beta iota.

(** The address of a new server, statement by statement. *)
Lemma attach_floating_ip_unfold cl name srv w :
  attach_floating_ip env cl name srv w =
    let i := List.length (history w) in
    let w1 := record_call (CloudCall cl FloatingIpsCreate) w in
    match cloud_api env i cl FloatingIpsCreate with
    | Raise e => Exc e w1
    | Ok floating_ip =>
        let address := field 0 floating_ip in
        let w2 :=
          {| store := store w; clock := clock w + 20;
             history := history w1 ++
                        repeat (CloudCall cl (ServerAddFloatingIp srv address)) 20 |} in
        if existsb (fun k => attach_succeeds env cl srv address (S i + k))
                   (seq 0 20)
        then Ret tt w2
        else
          let w3 := record_call (CloudCall cl (ServerDelete srv)) w2 in
          match cloud_api env (i + 21) cl (ServerDelete srv) with
          | Raise e => Exc e w3
          | Ok _ =>
              let w4 := record_call (CloudCall cl (FloatingIpDelete address)) w3 in
              match cloud_api env (i + 22) cl (FloatingIpDelete address) with
              | Raise e => Exc e w4
              | Ok _ => Exc (PyException "Failed to spawn node") w4
              end
          end
    end.
Proof.
  unfold attach_floating_ip. unfold bind at 1. log_ok.
  unfold bind at 1. unfold cloud_call at 1, ask. cbv zeta.
  destruct (cloud_api env (List.length (history w)) cl FloatingIpsCreate)
    as [floating_ip|e]; [|reflexivity].
  unfold bind at 1. log_ok. unfold bind at 1. log_ok.
  unfold bind at 1. rewrite attach_loop_spec.
  cbn [store clock history record_call orb]. rewrite length_app. cbn [List.length].
  rewrite (existsb_ext _
             (fun k => attach_succeeds env cl srv (field 0 floating_ip)
                         (List.length (history w) + 1 + k))
             (fun k => attach_succeeds env cl srv (field 0 floating_ip)
                         (S (List.length (history w)) + k)))
    by (intros k; f_equal; lia).
  destruct (existsb _ (seq 0 20)); [now log_ok|].
  unfold bind at 1. log_ok. unfold bind at 1. log_ok.
  unfold bind at 1. unfold cloud_call at 1, ask. cbn [history].
  rewrite !length_app, repeat_length. cbn [List.length].
  replace (List.length (history w) + 1 + 20)%nat
    with (List.length (history w) + 21)%nat by lia.
  destruct (cloud_api env _ cl (ServerDelete srv)) as [x|e]; [|reflexivity].
  unfold bind at 1. log_ok.
  unfold bind at 1. unfold cloud_call at 1, ask. cbn [history record_call].
  rewrite !length_app, repeat_length. cbn [List.length].
  replace (List.length (history w) + 1 + 20 + 1)%nat
    with (List.length (history w) + 22)%nat by lia.
  destruct (cloud_api env _ cl (FloatingIpDelete _)) as [y|e]; reflexivity.
Qed.

(** X10.  A new server whose floating address cannot be attached is
    given up: when the cloud has granted an address but none of the attempts
    to attach it is answered without an exception, the server is deleted,
    then the address, and "Failed to spawn node" is raised; if one of these
    two deletions raises, that exception is raised instead and what follows
    is skipped.  When an attempt succeeds, nothing is deleted. *)
Theorem attach_floating_ip_gives_up (cl name srv : string) (w : World)
        (floating_ip : list string) :
  let i := List.length (history w) in
  let address := field 0 floating_ip in
  let attempts := repeat (CloudCall cl (ServerAddFloatingIp srv address)) 20 in
  cloud_api env i cl FloatingIpsCreate = Ok floating_ip ->
  match attach_floating_ip env cl name srv w with
  | Ret _ w' =>
      existsb (fun k => attach_succeeds env cl srv address (S i + k)) (seq 0 20)
        = true /\
      history w' = history w ++ CloudCall cl FloatingIpsCreate :: attempts
  | Exc e w' =>
      existsb (fun k => attach_succeeds env cl srv address (S i + k)) (seq 0 20)
        = false /\
      exists rest,
        history w' = history w ++ CloudCall cl FloatingIpsCreate :: attempts
                               ++ CloudCall cl (ServerDelete srv) :: rest /\
        match cloud_api env (i + 21) cl (ServerDelete srv) with
        | Raise e1 => e = e1 /\ rest = []
        | Ok _ =>
            rest = [CloudCall cl (FloatingIpDelete address)] /\
            match cloud_api env (i + 22) cl (FloatingIpDelete address) with
            | Raise e2 => e = e2
            | Ok _ => e = PyException "Failed to spawn node"
            end
        end
  | Diverge => False
  end.
Proof.
  intros i address attempts Hcreate. subst i address attempts.
  rewrite attach_floating_ip_unfold. cbv zeta. rewrite Hcreate.
  destruct (existsb _ (seq 0 20)).
  - split; [reflexivity|]. cbn [history record_call].
    now rewrite <- app_assoc.
  - destruct (cloud_api env _ cl (ServerDelete srv)) as [x|e1].
    + destruct (cloud_api env _ cl (FloatingIpDelete _)) as [y|e2];
        (split; [reflexivity|]; eexists; split;
         [cbn [history record_call]; rewrite <- !app_assoc; reflexivity | auto]).
    + split; [reflexivity|]. eexists. split;
        [cbn [history record_call]; rewrite <- !app_assoc; reflexivity | auto].
Qed.
Lemma history_called call c :
  List.length (history (world (called call c))) = S (List.length (history (world c))).
Proof. cbn. rewrite length_app. simpl. lia. Qed.

(** [delete] with floating addresses, statement by statement. *)
Lemma delete_floating_unfold c :
  USE_FLOATING_IPS settings = true ->
  delete env settings c =
    let i := List.length (history (world c)) in
    let cloud := bn_cloud (self c) in
    let server := cloud_node_id (self c) in
    let c1 := called (CloudCall cloud (ServerNetworks server)) c in
    match cloud_api env i cloud (ServerNetworks server) with
    | Raise e => Exc e c1
    | Ok addresses =>
        match Py.index addresses 1 with
        | Raise e => Exc e c1
        | Ok ip =>
            let c2 := called (CloudCall cloud (FloatingIpsFind ip)) c1 in
            match cloud_api env (S i) cloud (FloatingIpsFind ip) with
            | Raise e => Exc e c2
            | Ok _ =>
                let c3 := called (CloudCall cloud (ServerRemoveFloatingIp server ip))
                                 c2 in
                match cloud_api env (S (S i)) cloud
                                (ServerRemoveFloatingIp server ip) with
                | Raise e => Exc e c3
                | Ok _ =>
                    Exc (TypeError
                           "not all arguments converted during string formatting")
                        c3
                end
            end
        end
    end.
Proof.
  intros Hfl. unfold delete. erewrite bind_ret by reflexivity.
  rewrite Hfl. unfold bind at 1. unfold bind at 1. unfold bind at 1.
  unfold ip. erewrite bind_ret by reflexivity.
  unfold bind at 1. rewrite in_world_cloud_call. cbv zeta.
  destruct (cloud_api env _ _ (ServerNetworks _)) as [addresses|e]; [|reflexivity].
  rewrite Hfl. unfold lift_result.
  destruct (Py.index addresses 1) as [floating_ip|e]; [|reflexivity].
  unfold ret at 1. unfold bind at 1. rewrite in_world_cloud_call, history_called.
  cbn [self called set_world].
  destruct (cloud_api env _ _ (FloatingIpsFind _)) as [ref|e]; [|reflexivity].
  unfold bind at 1. log_ok.
  unfold bind at 1. rewrite in_world_cloud_call, !history_called.
  cbn [self called set_world].
  destruct (cloud_api env _ _ (ServerRemoveFloatingIp _ _)) as [x|e]; [|reflexivity].
  unfold bind at 1. erewrite log_fmt_raise by reflexivity. reflexivity.
Qed.

(** X11.  With floating addresses in use, [delete] never deletes
    anything.  It always raises: from one of the calls that look up and
    detach the address, or, when these succeed, from the log message that
    follows, which has two conversions for three values.  The server, the
    address and the signing key are left as they are, and so are the build
    records and the row of the node. *)
Theorem delete_with_floating_ips_never_deletes (c : Ctx) :
  USE_FLOATING_IPS settings = true ->
  exists e c' calls,
    delete env settings c = Exc e c' /\
    same_objects c c' /\
    history (world c') = history (world c) ++ calls /\
    forallb (fun call => negb (removes call)) calls = true /\
    (forall ip, detached_address env c = Some ip ->
       e = TypeError "not all arguments converted during string formatting" /\
       calls = [CloudCall (bn_cloud (self c)) (ServerNetworks (cloud_node_id (self c)));
                CloudCall (bn_cloud (self c)) (FloatingIpsFind ip);
                CloudCall (bn_cloud (self c))
                          (ServerRemoveFloatingIp (cloud_node_id (self c)) ip)]).
Proof.
  intros Hfl. rewrite (delete_floating_unfold c Hfl). cbv zeta.
  unfold detached_address.
  destruct (cloud_api env _ _ (ServerNetworks _)) as [addresses|e].
  2:{ do 2 eexists. exists [CloudCall (bn_cloud (self c))
                                     (ServerNetworks (cloud_node_id (self c)))].
      split; [reflexivity|]. split; [repeat split|]. split; [reflexivity|].
      split; [reflexivity | discriminate]. }
  destruct (Py.index addresses 1) as [ip|e].
  2:{ do 2 eexists. exists [CloudCall (bn_cloud (self c))
                                     (ServerNetworks (cloud_node_id (self c)))].
      split; [reflexivity|]. split; [repeat split|]. split; [reflexivity|].
      split; [reflexivity | discriminate]. }
  destruct (cloud_api env _ _ (FloatingIpsFind _)) as [ref|e].
  2:{ do 2 eexists.
      exists [CloudCall (bn_cloud (self c)) (ServerNetworks (cloud_node_id (self c)));
              CloudCall (bn_cloud (self c)) (FloatingIpsFind ip)].
      split; [reflexivity|]. split; [repeat split|].
      split; [cbn; now rewrite <- app_assoc|].
      split; [reflexivity | discriminate]. }
  destruct (cloud_api env _ _ (ServerRemoveFloatingIp _ _)) as [x|e].
  2:{ do 2 eexists.
      exists [CloudCall (bn_cloud (self c)) (ServerNetworks (cloud_node_id (self c)));
              CloudCall (bn_cloud (self c)) (FloatingIpsFind ip);
              CloudCall (bn_cloud (self c))
                        (ServerRemoveFloatingIp (cloud_node_id (self c)) ip)].
      split; [reflexivity|]. split; [repeat split|].
      split; [cbn; now rewrite <- !app_assoc|].
      split; [reflexivity | discriminate]. }
  do 2 eexists.
  exists [CloudCall (bn_cloud (self c)) (ServerNetworks (cloud_node_id (self c)));
          CloudCall (bn_cloud (self c)) (FloatingIpsFind ip);
          CloudCall (bn_cloud (self c))
                    (ServerRemoveFloatingIp (cloud_node_id (self c)) ip)].
  split; [reflexivity|]. split; [repeat split|].
  split; [cbn; now rewrite <- !app_assoc|].
  split; [reflexivity|]. intros ip' Hip. injection Hip as <-. auto.
Qed.
End FloatingAddresses.

Section FloatingAddressesExamples.
Import BuildNode.

Lemma attach_floating_ip_gives_up_witness :
  cloud_api unattachable_env 0 "cloud" FloatingIpsCreate = Ok ["172.24.4.2"] /\
  exists w',
    attach_floating_ip unattachable_env "cloud" "buildd-2" "srv-2" lease_world
      = Exc (PyException "Failed to spawn node") w' /\
    clock w' = 20 /\
    In (CloudCall "cloud" (ServerDelete "srv-2")) (history w').
Proof.
  split; [reflexivity|].
  pose proof (attach_floating_ip_gives_up unattachable_env "cloud" "buildd-2"
                "srv-2" lease_world ["172.24.4.2"] eq_refl) as H.
  destruct (attach_floating_ip unattachable_env "cloud" "buildd-2" "srv-2"
                               lease_world) as [x w'|e w'|] eqn:E;
    [destruct H as [H _]; discriminate H | | destruct H].
  destruct H as (_ & rest & Hh & Hrest). cbn in Hrest.
  destruct Hrest as [_ ->]. exists w'. split; [reflexivity|].
  split; [vm_compute in E; injection E as <-; reflexivity|].
  rewrite Hh. apply in_or_app. right. right. apply in_or_app. right. now left.
Defined.

Lemma delete_with_floating_ips_never_deletes_witness :
  USE_FLOATING_IPS floating_settings = true /\
  detached_address calm_env floating_ctx = Some "172.24.4.2" /\
  exists c',
    delete calm_env floating_settings floating_ctx
      = Exc (TypeError "not all arguments converted during string formatting") c' /\
    store (world c') = store (world floating_ctx) /\
    history (world c') =
      [CloudCall "cloud" (ServerNetworks "srv-1");
       CloudCall "cloud" (FloatingIpsFind "172.24.4.2");
       CloudCall "cloud" (ServerRemoveFloatingIp "srv-1" "172.24.4.2")].
Proof.
  split; [reflexivity|]. split; [reflexivity|].
  destruct (delete_with_floating_ips_never_deletes calm_env floating_settings
              floating_ctx eq_refl)
    as (e & c' & calls & Hrun & (_ & _ & Hstore) & Hhist & _ & Hdetached).
  destruct (Hdetached "172.24.4.2" eq_refl) as [-> ->].
  exists c'. split; [exact Hrun|]. split; [exact Hstore | exact Hhist].
Defined.
End FloatingAddressesExamples.

(** ** The scheduler entry point *)

Section PerformSingleBuild.
Import BuildNode.
Variable env : Env.
Variable settings : Settings.

Lemma run_columns fuel node :
  forall p rows res rows',
    BuildRecord.run fuel node p rows = Some (res, rows') ->
    map (with_build_node None) rows' = map (with_build_node None) rows.
Proof.
  induction fuel as [|fuel IH]; intros p rows res rows' H.
  - destruct p; try discriminate. injection H as _ <-. reflexivity.
  - destruct p as [|nb|nb|r]; cbn [BuildRecord.run] in H;
      try (destruct (BuildRecord.pick_step node _ rows) as [p1 rows1] eqn:E;
           apply IH in H; rewrite H;
           match type of E with
           | BuildRecord.pick_step ?n ?p ?rs = _ =>
               pose proof (pick_step_columns n p rs) as Hc
           end;
           rewrite E in Hc; exact Hc).
    injection H as _ <-. reflexivity.
Qed.

Lemma release_columns name rows :
  map (with_build_node None) (map (release name) rows)
  = map (with_build_node None) rows.
Proof.
  rewrite map_map. apply map_ext. intros r. unfold release.
  now destruct (references name r).
Qed.

(** [delete] ends, and leaves the build records as they are but for the
    references it clears. *)
Lemma delete_records c :
  match delete env settings c with
  | Ret _ c' => records_kept (world c) (world c')
  | Exc _ c' => records_kept (world c) (world c')
  | Diverge => False
  end.
Proof.
  destruct (USE_FLOATING_IPS settings) eqn:Hfl.
  - destruct (delete_with_floating_ips_raises env settings c Hfl)
      as (e & c' & -> & _ & _ & Hs).
    unfold records_kept. now rewrite Hs.
  - rewrite (delete_no_floating env settings c Hfl). cbv zeta.
    assert (Hdone : forall c1, store (world c1) = store (world c) ->
                               records_kept (world c) (world (torn_down c1))).
    { intros c1 Hs. unfold records_kept, torn_down.
      cbn [world set_world store set_store]. rewrite delete_store_eq, Hs.
      cbn [without_node buildrecords]. apply release_columns. }
    destruct (cloud_api env _ _ _) as [a|e]; [|reflexivity].
    destruct (String.eqb (signing_key_id (self c)) ""); [now apply Hdone|].
    destruct (local_cmd env _ _ None) as [o|e]; [now apply Hdone | reflexivity].
Qed.

Lemma prepare_records fuel c :
  match prepare env settings fuel c with
  | Ret _ c' => records_kept (world c) (world c')
  | Exc _ c' => records_kept (world c) (world c')
  | Diverge => True
  end.
Proof.
  rewrite prepare_unfold. unfold try_except, bind at 1.
  pose proof (wait_ends_by_success env fuel (saved_in_state NodeState.BOOTING c))
    as Hwait.
  destruct (wait_for_connection env fuel _) as [[] c1|e c1|];
    [|destruct Hwait|exact I].
  destruct Hwait as (_ & _ & _ & _ & (_ & _ & Hs1) & _).
  pose proof (bootstrap_ends env settings c1) as Hboot. unfold ends_with in Hboot.
  destruct (bootstrap env settings c1) as [[] c2|e c2|]; [| |destruct Hboot].
  - destruct Hboot as (_ & _ & Hr). unfold records_kept. now rewrite Hr, Hs1.
  - destruct Hboot as (_ & _ & Hr).
    erewrite bind_ret by reflexivity. unfold bind.
    erewrite log_fmt_ret by reflexivity.
    pose proof (delete_records c2) as Hd.
    destruct (delete env settings c2) as [[] c3|e3 c3|];
      [| |destruct Hd]; unfold records_kept in *; now rewrite Hd, Hr, Hs1.
Qed.

(** X12.  [perform_single_build] does nothing when no build is pending:
    no node is started.  When a build is pending it never returns normally:
    it raises at the latest when [build] is reached, whose first statement
    raises AttributeError, or it is still waiting for the node.  Whatever
    the outcome, no build record has changed in anything but its
    [build_node]; in particular none has changed its state. *)
Theorem perform_single_build_never_builds (fuel : nat) (w : World) :
  (BuildRecord.pending_build_count (buildrecords (store w)) = 0%nat ->
   perform_single_build env settings fuel w = Ret tt w) /\
  (BuildRecord.pending_build_count (buildrecords (store w)) <> 0%nat ->
   match perform_single_build env settings fuel w with
   | Ret _ _ => False
   | Exc _ w' => records_kept w w'
   | Diverge => True
   end).
Proof.
  split.
  - unfold perform_single_build, bind at 1, get_state. intros ->. reflexivity.
  - intros Hn. unfold perform_single_build, bind at 1, get_state.
    cbv beta iota.
    destruct (0 <? BuildRecord.pending_build_count (buildrecords (store w)))%nat
      eqn:E; [|apply Nat.ltb_ge in E; lia].
    unfold bind at 1.
    pose proof (start_new_rows env settings fuel w) as Hs. unfold sat in Hs.
    destruct (start_new env settings fuel w) as [bn w1|e w1|]; cbv beta iota;
      [| destruct Hs as [Hs _]; unfold records_kept; now rewrite Hs | exact I].
    destruct Hs as (_ & _ & _ & _ & _ & Hr1 & _).
    unfold bind at 1. unfold pick_build_in_world, BuildRecord.pick_build.
    destruct (BuildRecord.run fuel (bn_name bn) BuildRecord.AtScan
                              (buildrecords (store w1)))
      as [[res rows]|] eqn:Erun; cbv beta iota; [|exact I].
    apply run_columns in Erun.
    assert (Hr2 : records_kept w (set_store (set_buildrecords rows (store w1)) w1)).
    { unfold records_kept. cbn. now rewrite Erun, Hr1. }
    destruct res as [br|e]; cbv beta iota; [|exact Hr2].
    unfold on_node, bind.
    pose proof (prepare_records fuel
                  {| self := bn; build_record := br;
                     world := set_store (set_buildrecords rows (store w1)) w1 |})
      as Hp.
    destruct (prepare env settings fuel _) as [[] c2|e c2|]; cbv beta iota;
      [| |exact I].
    + change (build env c2) with (@Exc Ctx unit (AttributeError "id") c2).
      cbv beta iota. unfold records_kept in *. cbn [world] in Hp.
      now rewrite Hp.
    + unfold records_kept in *. cbn [world] in Hp. now rewrite Hp.
Qed.
End PerformSingleBuild.

Section PerformSingleBuildExamples.
Import BuildNode.

Lemma perform_single_build_never_builds_witness :
  BuildRecord.pending_build_count (buildrecords (store lease_world)) <> 0%nat /\
  exists w',
    perform_single_build calm_env example_settings 5 lease_world
      = Exc (AttributeError "id") w' /\
    records_kept lease_world w'.
Proof.
  assert (Hn : BuildRecord.pending_build_count
                 (buildrecords (store lease_world)) <> 0%nat) by discriminate.
  split; [exact Hn|].
  destruct (perform_single_build_never_builds calm_env example_settings 5
              lease_world) as [_ H].
  specialize (H Hn).
  destruct (perform_single_build calm_env example_settings 5 lease_world)
    as [x w'|e w'|] eqn:E; [destruct H | | vm_compute in E; discriminate E].
  exists w'. split; [|exact H].
  vm_compute in E. injection E as <- _. reflexivity.
Defined.
End PerformSingleBuildExamples.

(** * The archive side *)

(** ** Series: where uploads go, and when the queue is flushed *)

Section SeriesUploads.


End SeriesUploads.

Section SeriesSave.
Variable env : Env.
Variable settings : SiteSettings.

Lemma series_super_save_unfold (c : Obj Series) :
  Series.super_save c =
    match model_save sr_id with_sr_id Series.clash (this c)
                     (series_table (site c)) with
    | Raise e => Exc e c
    | Ok saved => Ret tt {| this := fst saved;
                            site := set_series_table (snd saved) (site c) |}
    end.
Proof.
  unfold Series.super_save, bind, get_state, lift_result, modify.
  now destruct (model_save _ _ _ _ _).
Qed.

(** [save], statement by statement. *)
Lemma series_save_unfold (c : Obj Series) :
  Series.save env settings c =
    let n := List.length (history (base (site c))) in
    let self := this c in
    let c1 := site_called (WriteConfiguration (sr_name self)) c in
    match write_configuration env n (sr_name self) with
    | Raise e => Exc e c1
    | Ok _ =>
        if truthy_pk (sr_id self) then
          match Orm.get (fun r => same_id (sr_id r) (sr_id self))
                        (series_table (site c)) with
          | Raise e => Exc e c1
          | Ok old =>
              if (sr_state old =? SeriesState.FROZEN)
                 && (sr_state self =? SeriesState.ACTIVE)
              then
                match local_cmd env (S n)
                        ["reprepro"; "-b";
                         Repository.reprepro_dir settings (sr_repository self);
                         "pull"; (sr_name self ++ "-proposed")%string] None with
                | Raise e => Exc e (site_called (pull_call settings self) c1)
                | Ok _ => Series.super_save (site_called (pull_call settings self) c1)
                end
              else Series.super_save c1
          end
        else Series.super_save c1
    end.
Proof.
  unfold Series.save. unfold bind at 1. unfold get_state at 1. cbv beta iota zeta.
  unfold bind at 1. unfold in_site, in_base, Repository.write_configuration_of,
    BuildNode.ask.
  cbn [site base this set_site set_base].
  destruct (write_configuration env _ (sr_name (this c))) as [[]|e]; [|reflexivity].
  fold (site_called (WriteConfiguration (sr_name (this c))) c).
  set (c1 := site_called (WriteConfiguration (sr_name (this c))) c).
  destruct (truthy_pk (sr_id (this c))); [|reflexivity].
  unfold bind at 1. unfold bind at 1. unfold get_state at 1. cbv beta iota.
  unfold bind at 1. unfold lift_result.
  change (series_table (site c1)) with (series_table (site c)).
  destruct (Orm.get _ (series_table (site c))) as [old|e]; [|reflexivity].
  unfold ret at 1. cbv beta iota.
  destruct (sr_state old =? SeriesState.FROZEN) eqn:Ef;
    destruct (sr_state (this c) =? SeriesState.ACTIVE) eqn:Ea;
    destruct (sr_state old =? sr_state (this c)) eqn:Eq;
    cbn [negb andb]; try reflexivity.
  - apply Z.eqb_eq in Ef, Ea, Eq. rewrite Ef, Ea in Eq. discriminate.
  - unfold Series.flush_queue. unfold bind at 1. unfold bind at 1.
    unfold get_state at 1. cbv beta iota zeta.
    unfold bind at 1. erewrite log_fmt_ret by reflexivity. cbv beta iota.
    unfold in_site, in_base, Repository._reprepro,
      BuildNode.utils_run_cmd, BuildNode.ask.
    subst c1.
    cbn [site base this set_site set_base site_called history record_call app].
    rewrite length_app. cbn [List.length].
    replace (List.length (history (base (site c))) + 1)%nat
      with (S (List.length (history (base (site c))))) by lia.
    destruct (local_cmd env _ _ None) as [out|e]; reflexivity.
Qed.
Lemma series_super_save_ends (c : Obj Series) :
  match Series.super_save c with
  | Ret _ c' => base (site c') = base (site c)
  | Exc _ c' => c' = c
  | Diverge => False
  end.
Proof.
  rewrite series_super_save_unfold.
  now destruct (model_save _ _ _ _ _).
Qed.

(** The external calls of [save]: the configuration, and the flush when
    it is due. *)
Lemma series_save_calls (c : Obj Series) :
  let calls := WriteConfiguration (sr_name (this c))
               :: (if flushes env c then [pull_call settings (this c)] else []) in
  match Series.save env settings c with
  | Ret _ c' => calls_made c c' calls
  | Exc _ c' => calls_made c c' calls /\
                series_table (site c') = series_table (site c) /\
                this c' = this c
  | Diverge => False
  end.
Proof.
  cbv zeta. rewrite series_save_unfold. cbv zeta. unfold flushes, calls_made.
  assert (Hsuper : forall c1 calls,
             history (base (site c1)) = history (base (site c)) ++ calls ->
             series_table (site c1) = series_table (site c) ->
             this c1 = this c ->
             match Series.super_save c1 with
             | Ret _ c' => history (base (site c')) = history (base (site c)) ++ calls
             | Exc _ c' =>
                 history (base (site c')) = history (base (site c)) ++ calls /\
                 series_table (site c') = series_table (site c) /\
                 this c' = this c
             | Diverge => False
             end).
  { intros c1 calls Hh Ht Hthis. pose proof (series_super_save_ends c1) as H.
    destruct (Series.super_save c1) as [[] c'|e c'|]; [|subst c'|]; auto.
    now rewrite H. }
  destruct (write_configuration env _ (sr_name (this c))) as [[]|e];
    [|repeat split].
  destruct (truthy_pk (sr_id (this c))); cbn [andb];
    [|apply Hsuper; reflexivity].
  unfold Orm.get, stored_states.
  destruct (filter _ (series_table (site c))) as [|old [|r2 l]]; cbn [map];
    [repeat split| |repeat split].
  destruct ((sr_state old =? SeriesState.FROZEN)
            && (sr_state (this c) =? SeriesState.ACTIVE));
    [|apply Hsuper; reflexivity].
  destruct (local_cmd env _ _ None) as [out|e].
  - apply Hsuper; [|reflexivity|reflexivity].
    cbn. now rewrite <- app_assoc.
  - split; [|split; reflexivity]. cbn. now rewrite <- app_assoc.
Qed.

(** X14.  The queue of a series is flushed on the change from FROZEN to
    ACTIVE and on no other: [freeze] never runs reprepro, whatever the stored
    state; [unfreeze] runs "reprepro pull name-proposed" once, after the
    configuration has been written and before the row is, exactly when the
    object has been saved before and its stored row is FROZEN.  These are
    all the external calls of the two methods, whether they return or
    raise. *)
Theorem series_flush_only_on_unfreeze (c : Obj Series) :
  let name := sr_name (this c) in
  let thawed := set_this (with_sr_state SeriesState.ACTIVE (this c)) c in
  let flush := if flushes env thawed then [pull_call settings (this c)] else [] in
  match Series.freeze env settings c with
  | Ret _ c' => calls_made c c' [WriteConfiguration name]
  | Exc _ c' => calls_made c c' [WriteConfiguration name]
  | Diverge => False
  end /\
  match Series.unfreeze env settings c with
  | Ret _ c' => calls_made c c' (WriteConfiguration name :: flush)
  | Exc _ c' => calls_made c c' (WriteConfiguration name :: flush)
  | Diverge => False
  end.
Proof.
  cbv zeta. split.
  - pose proof (series_save_calls
                  (set_this (with_sr_state SeriesState.FROZEN (this c)) c)) as H.
    cbv zeta in H.
    assert (Hno : flushes env (set_this (with_sr_state SeriesState.FROZEN (this c)) c)
                  = false).
    { unfold flushes. destruct (write_configuration env _ _); [|reflexivity].
      destruct (truthy_pk _); [|reflexivity]. cbn [andb].
      destruct (stored_states _ _) as [|st [|st2 l]]; try reflexivity.
      cbn. apply andb_false_r. }
    rewrite Hno in H.
    change (Series.freeze env settings c)
      with (Series.save env settings
              (set_this (with_sr_state SeriesState.FROZEN (this c)) c)).
    destruct (Series.save env settings _) as [[] c'|e c'|]; [exact H| |exact H].
    destruct H as [H _]. exact H.
  - pose proof (series_save_calls
                  (set_this (with_sr_state SeriesState.ACTIVE (this c)) c)) as H.
    cbv zeta in H.
    change (Series.unfreeze env settings c)
      with (Series.save env settings
              (set_this (with_sr_state SeriesState.ACTIVE (this c)) c)).
    destruct (Series.save env settings _) as [[] c'|e c'|]; [exact H| |exact H].
    destruct H as [H _]. exact H.
Qed.

(** X15.  A state change that fails is not written: when [freeze] or
    [unfreeze] raises (the configuration cannot be written, the flush fails,
    the stored row is gone, the database refuses the row), the table of
    series is as it was, while the object in memory has the new state.  In
    particular the row of an object that was saved before and has since
    been deleted is not inserted again: [save] raises DoesNotExist. *)
Theorem series_failed_change_not_stored (c : Obj Series) :
  (forall e c', Series.freeze env settings c = Exc e c' ->
     series_table (site c') = series_table (site c) /\
     this c' = with_sr_state SeriesState.FROZEN (this c)) /\
  (forall e c', Series.unfreeze env settings c = Exc e c' ->
     series_table (site c') = series_table (site c) /\
     this c' = with_sr_state SeriesState.ACTIVE (this c)) /\
  (truthy_pk (sr_id (this c)) = true ->
   stored_states (sr_id (this c)) (series_table (site c)) = [] ->
   write_configuration env (List.length (history (base (site c))))
                       (sr_name (this c)) = Ok tt ->
   Series.save env settings c
   = Exc DoesNotExist (site_called (WriteConfiguration (sr_name (this c))) c)).
Proof.
  split; [|split].
  - intros e c' H.
    pose proof (series_save_calls
                  (set_this (with_sr_state SeriesState.FROZEN (this c)) c)) as Hs.
    cbv zeta in Hs.
    change (Series.freeze env settings c)
      with (Series.save env settings
              (set_this (with_sr_state SeriesState.FROZEN (this c)) c)) in H.
    rewrite H in Hs. destruct Hs as (_ & Ht & Hthis). auto.
  - intros e c' H.
    pose proof (series_save_calls
                  (set_this (with_sr_state SeriesState.ACTIVE (this c)) c)) as Hs.
    cbv zeta in Hs.
    change (Series.unfreeze env settings c)
      with (Series.save env settings
              (set_this (with_sr_state SeriesState.ACTIVE (this c)) c)) in H.
    rewrite H in Hs. destruct Hs as (_ & Ht & Hthis). auto.
  - intros Hpk Hgone Hwc. rewrite series_save_unfold. cbv zeta.
    rewrite Hwc, Hpk. unfold Orm.get. unfold stored_states in Hgone.
    apply map_eq_nil in Hgone. now rewrite Hgone.
Qed.
End SeriesSave.

Section SeriesRoundTrip.
Variable env : Env.
Variable settings : SiteSettings.

Lemma same_id_is o i : same_id o (Some i) = id_is i o.
Proof. destruct o as [j|]; [apply Z.eqb_sym | reflexivity]. Qed.

Lemma id_is_true i o : id_is i o = true -> o = Some i.
Proof.
  destruct o as [j|]; [|discriminate]. simpl. intros H.
  apply Z.eqb_eq in H. now subst.
Qed.

Lemma filter_none (A : Type) (p : A -> bool) (l : list A) :
  (forall x, In x l -> p x = false) -> filter p l = [].
Proof.
  induction l as [|x l IH]; intros H; [reflexivity|]. simpl.
  rewrite (H x) by now left. apply IH. intros; apply H; now right.
Qed.

Lemma map_unchanged (A : Type) (p : A -> bool) (y : A) (l : list A) :
  (forall x, In x l -> p x = false) ->
  map (fun r => if p r then y else r) l = l.
Proof.
  induction l as [|x l IH]; intros H; [reflexivity|]. simpl.
  rewrite (H x) by now left. f_equal. apply IH. intros; apply H; now right.
Qed.

(** [id] is the primary key: the table splits at the row of an object. *)
Lemma series_split rows x i :
  NoDup (map sr_id rows) -> In x rows -> sr_id x = Some i ->
  exists pre post,
    rows = pre ++ x :: post /\
    forall r, In r pre \/ In r post -> id_is i (sr_id r) = false.
Proof.
  intros Hnd Hin Hid. destruct (in_split _ _ Hin) as (pre & post & ->).
  exists pre, post. split; [reflexivity|]. intros r Hr.
  destruct (id_is i (sr_id r)) eqn:E; [|reflexivity]. exfalso.
  apply id_is_true in E. rewrite map_app in Hnd. cbn [map] in Hnd.
  apply NoDup_remove_2 in Hnd. apply Hnd. rewrite Hid, <- E.
  apply in_or_app. destruct Hr as [Hr|Hr]; [left|right]; now apply in_map.
Qed.

Lemma series_get_at pre x post i :
  sr_id x = Some i ->
  (forall r, In r pre \/ In r post -> id_is i (sr_id r) = false) ->
  Orm.get (fun r => same_id (sr_id r) (Some i)) (pre ++ x :: post) = Ok x.
Proof.
  intros Hid Hothers. unfold Orm.get. rewrite filter_app. cbn [filter].
  rewrite same_id_is, Hid. cbn [id_is]. rewrite Z.eqb_refl.
  rewrite !filter_none; [reflexivity| |];
    intros r Hr; rewrite same_id_is; apply Hothers; auto.
Qed.

Lemma series_save_at pre x post obj i :
  sr_id x = Some i ->
  (forall r, In r pre \/ In r post -> id_is i (sr_id r) = false) ->
  Orm.save (fun r => id_is i (sr_id r)) obj (pre ++ x :: post)
  = pre ++ obj :: post.
Proof.
  intros Hid Hothers. unfold Orm.save.
  assert (Hx : id_is i (sr_id x) = true) by (rewrite Hid; apply Z.eqb_refl).
  assert (E : existsb (fun r => id_is i (sr_id r)) (pre ++ x :: post) = true).
  { apply existsb_exists. exists x. split; [|exact Hx].
    apply in_or_app. right. now left. }
  rewrite E, update_as_map, map_app. cbn [map]. rewrite Hx.
  rewrite !map_unchanged; [reflexivity| |]; intros r Hr; apply Hothers; auto.
Qed.

Lemma series_no_clash obj rows :
  unique_in obj rows ->
  existsb (fun r => negb (same_id (sr_id r) (sr_id obj)) && Series.clash r obj) rows
  = false.
Proof.
  intros Hu. destruct (existsb _ rows) eqn:E; [|reflexivity].
  apply existsb_exists in E. destruct E as (r & Hr & H).
  apply andb_prop in H. destruct H as [Hid Hc].
  apply negb_true_iff in Hid. now rewrite (Hu r Hr Hid) in Hc.
Qed.

(** One [save] of an object whose row is stored, when the external calls
    succeed: the row is replaced by the object. *)
Lemma series_save_stored (c : Obj Series) i x pre post :
  let n := List.length (history (base (site c))) in
  let self := this c in
  let wc := WriteConfiguration (sr_name self) in
  let flush := (sr_state x =? SeriesState.FROZEN)
               && (sr_state self =? SeriesState.ACTIVE) in
  sr_id self = Some i -> i <> 0 ->
  series_table (site c) = pre ++ x :: post ->
  sr_id x = Some i ->
  (forall r, In r pre \/ In r post -> id_is i (sr_id r) = false) ->
  unique_in self (series_table (site c)) ->
  write_configuration env n (sr_name self) = Ok tt ->
  (flush = true ->
   exists out, local_cmd env (S n)
                 ["reprepro"; "-b";
                  Repository.reprepro_dir settings (sr_repository self);
                  "pull"; (sr_name self ++ "-proposed")%string] None = Ok out) ->
  Series.save env settings c =
    Ret tt {| this := self;
              site := set_series_table (pre ++ self :: post)
                        (site (if flush
                               then site_called (pull_call settings self)
                                                (site_called wc c)
                               else site_called wc c)) |}.
Proof.
  intros n self wc flush Hid Hi Hrows Hx Hothers Hu Hwc Hpull.
  subst n self wc flush. rewrite series_save_unfold. cbv zeta.
  rewrite Hwc, Hid. cbn [truthy_pk].
  destruct (i =? 0) eqn:Ei; [apply Z.eqb_eq in Ei; congruence|]. cbn [negb].
  rewrite Hrows, (series_get_at pre x post i Hx Hothers).
  assert (Hsave : forall c1,
             this c1 = this c -> series_table (site c1) = pre ++ x :: post ->
             Series.super_save c1 =
               Ret tt {| this := this c;
                         site := set_series_table (pre ++ this c :: post)
                                                  (site c1) |}).
  { intros c1 Hthis Ht. rewrite series_super_save_unfold. unfold model_save.
    rewrite Hthis, Ht, <- Hrows, (series_no_clash _ _ Hu), Hid, Hrows.
    now rewrite (series_save_at pre x post (this c) i Hx Hothers). }
  destruct ((sr_state x =? SeriesState.FROZEN)
            && (sr_state (this c) =? SeriesState.ACTIVE)).
  - destruct (Hpull eq_refl) as (out & ->). apply Hsave; [reflexivity|exact Hrows].
  - apply Hsave; [reflexivity|exact Hrows].
Qed.
Lemma with_sr_state_back st st' (s : Series) :
  sr_state s = st -> with_sr_state st (with_sr_state st' s) = s.
Proof. intros <-. now destruct s. Qed.

(** X16.  Freezing and then unfreezing a stored, active series brings it
    back: when the external calls succeed, the table of series and the
    object are what they were, the configuration has been written twice,
    and the queue has been flushed exactly once, by the unfreeze. *)
Theorem series_freeze_unfreeze_round_trip (c : Obj Series) (i : Z) :
  let n := List.length (history (base (site c))) in
  let self := this c in
  let wc := WriteConfiguration (sr_name self) in
  sr_id self = Some i -> i <> 0 ->
  sr_state self = SeriesState.ACTIVE ->
  In self (series_table (site c)) ->
  NoDup (map sr_id (series_table (site c))) ->
  unique_in self (series_table (site c)) ->
  write_configuration env n (sr_name self) = Ok tt ->
  write_configuration env (S n) (sr_name self) = Ok tt ->
  (exists out,
     local_cmd env (S (S n))
       ["reprepro"; "-b"; Repository.reprepro_dir settings (sr_repository self);
        "pull"; (sr_name self ++ "-proposed")%string] None = Ok out) ->
  exists c',
    bind (Series.freeze env settings) (fun _ => Series.unfreeze env settings) c
      = Ret tt c' /\
    this c' = self /\
    series_table (site c') = series_table (site c) /\
    calls_made c c' [wc; wc; pull_call settings self].
Proof.
  intros n self wc Hid Hi Hactive Hin Hnd Hu Hwc1 Hwc2 Hpull.
  destruct (series_split _ self i Hnd Hin Hid) as (pre & post & Hrows & Hothers).
  set (frozen := with_sr_state SeriesState.FROZEN self).
  (* the freeze *)
  assert (Hfreeze :
            Series.freeze env settings c =
              Ret tt {| this := frozen;
                        site := set_series_table (pre ++ frozen :: post)
                                  (site (site_called wc (set_this frozen c))) |}).
  { change (Series.freeze env settings c)
      with (Series.save env settings (set_this frozen c)).
    rewrite (series_save_stored (set_this frozen c) i self pre post);
      try assumption; try reflexivity.
    - cbv zeta. rewrite Hactive. reflexivity.
    - cbv zeta. rewrite Hactive. discriminate. }
  unfold bind. rewrite Hfreeze.
  set (c2 := {| this := frozen;
                site := set_series_table (pre ++ frozen :: post)
                          (site (site_called wc (set_this frozen c))) |}).
  (* the unfreeze *)
  assert (Hlen : List.length (history (base (site (set_this self c2)))) = S n).
  { subst c2 n. cbn. rewrite length_app. simpl. lia. }
  assert (Hu2 : unique_in self (pre ++ frozen :: post)).
  { intros r Hr Hne. apply in_app_or in Hr. destruct Hr as [Hr|[<-|Hr]].
    - apply Hu; [rewrite Hrows; apply in_or_app; now left | exact Hne].
    - subst frozen. cbn [sr_id with_sr_state] in Hne. rewrite Hid in Hne.
      cbn in Hne. rewrite Z.eqb_refl in Hne. discriminate.
    - apply Hu; [rewrite Hrows; apply in_or_app; right; now right | exact Hne]. }
  assert (Hthaw : with_sr_state SeriesState.ACTIVE frozen = self)
    by (apply with_sr_state_back; exact Hactive).
  change (Series.unfreeze env settings c2)
    with (Series.save env settings
            (set_this (with_sr_state SeriesState.ACTIVE frozen) c2)).
  rewrite Hthaw.
  rewrite (series_save_stored (set_this self c2) i frozen pre post);
    try assumption; try reflexivity.
  - cbv zeta. cbn [this set_this]. subst frozen. cbn [sr_state with_sr_state].
    rewrite Hactive. cbn [Z.eqb andb].
    change ((SeriesState.FROZEN =? SeriesState.FROZEN)
            && (SeriesState.ACTIVE =? SeriesState.ACTIVE)) with true.
    cbv iota. eexists. split; [reflexivity|]. split; [reflexivity|].
    split; [cbn; now rewrite Hrows|].
    unfold calls_made. subst c2. cbn. now rewrite <- !app_assoc.
  - rewrite Hlen. exact Hwc2.
  - intros _. rewrite Hlen. exact Hpull.
Qed.
End SeriesRoundTrip.

Section SeriesExamples.

Lemma series_failed_change_not_stored_witness :
  exists c',
    Series.unfreeze delete_once_env example_site_settings frozen_obj
      = Exc (ExternalError "CommandFailed") c' /\
    series_table (site c') = [frozen_series] /\
    sr_state (this c') = SeriesState.ACTIVE.
Proof.
  destruct (Series.unfreeze delete_once_env example_site_settings frozen_obj)
    as [x c'|e c'|] eqn:E; try discriminate E.
  assert (He : e = ExternalError "CommandFailed")
    by (vm_compute in E; congruence).
  subst e. exists c'. split; [reflexivity|].
  destruct (series_failed_change_not_stored delete_once_env example_site_settings
              frozen_obj) as (_ & Hun & _).
  destruct (Hun _ _ E) as [Ht Hthis]. split; [exact Ht|].
  rewrite Hthis. reflexivity.
Defined.

Lemma series_freeze_unfreeze_round_trip_witness :
  exists c',
    bind (Series.freeze calm_env example_site_settings)
         (fun _ => Series.unfreeze calm_env example_site_settings) active_obj
      = Ret tt c' /\
    this c' = example_series /\
    series_table (site c') = [example_series] /\
    history (base (site c')) =
      [WriteConfiguration "folsom"; WriteConfiguration "folsom";
       LocalCmd ["reprepro"; "-b"; "/srv/repos/cisco"; "pull"; "folsom-proposed"]
                None].
Proof.
  assert (Hnd : NoDup (map sr_id (series_table (site active_obj)))).
  { simpl. repeat constructor. intros []. }
  assert (Hu : unique_in (this active_obj) (series_table (site active_obj))).
  { intros r [<-|[]] H. discriminate H. }
  destruct (series_freeze_unfreeze_round_trip calm_env example_site_settings
              active_obj 7 eq_refl ltac:(discriminate) eq_refl
              (or_introl eq_refl) Hnd Hu eq_refl eq_refl
              (ex_intro _ [] eq_refl))
    as (c' & Hrun & Hthis & Ht & Hcalls).
  exists c'. split; [exact Hrun|]. split; [exact Hthis|]. split; [exact Ht|].
  exact Hcalls.
Defined.
End SeriesExamples.

(** ** Series.get_source_packages: reading a listing *)

Section PackageListings.

Lemma split_cons_sep sep (a rest : bytes) :
  ~ In sep a -> Py.split sep (a ++ sep :: rest) = a :: Py.split sep rest.
Proof.
  induction a as [|c a IH]; intros Hno.
  - cbn [app Py.split]. now rewrite Ascii.eqb_refl.
  - cbn [app Py.split].
    destruct (Ascii.eqb c sep) eqn:Ec.
    + apply Ascii.eqb_eq in Ec. subst c. exfalso. apply Hno. now left.
    + rewrite IH by (intros H; apply Hno; now right). reflexivity.
Qed.

Lemma split_one sep (a : bytes) : ~ In sep a -> Py.split sep a = [a].
Proof.
  induction a as [|c a IH]; intros Hno; [reflexivity|].
  cbn [Py.split]. destruct (Ascii.eqb c sep) eqn:Ec.
  - apply Ascii.eqb_eq in Ec. subst c. exfalso. apply Hno. now left.
  - rewrite IH by (intros H; apply Hno; now right). reflexivity.
Qed.

Lemma lstrip_nil (s : bytes) :
  PyText.lstrip s = [] -> forall c, In c s -> PyText.is_space c = true.
Proof.
  induction s as [|x s IH]; intros H c Hc; [destruct Hc|].
  cbn [PyText.lstrip] in H. destruct (PyText.is_space x) eqn:Ex; [|discriminate].
  destruct Hc as [<-|Hc]; [exact Ex | now apply IH].
Qed.

Lemma lstrip_suffix (s : bytes) :
  forall c, In c (PyText.lstrip s) -> In c s.
Proof.
  induction s as [|x s IH]; intros c Hc; [exact Hc|].
  cbn [PyText.lstrip] in Hc. destruct (PyText.is_space x); [right; auto | exact Hc].
Qed.

Lemma lstrip_head (s : bytes) :
  match PyText.lstrip s with
  | [] => True
  | x :: _ => PyText.is_space x = false
  end.
Proof.
  induction s as [|x s IH]; [exact I|].
  cbn [PyText.lstrip]. destruct (PyText.is_space x) eqn:Ex; [exact IH | exact Ex].
Qed.

(** [l.strip() == ''] holds of the lines made of white space only. *)
Lemma strip_nil (s : bytes) :
  PyText.strip s = [] -> forall c, In c s -> PyText.is_space c = true.
Proof.
  unfold PyText.strip, PyText.rstrip. intros H.
  assert (H1 : PyText.lstrip (rev (PyText.lstrip s)) = []).
  { destruct (PyText.lstrip (rev (PyText.lstrip s))) as [|x l]; [reflexivity|].
    simpl in H. now destruct (rev l). }
  assert (H2 : PyText.lstrip s = []).
  { pose proof (lstrip_head s) as Hh. pose proof (lstrip_nil _ H1) as Hall.
    destruct (PyText.lstrip s) as [|x l]; [reflexivity|].
    rewrite (Hall x) in Hh; [discriminate|]. apply in_rev. rewrite rev_involutive.
    now left. }
  now apply lstrip_nil.
Qed.

Lemma get_pkglist_lines_sound (pkglist : bytes) (lines : list bytes) :
  match Series.get_pkglist_lines pkglist lines with
  | Ok entries =>
      Forall2 (fun l e => exists first, Py.split " " l = [first; fst e; snd e])
              (filter nonblank lines) entries
  | Raise e => exists msg, e = ValueError msg
  end.
Proof.
  induction lines as [|l lines IH]; [constructor|].
  cbn [Series.get_pkglist_lines filter]. unfold nonblank at 1.
  destruct (PyText.strip l) as [|x s]; [exact IH|].
  pose proof (split_nonempty ":" pkglist) as Hne.
  unfold Py.index. destruct (Py.split ":" pkglist) as [|repo_info parts];
    [congruence|]. cbn [nth_error].
  destruct (PyText.unpack3 (Py.split "|" repo_info)) as [fields|e] eqn:E3.
  2:{ unfold PyText.unpack3, PyText.unpack_error in E3.
      destruct (Py.split "|" repo_info) as [|f1 [|f2 [|f3 [|f4 fs]]]];
        try discriminate; injection E3 as <-; eauto. }
  pose proof (split_nonempty " " l) as Hne2.
  destruct (Py.split " " l) as [|first ws] eqn:Es; [congruence|]. cbn [tl].
  destruct (PyText.unpack2 ws) as [[name version]|e] eqn:E2.
  2:{ unfold PyText.unpack2, PyText.unpack_error in E2.
      destruct ws as [|w1 [|w2 [|w3 ws]]];
        try discriminate; injection E2 as <-; eauto. }
  destruct (Series.get_pkglist_lines pkglist lines) as [entries|e]; [|exact IH].
  constructor; [|exact IH]. exists first. cbn [fst snd].
  unfold PyText.unpack2 in E2. destruct ws as [|w1 [|w2 [|w3 ws]]];
    try discriminate. injection E2 as <- <-. exact Es.
Qed.
(** X17.  [get_pkglist] reads one package from every line of the listing
    that is not blank, in order: the line has exactly three words separated
    by single spaces, and the package is the second and the third.  The only
    exception it raises is the ValueError of an unpacking that does not fit:
    a line with another number of words, or a listing whose text before the
    first colon does not have three fields. *)
Theorem get_pkglist_reads_nonblank_lines (pkglist : bytes) :
  match Series.get_pkglist pkglist with
  | Ok entries =>
      Forall2 (fun l e => exists first, Py.split " " l = [first; fst e; snd e])
              (filter nonblank (Py.split Py.newline pkglist)) entries
  | Raise e => exists msg, e = ValueError msg
  end.
Proof. apply get_pkglist_lines_sound. Qed.

Lemma not_in_app (A : Type) (x : A) (l1 l2 : list A) :
  ~ In x l1 -> ~ In x l2 -> ~ In x (l1 ++ l2).
Proof. intros H1 H2 H. apply in_app_or in H. tauto. Qed.

Lemma listing_line_split (prefix name version : bytes) :
  word prefix -> word name -> word version ->
  Py.split " " (listing_line (prefix, name, version))
  = [prefix ++ [":"%char]; name; version] /\
  ~ In Py.newline (listing_line (prefix, name, version)) /\
  nonblank (listing_line (prefix, name, version)) = true.
Proof.
  intros [Hp1 Hp2] [Hn1 Hn2] [Hv1 Hv2]. unfold listing_line.
  change (b ": ") with ([":"%char] ++ [" "%char]).
  change (b " ") with [" "%char].
  split; [|split].
  - replace (prefix ++ ([":"%char] ++ [" "%char]) ++ name ++ [" "%char] ++ version)
      with ((prefix ++ [":"%char]) ++ " "%char :: name ++ " "%char :: version)
      by (rewrite <- !app_assoc; reflexivity).
    rewrite split_cons_sep, split_cons_sep, split_one; auto.
    apply not_in_app; [exact Hp1|]. intros [H|[]]. discriminate H.
  - repeat apply not_in_app; auto; intros H; cbn in H;
      repeat (destruct H as [H|H]; [discriminate H|]); exact H.
  - unfold nonblank.
    destruct (PyText.strip _) as [|x s] eqn:E; [|reflexivity].
    pose proof (strip_nil _ E ":"%char) as H.
    assert (Hs : PyText.is_space ":" = true);
      [|vm_compute in Hs; discriminate Hs].
    apply H. apply in_or_app. right. apply in_or_app. left. now left.
Qed.
Lemma listing_cons e entries :
  listing (e :: entries) = listing_line e ++ Py.newline :: listing entries.
Proof. unfold listing. cbn [map List.concat]. now rewrite <- app_assoc. Qed.

Lemma listing_lines_read (pkglist : bytes) (entries : list (bytes * bytes * bytes)) :
  Forall words entries ->
  (entries <> [] ->
   exists f1 f2 f3, Py.split "|" (hd [] (Py.split ":" pkglist)) = [f1; f2; f3]) ->
  Series.get_pkglist_lines pkglist (Py.split Py.newline (listing entries))
  = Ok (map (fun e => (snd (fst e), snd e)) entries).
Proof.
  intros Hwords Hprefix. induction Hwords as [|[[prefix name] version] entries Hw _ IH].
  - reflexivity.
  - destruct Hw as (Hp & Hn & Hv).
    destruct (listing_line_split prefix name version Hp Hn Hv) as (Hs & Hnl & Hnb).
    rewrite listing_cons, split_cons_sep by exact Hnl.
    cbn [Series.get_pkglist_lines map fst snd].
    unfold nonblank in Hnb.
    destruct (PyText.strip (listing_line (prefix, name, version))) as [|x s];
      [discriminate|].
    destruct (Hprefix ltac:(discriminate)) as (f1 & f2 & f3 & Hf).
    pose proof (split_nonempty ":" pkglist) as Hne.
    unfold Py.index. destruct (Py.split ":" pkglist) as [|repo_info parts];
      [congruence|]. cbn [nth_error hd] in *. rewrite Hf. cbn [PyText.unpack3].
    rewrite Hs. cbn [tl PyText.unpack2].
    rewrite IH; [reflexivity|]. intros _. eauto.
Qed.

(** X18.  A listing as reprepro prints it is read back in full: for lines
    "prefix: name version" made of words, ended by newlines, where the prefix
    of the first line has three fields separated by bars and no colon,
    [get_pkglist] yields the name and the version of every line, in order.
    Only the prefix of the first line is looked at; the prefixes of the
    other lines may be anything. *)
Theorem get_pkglist_round_trip (entries : list (bytes * bytes * bytes)) :
  Forall words entries ->
  first_prefix_ok entries ->
  Series.get_pkglist (listing entries)
  = Ok (map (fun e => (snd (fst e), snd e)) entries).
Proof.
  intros Hwords Hfirst. unfold Series.get_pkglist.
  apply listing_lines_read; [exact Hwords|].
  intros Hne. destruct entries as [|[[prefix name] version] entries]; [congruence|].
  destruct Hfirst as [Hcolon Hlen].
  rewrite listing_cons. unfold listing_line.
  change (b ": ") with (":"%char :: [" "%char]).
  rewrite <- !app_assoc. cbn [app].
  rewrite split_cons_sep by exact Hcolon. cbn [hd].
  destruct (Py.split "|" prefix) as [|f1 [|f2 [|f3 [|f4 fs]]]]; try discriminate.
  eauto.
Qed.

Lemma get_pkglist_round_trip_witness :
  Forall words example_listing /\
  first_prefix_ok example_listing /\
  Series.get_pkglist (listing example_listing)
  = Ok [(b "nova", b "2012.2-1"); (b "glance", b "2012.2-3");
        (b "nova", b "2012.2-2")].
Proof.
  assert (Hw : Forall words example_listing).
  { unfold example_listing, words, word. repeat constructor;
      intros H; cbn in H;
      repeat (destruct H as [H|H]; [discriminate H|]); exact H. }
  assert (Hf : first_prefix_ok example_listing).
  { split; [|reflexivity]. intros H; cbn in H.
    repeat (destruct H as [H|H]; [discriminate H|]). exact H. }
  split; [exact Hw|]. split; [exact Hf|].
  exact (get_pkglist_round_trip example_listing Hw Hf).
Defined.
End PackageListings.

Section SourcePackages.
Variable env : Env.
Variable settings : SiteSettings.

Lemma bytes_eqb_eq (x y : bytes) : Series.bytes_eqb x y = true <-> x = y.
Proof.
  unfold Series.bytes_eqb. rewrite String.eqb_eq. split; [|now intros ->].
  intros H. rewrite <- (list_ascii_of_string_of_list_ascii x),
              <- (list_ascii_of_string_of_list_ascii y). now rewrite H.
Qed.

Lemma dict_get_set (k n v : bytes) (d : list (bytes * bytes)) :
  PyText.dict_get Series.bytes_eqb n (PyText.dict_set Series.bytes_eqb k v d)
  = if Series.bytes_eqb k n then Some v
    else PyText.dict_get Series.bytes_eqb n d.
Proof.
  induction d as [|[k' v'] d IH]; [reflexivity|].
  cbn [PyText.dict_set PyText.dict_get].
  destruct (Series.bytes_eqb k' k) eqn:Ek.
  - apply bytes_eqb_eq in Ek. subst k'. cbn [PyText.dict_get].
    now destruct (Series.bytes_eqb k n).
  - cbn [PyText.dict_get]. rewrite IH.
    destruct (Series.bytes_eqb k' n) eqn:En; [|reflexivity].
    apply bytes_eqb_eq in En. subst k'.
    destruct (Series.bytes_eqb k n) eqn:Ekn; [|reflexivity].
    apply bytes_eqb_eq in Ekn. subst k.
    assert (H : Series.bytes_eqb n n = true) by now apply bytes_eqb_eq.
    congruence.
Qed.

Lemma find_app (A : Type) (p : A -> bool) (l1 l2 : list A) :
  find p (l1 ++ l2) = match find p l1 with
                      | Some x => Some x
                      | None => find p l2
                      end.
Proof.
  induction l1 as [|x l1 IH]; [reflexivity|]. simpl. now destruct (p x).
Qed.

Lemma fill_from (name : bytes) (entries : list (bytes * bytes)) :
  forall d,
    PyText.dict_get Series.bytes_eqb name
      (fold_left (fun d e => PyText.dict_set Series.bytes_eqb (fst e) (snd e) d)
                 entries d)
    = match last_version name entries with
      | Some v => Some v
      | None => PyText.dict_get Series.bytes_eqb name d
      end.
Proof.
  unfold last_version. induction entries as [|e entries IH]; intros d;
    [reflexivity|].
  cbn [fold_left rev]. rewrite IH, find_app. cbn [find].
  destruct (find _ (rev entries)) as [e'|]; [reflexivity|].
  rewrite dict_get_set. now destruct (Series.bytes_eqb (fst e) name).
Qed.

Lemma string_append_nil (s : string) : (s ++ "")%string = s.
Proof. induction s as [|c s IH]; simpl; [reflexivity | now rewrite IH]. Qed.

Lemma collect_packages_step self fmt key kinds pkgs w distribution pkglist es :
  Py.format fmt [sr_name self] = Ok distribution ->
  local_cmd env (List.length (history w)) (list_argv settings self distribution) None
    = Ok pkglist ->
  Series.get_pkglist pkglist = Ok es ->
  Series.collect_packages env settings self ((fmt, key) :: kinds) pkgs w
  = Series.collect_packages env settings self kinds
      (PyText.dict_set String.eqb key (Series.fill es) pkgs)
      (record_call (LocalCmd (list_argv settings self distribution) None) w).
Proof.
  intros Hf Hc Hp. cbn [Series.collect_packages]. unfold bind at 1.
  rewrite Hf. cbn [lift_result]. unfold ret at 1. unfold bind at 1.
  unfold Repository._reprepro, BuildNode.utils_run_cmd, BuildNode.ask.
  unfold list_argv in Hc. cbn [app]. rewrite Hc.
  unfold bind at 1. rewrite Hp. reflexivity.
Qed.

(** X19.  [get_source_packages] lists the stable, the proposed and the
    queued distribution of the series, in this order, and gives one
    dictionary for each; in a dictionary a package has the version of the
    last line of the listing that names it. *)
Theorem get_source_packages_last_version_wins (c : Obj Series)
        (p1 p2 p3 : bytes) (es1 es2 es3 : list (bytes * bytes)) :
  let n := List.length (history (base (site c))) in
  let self := this c in
  let a1 := list_argv settings self (sr_name self) in
  let a2 := list_argv settings self (sr_name self ++ "-proposed")%string in
  let a3 := list_argv settings self (sr_name self ++ "-queued")%string in
  local_cmd env n a1 None = Ok p1 -> Series.get_pkglist p1 = Ok es1 ->
  local_cmd env (S n) a2 None = Ok p2 -> Series.get_pkglist p2 = Ok es2 ->
  local_cmd env (S (S n)) a3 None = Ok p3 -> Series.get_pkglist p3 = Ok es3 ->
  exists c',
    Series.get_source_packages env settings c
    = Ret [("stable", Series.fill es1); ("proposed", Series.fill es2);
           ("queued", Series.fill es3)] c' /\
    history (base (site c')) =
      history (base (site c)) ++ [LocalCmd a1 None; LocalCmd a2 None; LocalCmd a3 None] /\
    forall name es,
      PyText.dict_get Series.bytes_eqb name (Series.fill es) = last_version name es.
Proof.
  intros n self a1 a2 a3 H1 E1 H2 E2 H3 E3.
  unfold Series.get_source_packages, bind at 1, get_state. cbv beta iota.
  unfold in_site, in_base. fold self.
  rewrite (collect_packages_step self "%s" "stable" _ _ _ (sr_name self) p1 es1);
    [|cbn; now rewrite string_append_nil|exact H1|exact E1].
  rewrite (collect_packages_step self "%s-proposed" "proposed" _ _ _
             (sr_name self ++ "-proposed")%string p2 es2);
    [|reflexivity| |exact E2].
  2:{ cbn [history record_call]. rewrite length_app. cbn [List.length].
      rewrite Nat.add_1_r. exact H2. }
  rewrite (collect_packages_step self "%s-queued" "queued" _ _ _
             (sr_name self ++ "-queued")%string p3 es3);
    [|reflexivity| |exact E3].
  2:{ cbn [history record_call]. rewrite !length_app. cbn [List.length].
      rewrite !Nat.add_1_r. exact H3. }
  cbn [Series.collect_packages]. unfold ret.
  eexists. split; [reflexivity|]. split.
  - cbn. now rewrite <- !app_assoc.
  - intros name es. unfold Series.fill. rewrite fill_from.
    now destruct (last_version name es).
Qed.
End SourcePackages.

Section SourcePackagesExamples.

Lemma get_source_packages_last_version_wins_witness :
  Series.get_pkglist (listing example_listing)
  = Ok [(b "nova", b "2012.2-1"); (b "glance", b "2012.2-3");
        (b "nova", b "2012.2-2")] /\
  exists pkgs c',
    Series.get_source_packages listing_env example_site_settings active_obj
    = Ret pkgs c' /\
    option_map (PyText.dict_get Series.bytes_eqb (b "nova"))
               (PyText.dict_get String.eqb "stable" pkgs)
    = Some (Some (b "2012.2-2")).
Proof.
  assert (E : Series.get_pkglist (listing example_listing)
              = Ok [(b "nova", b "2012.2-1"); (b "glance", b "2012.2-3");
                    (b "nova", b "2012.2-2")]) by reflexivity.
  split; [exact E|].
  destruct (get_source_packages_last_version_wins listing_env
              example_site_settings active_obj _ _ _ _ _ _
              eq_refl E eq_refl E eq_refl E) as (c' & Hrun & _ & Hlast).
  do 2 eexists. split; [exact Hrun|].
  cbn [PyText.dict_get String.eqb Ascii.eqb Bool.eqb option_map].
  rewrite Hlast. reflexivity.
Defined.
End SourcePackagesExamples.

(** ** Key export and revision lookup *)

Section Occurrences.

Lemma startswith_prefix (p post : bytes) : Py.startswith (p ++ post) p = true.
Proof.
  induction p as [|c p IH]; [now destruct post|].
  cbn [app Py.startswith]. now rewrite Ascii.eqb_refl, IH.
Qed.

(** [sub in s] is true of the strings in which [sub] occurs. *)
Lemma contains_occurs (sub s : bytes) :
  PyText.contains sub s = true <-> occurs sub s.
Proof.
  split.
  - induction s as [|c s IH]; cbn [PyText.contains]; intros H.
    + destruct sub as [|x sub]; [|discriminate]. now exists [], [].
    + apply orb_prop in H. destruct H as [H|H].
      * apply startswith_app in H. exists [], (skipn (List.length sub) (c :: s)).
        exact H.
      * destruct (IH H) as (pre & post & ->). now exists (c :: pre), post.
  - intros (pre & post & ->). induction pre as [|c pre IH].
    + cbn [app]. pose proof (startswith_prefix sub post) as H.
      destruct (sub ++ post) as [|x l] eqn:E; cbn [PyText.contains];
        [exact H | now rewrite H].
    + cbn [app PyText.contains]. rewrite IH. apply orb_true_r.
Qed.

Lemma contains_char (c : ascii) (s : bytes) :
  PyText.contains [c] s = true <-> In c s.
Proof.
  rewrite contains_occurs. split.
  - intros (pre & post & ->). apply in_or_app. right. now left.
  - intros H. apply in_split in H. destruct H as (pre & post & ->).
    now exists pre, post.
Qed.

Lemma contains_false (sub s : bytes) :
  PyText.contains sub s = false <-> ~ occurs sub s.
Proof.
  rewrite <- contains_occurs. now destruct (PyText.contains sub s).
Qed.
End Occurrences.

Section KeyExport.
Variable env : Env.

End KeyExport.

Section RevisionLookup.
Variable env : Env.

Lemma guess_cases (url : string) :
  PackageSource._guess_vcs_type url =
    if PyText.contains (b "launchpad") (b url) then Ok "bzr"
    else if PyText.contains (b "github") (b url) then Ok "git"
    else Raise (PyException ("No idea what to do with "
                             ++ string_of_list_ascii (PyText.repr (b url)))).
Proof. reflexivity. Qed.

Lemma first_line (out : bytes) :
  Py.index (Py.split Py.newline out) 0 = Ok (hd [] (Py.split Py.newline out)).
Proof.
  pose proof (split_nonempty Py.newline out) as H.
  now destruct (Py.split Py.newline out).
Qed.

Lemma first_word sep (line : bytes) :
  Py.index (Py.split sep line) 0 = Ok (hd [] (Py.split sep line)).
Proof.
  pose proof (split_nonempty sep line) as H.
  now destruct (Py.split sep line).
Qed.

Lemma lookup_revision_unfold (url : string) (w : World) :
  PackageSource.lookup_revision env url w =
    match PackageSource._guess_vcs_type url with
    | Raise e => Exc e w
    | Ok vcstype =>
        if String.eqb vcstype "bzr" then
          let argv := ["bzr"; "revision-info"; "-d"; url] in
          let w1 := record_call (LocalCmd argv None) w in
          match local_cmd env (List.length (history w)) argv None with
          | Raise e => Exc e w1
          | Ok out =>
              match Py.index (Py.split " " (hd [] (Py.split Py.newline out))) 1 with
              | Raise e => Exc e w1
              | Ok revision => Ret (Some (string_of_list_ascii revision)) w1
              end
          end
        else if String.eqb vcstype "git" then
          match (if PyText.contains (b "#") (b url)
                 then PyText.unpack2 (Py.split "#" (b url))
                 else Ok (b url, b "master")) with
          | Raise e => Exc e w
          | Ok url_branch =>
              let argv := ["git"; "ls-remote";
                           string_of_list_ascii (fst url_branch);
                           string_of_list_ascii (snd url_branch)] in
              let w1 := record_call (LocalCmd argv None) w in
              match local_cmd env (List.length (history w)) argv None with
              | Raise e => Exc e w1
              | Ok out =>
                  Ret (Some (string_of_list_ascii
                               (first_field PackageSource.tab out))) w1
              end
          end
        else Ret None w
    end.
Proof.
  unfold PackageSource.lookup_revision. unfold bind at 1.
  erewrite log_fmt_ret by reflexivity. cbv beta iota.
  unfold bind at 1.
  destruct (PackageSource._guess_vcs_type url) as [vcstype|e]; [|reflexivity].
  cbn [lift_result]. unfold ret at 1.
  destruct (String.eqb vcstype "bzr").
  - unfold bind at 1. unfold BuildNode.utils_run_cmd, BuildNode.ask. cbv zeta.
    destruct (local_cmd env _ _ None) as [out|e]; [|reflexivity].
    unfold bind at 1. rewrite first_line. cbn [lift_result]. unfold ret at 1.
    unfold bind at 1.
    destruct (Py.index (Py.split " " _) 1) as [revision|e]; reflexivity.
  - destruct (String.eqb vcstype "git"); [|reflexivity].
    unfold bind at 1.
    assert (Hsel : (if PyText.contains (b "#") (b url)
                    then lift_result (PyText.unpack2 (Py.split "#" (b url)))
                    else ret (b url, b "master")) w
                   = match (if PyText.contains (b "#") (b url)
                            then PyText.unpack2 (Py.split "#" (b url))
                            else Ok (b url, b "master")) with
                     | Ok x => Ret x w
                     | Raise e => Exc e w
                     end).
    { destruct (PyText.contains (b "#") (b url)); [|reflexivity].
      now destruct (PyText.unpack2 _). }
    rewrite Hsel. clear Hsel.
    destruct (if PyText.contains (b "#") (b url) then _ else _)
      as [url_branch|e]; [|reflexivity].
    unfold bind at 1. unfold BuildNode.utils_run_cmd, BuildNode.ask. cbv zeta.
    destruct (local_cmd env _ _ None) as [out|e]; [|reflexivity].
    unfold bind at 1. rewrite first_line. cbn [lift_result]. unfold ret at 1.
    unfold bind at 1. rewrite first_word. reflexivity.
Qed.

(** X21.  The version control system is told from the url: bzr when
    "launchpad" occurs in it, also when "github" occurs as well; git when
    "github" occurs and "launchpad" does not; for any other url
    [lookup_revision] raises before it runs any command.  A call of
    [lookup_revision] never returns None. *)
Theorem lookup_revision_by_host (url : string) (w : World) :
  (PackageSource._guess_vcs_type url = Ok "bzr" <-> occurs (b "launchpad") (b url)) /\
  (PackageSource._guess_vcs_type url = Ok "git" <->
     occurs (b "github") (b url) /\ ~ occurs (b "launchpad") (b url)) /\
  (~ occurs (b "launchpad") (b url) -> ~ occurs (b "github") (b url) ->
   exists msg, PackageSource.lookup_revision env url w = Exc (PyException msg) w) /\
  (forall w', PackageSource.lookup_revision env url w <> Ret None w').
Proof.
  rewrite <- !contains_false, <- !contains_occurs.
  split; [|split; [|split]].
  - rewrite guess_cases.
    destruct (PyText.contains (b "launchpad") (b url));
      [tauto|]. destruct (PyText.contains (b "github") (b url));
      split; discriminate.
  - rewrite guess_cases.
    destruct (PyText.contains (b "launchpad") (b url)).
    + split; [discriminate | intros [_ H]; discriminate].
    + destruct (PyText.contains (b "github") (b url));
        [tauto | split; [discriminate | intros [H _]; discriminate]].
  - intros H1 H2. rewrite lookup_revision_unfold, guess_cases, H1, H2. eauto.
  - intros w'. rewrite lookup_revision_unfold, guess_cases.
    destruct (PyText.contains (b "launchpad") (b url)).
    + cbn [String.eqb Ascii.eqb Bool.eqb andb]. cbv zeta.
      destruct (local_cmd env _ _ None) as [out|e]; [|discriminate].
      destruct (Py.index _ 1); discriminate.
    + destruct (PyText.contains (b "github") (b url)); [|discriminate].
      cbn [String.eqb Ascii.eqb Bool.eqb andb].
      destruct (if PyText.contains (b "#") (b url) then _ else _);
        [|discriminate].
      cbv zeta. destruct (local_cmd env _ _ None); discriminate.
Qed.
Lemma hd_split_in sep (s : bytes) c :
  In c (hd [] (Py.split sep s)) -> In c s.
Proof.
  intros H. rewrite <- (split_join sep s).
  pose proof (split_nonempty sep s) as Hne.
  destruct (Py.split sep s) as [|p [|q rest]]; [congruence|exact H|].
  cbn [hd] in H. cbn [join]. apply in_or_app. now left.
Qed.

Lemma first_field_clean sep (out : bytes) :
  ~ In sep (first_field sep out) /\ ~ In Py.newline (first_field sep out).
Proof.
  unfold first_field. split.
  - apply (split_parts_no_sep sep (hd [] (Py.split Py.newline out))).
    pose proof (split_nonempty sep (hd [] (Py.split Py.newline out))) as Hne.
    destruct (Py.split sep _); [congruence | now left].
  - intros H. apply hd_split_in in H.
    apply (split_parts_no_sep Py.newline out (hd [] (Py.split Py.newline out)));
      [|exact H].
    pose proof (split_nonempty Py.newline out) as Hne.
    destruct (Py.split Py.newline out); [congruence | now left].
Qed.

(** Unpacking [url.split('#')] into two names. *)
Lemma unpack_branch (s : bytes) :
  match count_occ ascii_dec s "#"%char with
  | O => PyText.contains (b "#") s = false
  | S O => PyText.contains (b "#") s = true /\
           exists u branch,
             PyText.unpack2 (Py.split "#" s) = Ok (u, branch) /\
             s = u ++ "#"%char :: branch /\
             ~ In "#"%char u /\ ~ In "#"%char branch
  | S (S _) => PyText.contains (b "#") s = true /\
               PyText.unpack2 (Py.split "#" s)
               = Raise (ValueError "too many values to unpack")
  end.
Proof.
  pose proof (split_length "#" s) as Hlen.
  pose proof (split_join "#" s) as Hjoin.
  pose proof (split_parts_no_sep "#" s) as Hparts.
  change (b "#") with ["#"%char].
  destruct (count_occ ascii_dec s "#"%char) as [|[|k]] eqn:Ec.
  - destruct (PyText.contains ["#"%char] s) eqn:E; [|reflexivity].
    apply contains_char in E. apply (count_occ_In ascii_dec) in E. lia.
  - split.
    + apply contains_char, (count_occ_In ascii_dec). lia.
    + destruct (Py.split "#" s) as [|u [|branch [|x l]]]; try discriminate.
      exists u, branch. split; [reflexivity|]. split; [now rewrite <- Hjoin|].
      split; apply Hparts; cbn; auto.
  - split.
    + apply contains_char, (count_occ_In ascii_dec). lia.
    + destruct (Py.split "#" s) as [|u [|branch [|x l]]]; try discriminate.
      reflexivity.
Qed.

(** X22.  The revision of a git branch.  A url without "#" is looked up
    on the branch master; a url with one "#" is split there into the url and
    the branch; a url with more than one raises ValueError before any
    command is run.  The revision returned is the first line of the output
    of "git ls-remote" up to its first tab: it holds neither tab nor
    newline, and no output makes the call raise (on empty output the
    revision is the empty string). *)
Theorem lookup_revision_git_branch (url : string) (w : World) :
  PackageSource._guess_vcs_type url = Ok "git" ->
  let run u branch :=
    let argv := ["git"; "ls-remote"; string_of_list_ascii u;
                 string_of_list_ascii branch] in
    let w1 := record_call (LocalCmd argv None) w in
    match local_cmd env (List.length (history w)) argv None with
    | Raise e => Exc e w1
    | Ok out =>
        Ret (Some (string_of_list_ascii (first_field PackageSource.tab out))) w1
    end in
  match count_occ ascii_dec (b url) "#"%char with
  | O => PackageSource.lookup_revision env url w = run (b url) (b "master")
  | S O =>
      exists u branch,
        b url = u ++ "#"%char :: branch /\
        ~ In "#"%char u /\ ~ In "#"%char branch /\
        PackageSource.lookup_revision env url w = run u branch
  | S (S _) =>
      PackageSource.lookup_revision env url w
      = Exc (ValueError "too many values to unpack") w
  end /\
  forall out,
    ~ In PackageSource.tab (first_field PackageSource.tab out) /\
    ~ In Py.newline (first_field PackageSource.tab out).
Proof.
  intros Hgit run. split; [|intros out; apply first_field_clean].
  subst run. rewrite lookup_revision_unfold, Hgit.
  cbn [String.eqb Ascii.eqb Bool.eqb andb]. cbv zeta.
  pose proof (unpack_branch (b url)) as Hu.
  destruct (count_occ ascii_dec (b url) "#"%char) as [|[|k]].
  - rewrite Hu. reflexivity.
  - destruct Hu as (-> & u & branch & -> & Hurl & H1 & H2).
    exists u, branch. auto.
  - destruct Hu as (-> & ->). reflexivity.
Qed.
(** X23.  The revision of a bzr branch is the second word of the first
    line of what "bzr revision-info" prints.  When that line has no space
    (empty output, for one) the call raises IndexError; the git lookup, which
    takes the first field, has no such case. *)
Theorem lookup_revision_bzr_second_word (url : string) (w : World) :
  PackageSource._guess_vcs_type url = Ok "bzr" ->
  let argv := ["bzr"; "revision-info"; "-d"; url] in
  let w1 := record_call (LocalCmd argv None) w in
  match local_cmd env (List.length (history w)) argv None with
  | Raise e => PackageSource.lookup_revision env url w = Exc e w1
  | Ok out =>
      let line := hd [] (Py.split Py.newline out) in
      (In " "%char line ->
       exists revision,
         nth_error (Py.split " " line) 1 = Some revision /\
         ~ In " "%char revision /\
         PackageSource.lookup_revision env url w
         = Ret (Some (string_of_list_ascii revision)) w1) /\
      (~ In " "%char line ->
       PackageSource.lookup_revision env url w = Exc IndexError w1)
  end.
Proof.
  intros Hbzr argv w1. subst argv w1. rewrite lookup_revision_unfold, Hbzr.
  cbn [String.eqb Ascii.eqb Bool.eqb andb]. cbv zeta.
  destruct (local_cmd env _ _ None) as [out|e]; [|reflexivity].
  set (line := hd [] (Py.split Py.newline out)).
  pose proof (split_length " " line) as Hlen.
  pose proof (split_parts_no_sep " " line) as Hparts.
  unfold Py.index. split.
  - intros Hin. apply (count_occ_In ascii_dec) in Hin.
    destruct (Py.split " " line) as [|first [|revision rest]];
      [simpl in Hlen; lia | simpl in Hlen; lia |].
    exists revision. cbn [nth_error]. split; [reflexivity|].
    split; [apply Hparts; cbn; auto | reflexivity].
  - intros Hno. apply (count_occ_not_In ascii_dec) in Hno. rewrite Hno in Hlen.
    destruct (Py.split " " line) as [|first [|revision rest]];
      [reflexivity | reflexivity | discriminate].
Qed.
End RevisionLookup.

Section RevisionLookupExamples.

Lemma lookup_revision_git_branch_witness :
  PackageSource._guess_vcs_type git_url = Ok "git" /\
  exists u branch w',
    b git_url = u ++ "#"%char :: branch /\
    PackageSource.lookup_revision (answering_env ls_remote_output) git_url
                                  example_world
    = Ret (Some "1f0c9d3b2a") w' /\
    history w' = [LocalCmd ["git"; "ls-remote"; string_of_list_ascii u;
                            string_of_list_ascii branch] None].
Proof.
  split; [reflexivity|].
  destruct (lookup_revision_git_branch (answering_env ls_remote_output) git_url
              example_world eq_refl) as [H _].
  change (count_occ ascii_dec (b git_url) "#"%char) with 1%nat in H.
  destruct H as (u & branch & Hurl & _ & _ & Hrun).
  exists u, branch. eexists. split; [exact Hurl|].
  split; [rewrite Hrun; reflexivity | reflexivity].
Defined.

Lemma lookup_revision_bzr_second_word_witness :
  PackageSource._guess_vcs_type bzr_url = Ok "bzr" /\
  (exists w',
     PackageSource.lookup_revision (answering_env revision_info_output) bzr_url
                                   example_world
     = Ret (Some "soren@linux2go.dk-20120917") w') /\
  (exists w',
     PackageSource.lookup_revision (answering_env []) bzr_url example_world
     = Exc IndexError w').
Proof.
  split; [reflexivity|]. split.
  - pose proof (lookup_revision_bzr_second_word
                  (answering_env revision_info_output) bzr_url example_world
                  eq_refl) as H.
    cbv zeta in H. cbn [answering_env local_cmd] in H. destruct H as [H _].
    destruct H as (revision & Hnth & _ & Hrun).
    { vm_compute. do 4 right. now left. }
    vm_compute in Hnth. injection Hnth as <-. eexists. exact Hrun.
  - pose proof (lookup_revision_bzr_second_word (answering_env []) bzr_url
                  example_world eq_refl) as H.
    cbv zeta in H. cbn [answering_env local_cmd] in H. destruct H as [_ H].
    eexists. apply H. intros [].
Defined.
End RevisionLookupExamples.

(** ** ChrootTarball.refresh *)

Section RefreshEnvironment.

Lemma filter_filter (A : Type) (f g : A -> bool) (l : list A) :
  filter f (filter g l) = filter (fun x => g x && f x) l.
Proof.
  induction l as [|x l IH]; [reflexivity|]. simpl.
  destruct (g x); simpl; [destruct (f x)|]; now rewrite IH.
Qed.

Lemma filter_true (A : Type) (l : list A) : filter (fun _ => true) l = l.
Proof. induction l as [|x l IH]; simpl; congruence. Qed.

Lemma scrub_fold (keys : list string) :
  forall environ,
    fold_left (fun environ k =>
                 if Py.startswith (b k) (b "LC_")
                 then ChrootTarball.del_key k environ
                 else if Py.startswith (b k) (b "LANG")
                      then ChrootTarball.del_key k environ
                      else environ)
              keys environ
    = filter (fun kv => negb (existsb (fun k => locale_name k
                                                && String.eqb (fst kv) k) keys))
             environ.
Proof.
  induction keys as [|k keys IH]; intros environ.
  - cbn [fold_left existsb negb]. now rewrite filter_true.
  - cbn [fold_left existsb]. rewrite IH. unfold locale_name at 2.
    destruct (Py.startswith (b k) (b "LC_")); cbn [orb andb];
      [|destruct (Py.startswith (b k) (b "LANG")); cbn [orb andb]];
      try reflexivity;
      unfold ChrootTarball.del_key; rewrite filter_filter;
      apply filter_ext; intros kv; now rewrite negb_orb.
Qed.

(** X24.  [refresh] clears the locale from the environment of the
    process: the variables whose names start with LC_ or with LANG (LANGUAGE
    is one of them) are removed, every other variable stays, with its value
    and in its place. *)
Theorem refresh_scrubs_locale (environ : list (string * string)) :
  ChrootTarball.scrub_locale environ = filter kept_variable environ /\
  (forall k v, In (k, v) (ChrootTarball.scrub_locale environ) <->
               In (k, v) environ /\ locale_name k = false).
Proof.
  assert (H : ChrootTarball.scrub_locale environ = filter kept_variable environ).
  { unfold ChrootTarball.scrub_locale. rewrite scrub_fold.
    apply filter_ext_in. intros kv Hkv. unfold kept_variable.
    rewrite <- negb_orb. f_equal. fold (locale_name (fst kv)).
    destruct (locale_name (fst kv)) eqn:E.
    - apply existsb_exists. exists (fst kv).
      split; [now apply in_map|]. now rewrite E, String.eqb_refl.
    - destruct (existsb _ (map fst environ)) eqn:Ex; [|reflexivity].
      apply existsb_exists in Ex. destruct Ex as (k & _ & Hk).
      apply andb_prop in Hk. destruct Hk as [Hl He].
      apply String.eqb_eq in He. congruence. }
  split; [exact H|]. intros k v. rewrite H, filter_In.
  unfold kept_variable. rewrite <- negb_orb. cbn [fst].
  fold (locale_name k). now rewrite negb_true_iff.
Qed.

Example refresh_scrubs_locale_example :
  ChrootTarball.scrub_locale (environ (example_site []))
  = [("PATH", "/usr/bin"); ("HOME", "/root")].
Proof. reflexivity. Qed.
End RefreshEnvironment.

Section Refresh.
Variable env : Env.
Variable settings : SiteSettings.

Lemma tarball_save_unfold (c : Obj ChrootTarball) :
  ChrootTarball.save c =
    match model_save ct_id with_ct_id ChrootTarball.clash (this c)
                     (tarball_table (site c)) with
    | Raise e => Exc e c
    | Ok saved => Ret tt {| this := fst saved;
                            site := set_tarball_table (snd saved) (site c) |}
    end.
Proof.
  unfold ChrootTarball.save, bind, get_state, lift_result, modify.
  now destruct (model_save _ _ _ _ _).
Qed.

Lemma tarball_run_cmd_unfold argv input (c : Obj ChrootTarball) :
  ChrootTarball.run_cmd env argv input c =
    match local_cmd env (List.length (history (base (site c)))) argv input with
    | Ok out => Ret out (site_called (LocalCmd argv input) c)
    | Raise e => Exc e (site_called (LocalCmd argv input) c)
    end.
Proof.
  unfold ChrootTarball.run_cmd, in_site, in_base, BuildNode.utils_run_cmd,
    BuildNode.ask.
  destruct (local_cmd env _ argv input); reflexivity.
Qed.

Lemma same_but_calls_refl c : same_but_calls c c.
Proof. repeat split. exists []. now rewrite app_nil_r. Qed.

Lemma same_but_calls_trans c1 c2 c3 :
  same_but_calls c1 c2 -> same_but_calls c2 c3 -> same_but_calls c1 c3.
Proof.
  intros (A1 & A2 & A3 & A4 & A5 & A6 & A7 & l1 & A8)
         (B1 & B2 & B3 & B4 & B5 & B6 & B7 & l2 & B8).
  repeat split; try congruence. exists (l1 ++ l2). now rewrite B8, A8, app_assoc.
Qed.

Lemma same_but_calls_called call c : same_but_calls c (site_called call c).
Proof. repeat split. now exists [call]. Qed.

(** A computation that makes external calls and nothing else. *)
Lemma calls_bind (A B : Type) (m : M (Obj ChrootTarball) A)
      (k : A -> M (Obj ChrootTarball) B) c :
  sat m c (fun _ c' => same_but_calls c c') (fun c' => same_but_calls c c') ->
  (forall a c1, same_but_calls c c1 ->
     sat (k a) c1 (fun _ c' => same_but_calls c1 c')
                  (fun c' => same_but_calls c1 c')) ->
  sat (bind m k) c (fun _ c' => same_but_calls c c') (fun c' => same_but_calls c c').
Proof.
  intros Hm Hk.
  apply sat_bind with (Q1 := fun _ c1 => same_but_calls c c1)
                      (E1 := fun c1 => same_but_calls c c1); [exact Hm|auto|].
  intros a c1 H1. eapply sat_weaken; [apply Hk, H1| |];
    intros; eapply same_but_calls_trans; eauto.
Qed.

Lemma calls_run_cmd argv input c :
  sat (ChrootTarball.run_cmd env argv input) c
      (fun _ c' => same_but_calls c c') (fun c' => same_but_calls c c').
Proof.
  unfold sat. rewrite tarball_run_cmd_unfold.
  destruct (local_cmd env _ argv input); apply same_but_calls_called.
Qed.

Lemma calls_log_fmt fmt args (c : Obj ChrootTarball) :
  sat (BuildNode.log_fmt fmt args) c
      (fun _ c' => same_but_calls c c') (fun c' => same_but_calls c c').
Proof.
  unfold sat, BuildNode.log_fmt, bind, lift_result.
  destruct (Py.format fmt args); apply same_but_calls_refl.
Qed.

Lemma calls_from_scratch proxy mirror c :
  sat (ChrootTarball.from_scratch env settings proxy mirror) c
      (fun _ c' => same_but_calls c c') (fun c' => same_but_calls c c').
Proof.
  unfold ChrootTarball.from_scratch.
  apply calls_bind; [apply same_but_calls_refl|]. intros c0 c1 _. cbv zeta.
  apply calls_bind; [apply calls_log_fmt|]. intros _ c2 _.
  apply calls_bind; [apply calls_run_cmd|]. intros _ c3 _.
  apply calls_bind; [apply calls_run_cmd|]. intros _ c4 _.
  destruct (POST_MK_SBUILD_CUSTOMISATION settings) as [cmd|];
    [|apply same_but_calls_refl].
  apply calls_bind; [|intros _ c5 _; apply same_but_calls_refl].
  unfold ChrootTarball._run_in_chroot.
  apply calls_bind; [apply same_but_calls_refl|]. intros c5 c6 _.
  apply calls_run_cmd.
Qed.
Lemma calls_then (A B : Type) (m : M (Obj ChrootTarball) A)
      (k : A -> M (Obj ChrootTarball) B) c0 c
      (Q : B -> Obj ChrootTarball -> Prop) (E : Obj ChrootTarball -> Prop) :
  same_but_calls c0 c ->
  sat m c (fun _ c' => same_but_calls c c') (fun c' => same_but_calls c c') ->
  (forall c', same_but_calls c0 c' -> E c') ->
  (forall a c1, same_but_calls c0 c1 -> sat (k a) c1 Q E) ->
  sat (bind m k) c Q E.
Proof.
  intros H0 Hm HE Hk.
  apply sat_bind with (Q1 := fun _ c1 => same_but_calls c0 c1)
                      (E1 := fun c1 => same_but_calls c0 c1).
  - eapply sat_weaken; [exact Hm| |]; intros; eapply same_but_calls_trans; eauto.
  - exact HE.
  - exact Hk.
Qed.

(** Between the two [save]s: the locale is cleared, commands are run
    from the root directory, and the working directory is put back when all
    of them have succeeded. *)
Lemma rebuild_spec proxy mirror (c1 : Obj ChrootTarball) :
  sat (ChrootTarball.rebuild env settings proxy mirror) c1
      (fun _ c2 =>
         this c2 = this c1 /\
         tarball_table (site c2) = tarball_table (site c1) /\
         environ (site c2) = ChrootTarball.scrub_locale (environ (site c1)) /\
         cwd (site c2) = cwd (site c1) /\
         clock (base (site c2)) = clock (base (site c1)))
      (fun c2 =>
         this c2 = this c1 /\
         tarball_table (site c2) = tarball_table (site c1) /\
         environ (site c2) = ChrootTarball.scrub_locale (environ (site c1)) /\
         cwd (site c2) = "/").
Proof.
  set (cb := set_site (set_cwd "/" (set_environ
                 (ChrootTarball.scrub_locale (environ (site c1))) (site c1))) c1).
  assert (Hrun : ChrootTarball.rebuild env settings proxy mirror c1 =
                 match ChrootTarball.update_chroot env settings proxy mirror cb with
                 | Ret _ c2 => Ret tt (set_site (set_cwd (cwd (site c1)) (site c2)) c2)
                 | Exc e c2 => Exc e c2
                 | Diverge => Diverge
                 end) by reflexivity.
  assert (Hcalls : sat (ChrootTarball.update_chroot env settings proxy mirror) cb
                       (fun _ c' => same_but_calls cb c')
                       (fun c' => same_but_calls cb c')).
  { unfold ChrootTarball.update_chroot.
    apply calls_bind; [apply calls_run_cmd|]. intros stdout c2 _.
    apply calls_bind; [apply same_but_calls_refl|]. intros c3 c4 _. cbv zeta.
    apply calls_bind.
    { destruct (negb _); [apply calls_from_scratch | apply same_but_calls_refl]. }
    intros _ c5 _.
    apply calls_bind; [apply calls_log_fmt|]. intros _ c6 _.
    apply calls_bind; [apply calls_run_cmd|]. intros _ c7 _.
    apply same_but_calls_refl. }
  unfold sat in *. rewrite Hrun.
  destruct (ChrootTarball.update_chroot env settings proxy mirror cb)
    as [[] c2|e c2|]; [| |exact I];
    destruct Hcalls as (A1 & _ & A3 & A4 & A5 & _ & A7 & _);
    subst cb; cbn in *; auto.
Qed.

Lemma save_elements (Row : Type) (p : Row -> bool) (obj : Row) rows r :
  In r (Orm.save p obj rows) -> r = obj \/ In r rows.
Proof.
  unfold Orm.save. destruct (existsb p rows).
  - rewrite update_as_map. intros H. apply in_map_iff in H.
    destruct H as (x & Hx & Hin). destruct (p x); subst; auto.
  - intros H. apply in_app_or in H. destruct H as [H|[H|[]]]; auto.
Qed.

Lemma same_id_none o : same_id o None = false.
Proof. now destruct o. Qed.

(** An object that the database has accepted is accepted again when the
    columns that have to be unique have not changed. *)
Lemma resave_accepted (obj obj2 : ChrootTarball) rows saved :
  model_save ct_id with_ct_id ChrootTarball.clash obj rows = Ok saved ->
  ct_id obj2 = ct_id (fst saved) ->
  ct_architecture obj2 = ct_architecture obj ->
  ct_series obj2 = ct_series obj ->
  exists rows2,
    model_save ct_id with_ct_id ChrootTarball.clash obj2 (snd saved)
    = Ok (obj2, rows2) /\
    In obj2 rows2.
Proof.
  unfold model_save. intros H Hid Ha Hs.
  destruct (existsb _ rows) eqn:Ex; [discriminate|].
  assert (Hrows : forall r, In r rows ->
                    negb (same_id (ct_id r) (ct_id obj)) = true ->
                    ChrootTarball.clash r obj2 = false).
  { intros r Hr Hne.
    destruct (ChrootTarball.clash r obj2) eqn:Ec; [|reflexivity].
    assert (Hc : ChrootTarball.clash r obj = true).
    { unfold ChrootTarball.clash in *. now rewrite <- Ha, <- Hs. }
    assert (Hex : existsb (fun r => negb (same_id (ct_id r) (ct_id obj))
                                    && ChrootTarball.clash r obj) rows = true).
    { apply existsb_exists. exists r. split; [exact Hr|]. now rewrite Hne, Hc. }
    congruence. }
  destruct (ct_id obj) as [i|] eqn:Ei; injection H as <-; cbn [fst snd] in *.
  - rewrite Hid, Ei.
    assert (Hno : existsb (fun r => negb (same_id (ct_id r) (Some i))
                                    && ChrootTarball.clash r obj2)
                          (Orm.save (fun r => id_is i (ct_id r)) obj rows) = false).
    { destruct (existsb _ (Orm.save _ obj rows)) eqn:E; [|reflexivity].
      apply existsb_exists in E. destruct E as (r & Hr & H).
      apply andb_prop in H. destruct H as [Hne Hc].
      apply save_elements in Hr. destruct Hr as [->|Hr].
      - rewrite Ei in Hne. cbn in Hne. rewrite Z.eqb_refl in Hne. discriminate.
      - rewrite (Hrows r Hr Hne) in Hc. discriminate. }
    rewrite Hno. eexists. split; [reflexivity|].
    apply save_In. rewrite Hid, Ei. apply Z.eqb_refl.
  - cbn [ct_id with_ct_id] in Hid. rewrite Hid.
    set (j := next_id (map ct_id rows)) in *.
    assert (Hno : existsb (fun r => negb (same_id (ct_id r) (Some j))
                                    && ChrootTarball.clash r obj2)
                          (rows ++ [with_ct_id j obj]) = false).
    { destruct (existsb _ (rows ++ _)) eqn:E; [|reflexivity].
      apply existsb_exists in E. destruct E as (r & Hr & H).
      apply andb_prop in H. destruct H as [Hne Hc].
      apply in_app_or in Hr. destruct Hr as [Hr|[<-|[]]].
      - rewrite (Hrows r Hr) in Hc; [discriminate|].
        now rewrite same_id_none.
      - cbn in Hne. rewrite Z.eqb_refl in Hne. discriminate. }
    rewrite Hno. eexists. split; [reflexivity|].
    apply save_In. rewrite Hid. apply Z.eqb_refl.
Qed.
Lemma model_save_keeps (obj : ChrootTarball) rows saved :
  model_save ct_id with_ct_id ChrootTarball.clash obj rows = Ok saved ->
  ct_state (fst saved) = ct_state obj /\
  last_refresh (fst saved) = last_refresh obj /\
  ct_architecture (fst saved) = ct_architecture obj /\
  ct_series (fst saved) = ct_series obj /\
  In (fst saved) (snd saved).
Proof.
  unfold model_save. destruct (existsb _ rows); [discriminate|].
  destruct (ct_id obj) as [i|] eqn:Ei; intros H; injection H as <-; cbn [fst snd].
  - repeat split. apply save_In. rewrite Ei. apply Z.eqb_refl.
  - repeat split. apply in_or_app. right. now left.
Qed.

(** [refresh] on a tarball that is not being built, statement by
    statement. *)
Lemma refresh_unfold proxy mirror (c : Obj ChrootTarball) :
  ct_state (this c) <> TarballState.CURRENTLY_BUILDING ->
  ChrootTarball.refresh env settings proxy mirror c =
    let c0 := set_this (with_ct_state TarballState.CURRENTLY_BUILDING (this c)) c in
    match model_save ct_id with_ct_id ChrootTarball.clash (this c0)
                     (tarball_table (site c)) with
    | Raise e => Exc e c0
    | Ok saved =>
        let c1 := {| this := fst saved;
                     site := set_tarball_table (snd saved) (site c) |} in
        match ChrootTarball.rebuild env settings proxy mirror c1 with
        | Ret _ c2 =>
            ChrootTarball.save
              (set_this (with_ct_state TarballState.READY
                           (with_last_refresh (clock (base (site c2))) (this c2)))
                        c2)
        | Exc e c2 => Exc e c2
        | Diverge => Diverge
        end
    end.
Proof.
  intros Hne. unfold ChrootTarball.refresh. unfold bind at 1. unfold get_state at 1.
  cbv beta iota.
  destruct (ct_state (this c) =? TarballState.CURRENTLY_BUILDING) eqn:E;
    [apply Z.eqb_eq in E; contradiction|].
  unfold bind at 1. erewrite log_fmt_ret by reflexivity. cbv beta iota.
  unfold bind at 1. unfold modify at 1.
  unfold bind at 1. rewrite tarball_save_unfold. cbv zeta.
  cbn [this site set_this].
  destruct (model_save _ _ _ _ _) as [saved|e]; [|reflexivity].
  unfold bind at 1.
  destruct (ChrootTarball.rebuild env settings proxy mirror _) as [[] c2|e c2|];
    reflexivity.
Qed.

(** X25.  [refresh] ignores a tarball that is being built, and a failed
    [refresh] leaves the tarball in that state: when [refresh] raises, the
    object is CURRENTLY_BUILDING and every later [refresh] of it returns at
    once without doing anything; if the database had accepted the first
    [save], the stored row is in that state too, and the process is left in
    the root directory. *)
Theorem refresh_failure_sticks (proxy mirror : option string)
        (c : Obj ChrootTarball) :
  (ct_state (this c) = TarballState.CURRENTLY_BUILDING ->
   forall proxy' mirror',
     ChrootTarball.refresh env settings proxy' mirror' c = Ret tt c) /\
  (forall e c',
     ChrootTarball.refresh env settings proxy mirror c = Exc e c' ->
     ct_state (this c') = TarballState.CURRENTLY_BUILDING /\
     (forall proxy' mirror',
        ChrootTarball.refresh env settings proxy' mirror' c' = Ret tt c') /\
     (accepted c = true ->
      In (this c') (tarball_table (site c')) /\ cwd (site c') = "/")).
Proof.
  assert (Hguard : forall c0 : Obj ChrootTarball,
             ct_state (this c0) = TarballState.CURRENTLY_BUILDING ->
             forall proxy' mirror',
               ChrootTarball.refresh env settings proxy' mirror' c0 = Ret tt c0).
  { intros c0 H proxy' mirror'. unfold ChrootTarball.refresh, bind at 1, get_state.
    rewrite H. cbn [Z.eqb Pos.eqb]. change (TarballState.CURRENTLY_BUILDING
      =? TarballState.CURRENTLY_BUILDING) with true. cbv iota.
    now erewrite log_fmt_ret by reflexivity. }
  split; [apply Hguard|]. intros e c' Hrun.
  assert (Hstate : ct_state (this c') = TarballState.CURRENTLY_BUILDING /\
                   (accepted c = true ->
                    In (this c') (tarball_table (site c')) /\ cwd (site c') = "/")).
  { destruct (Z.eq_dec (ct_state (this c)) TarballState.CURRENTLY_BUILDING)
      as [Hcb|Hne]; [rewrite (Hguard c Hcb) in Hrun; discriminate|].
    rewrite (refresh_unfold proxy mirror c Hne) in Hrun. cbv zeta in Hrun.
    unfold accepted. cbn [this set_this] in Hrun.
    destruct (model_save _ _ _ _ _) as [saved|e0] eqn:Esave.
    - destruct (model_save_keeps _ _ _ Esave) as (Hs & _ & Ha & Hse & Hin).
      pose proof (rebuild_spec proxy mirror
                    {| this := fst saved;
                       site := set_tarball_table (snd saved) (site c) |}) as Hr.
      unfold sat in Hr.
      destruct (ChrootTarball.rebuild env settings proxy mirror _)
        as [[] c2|e2 c2|]; [| |discriminate].
      + exfalso. destruct Hr as (Hthis & Htab & _).
        rewrite tarball_save_unfold in Hrun. cbn [this site set_this] in Hrun.
        destruct (resave_accepted _
                    (with_ct_state TarballState.READY
                       (with_last_refresh (clock (base (site c2))) (this c2)))
                    _ _ Esave) as (rows2 & Hok & _).
        * cbn. now rewrite Hthis.
        * cbn. now rewrite Hthis.
        * cbn. now rewrite Hthis.
        * rewrite Htab in Hrun. cbn [site tarball_table set_tarball_table] in Hrun.
          rewrite Hok in Hrun. discriminate.
      + injection Hrun as _ <-. destruct Hr as (Hthis & Htab & _ & Hcwd).
        cbn [this site tarball_table set_tarball_table] in *.
        rewrite Hthis. split; [exact Hs|]. intros _.
        split; [now rewrite Htab | exact Hcwd].
    - injection Hrun as _ <-. split; [reflexivity | discriminate]. }
  destruct Hstate as [Hs Hacc]. split; [exact Hs|].
  split; [apply Hguard, Hs | exact Hacc].
Qed.

(** X26.  A [refresh] that returns, of a tarball that was not being
    built, leaves it READY with [last_refresh] the time read after the
    commands, on the object and in its stored row; architecture and series
    are unchanged, the process is back in the directory it was in, and its
    environment is the one it had with the locale cleared. *)
Theorem refresh_marks_ready (proxy mirror : option string)
        (c c' : Obj ChrootTarball) :
  ct_state (this c) <> TarballState.CURRENTLY_BUILDING ->
  ChrootTarball.refresh env settings proxy mirror c = Ret tt c' ->
  ct_state (this c') = TarballState.READY /\
  last_refresh (this c') = Some (clock (base (site c'))) /\
  ct_architecture (this c') = ct_architecture (this c) /\
  ct_series (this c') = ct_series (this c) /\
  In (this c') (tarball_table (site c')) /\
  cwd (site c') = cwd (site c) /\
  environ (site c') = ChrootTarball.scrub_locale (environ (site c)).
Proof.
  intros Hne Hrun. rewrite (refresh_unfold proxy mirror c Hne) in Hrun.
  cbv zeta in Hrun. cbn [this set_this] in Hrun.
  destruct (model_save _ _ _ _ _) as [saved|e0] eqn:Esave; [|discriminate].
  destruct (model_save_keeps _ _ _ Esave) as (_ & _ & Ha & Hse & _).
  pose proof (rebuild_spec proxy mirror
                {| this := fst saved;
                   site := set_tarball_table (snd saved) (site c) |}) as Hr.
  unfold sat in Hr.
  destruct (ChrootTarball.rebuild env settings proxy mirror _)
    as [[] c2|e2 c2|]; [|discriminate|discriminate].
  destruct Hr as (Hthis & Htab & Henv & Hcwd & Hclock).
  rewrite tarball_save_unfold in Hrun. cbn [this site set_this] in Hrun.
  destruct (model_save _ _ _ _ (tarball_table (site c2))) as [saved2|e] eqn:E2;
    [|discriminate].
  injection Hrun as <-.
  destruct (model_save_keeps _ _ _ E2) as (Hs2 & Hl2 & Ha2 & Hse2 & Hin2).
  cbn [this site tarball_table set_tarball_table cwd environ ct_state last_refresh
       ct_architecture ct_series with_ct_state with_last_refresh set_tarball_table]
    in *.
  rewrite Hs2, Hl2, Ha2, Hse2, Hthis, Ha, Hse.
  repeat split; assumption.
Qed.
End Refresh.

Section RefreshExamples.

Lemma refresh_failure_sticks_witness :
  exists c',
    ChrootTarball.refresh failing_env example_site_settings None None tarball_obj
      = Exc (ExternalError "CommandFailed") c' /\
    ChrootTarball.refresh calm_env example_site_settings None None c' = Ret tt c' /\
    map ct_state (tarball_table (site c')) = [TarballState.CURRENTLY_BUILDING] /\
    cwd (site c') = "/".
Proof.
  destruct (ChrootTarball.refresh failing_env example_site_settings None None
                                  tarball_obj) as [x c'|e c'|] eqn:E;
    try discriminate E.
  assert (He : e = ExternalError "CommandFailed") by (vm_compute in E; congruence).
  subst e. exists c'. split; [reflexivity|].
  destruct (refresh_failure_sticks failing_env example_site_settings None None
              tarball_obj) as [_ H].
  destruct (H _ _ E) as (Hs & _ & Hacc).
  destruct (refresh_failure_sticks calm_env example_site_settings None None c')
    as [Hguard _].
  split; [apply Hguard, Hs|].
  destruct (Hacc eq_refl) as [_ Hcwd]. split; [|exact Hcwd].
  vm_compute in E. injection E as <-. reflexivity.
Defined.

Lemma refresh_marks_ready_witness :
  ct_state (this tarball_obj) <> TarballState.CURRENTLY_BUILDING /\
  exists c',
    ChrootTarball.refresh calm_env example_site_settings None None tarball_obj
      = Ret tt c' /\
    map ct_state (tarball_table (site c')) = [TarballState.READY] /\
    cwd (site c') = "/srv/repomgmt" /\
    environ (site c') = [("PATH", "/usr/bin"); ("HOME", "/root")].
Proof.
  assert (Hne : ct_state (this tarball_obj) <> TarballState.CURRENTLY_BUILDING)
    by discriminate.
  split; [exact Hne|].
  destruct (ChrootTarball.refresh calm_env example_site_settings None None
                                  tarball_obj) as [[] c'|e c'|] eqn:E;
    try discriminate E.
  exists c'. split; [reflexivity|].
  destruct (refresh_marks_ready calm_env example_site_settings None None
              tarball_obj c' Hne E) as (_ & _ & _ & _ & _ & Hcwd & Henv).
  split; [|split; [exact Hcwd | exact Henv]].
  vm_compute in E. injection E as <-. reflexivity.
Defined.
End RefreshExamples.
